(** * The document merge pipeline of MANEA-PDF (services/pdfService)

    A shallow embedding of [embedHtmlAsImage] and [mergeFilesToPdf].

    The two functions are glue around browser and library calls, so the
    embedding has three layers:

    - the collaborators (pdf-lib, mammoth, SheetJS, html2canvas, the layout
      engine, the arithmetic of JS numbers) are the fields of a [Host]; every
      statement is proved for every host;
    - the mutable objects the code shares (the output document and its pages,
      the DOM nodes and the children of [document.body]) live in a [World]
      that is threaded through a state-and-exception monad [M];
    - the two functions are written in that monad statement by statement.

    What can throw is what the code awaits or calls in a library to decode,
    parse, convert or render: [PDFDocument.create], [PDFDocument.load],
    [embedJpg], [embedPng], [mammoth.convertToHtml], [XLSX.read],
    [sheet_to_html], [html2canvas], [canvas.toDataURL], [fetch]; and
    [drawText], which encodes its text with the standard font and throws
    for a character that the font does not have. [save] adds a page to a
    document without pages. [copyPages] copies the pages at the indices it
    is given and throws only for an index the donor does not have. The
    other operations on the output document and its pages ([addPage],
    [getSize], [getHeight]), reading the bytes of a [File] and
    [console.error] do not throw.

    Two things are taken to go well and are not followed further: the
    caller's progress callback returns (the callback of [App] sets a state
    variable), and [drawImage] accepts the position and size that the code
    computes (they are numbers for an image that has a width and a
    height). Strings are sequences of 8-bit code units; a character outside
    ASCII is the sequence of its UTF-8 bytes. *)

From Stdlib Require Import QArith Qminmax Qfield Lqa Ascii.
From stdpp Require Import gmap strings list fin_maps sorting pretty.


(** ** JavaScript strings (the operations the dispatch uses) *)

Module JsString.

(** [s.startsWith(p)] *)
Definition startsWith (s p : string) : bool := String.prefix p s.

(** [s.endsWith(p)]: the last [p.length] code units of [s] are [p]. *)
Definition endsWith (s p : string) : bool :=
  let n := String.length s in
  let m := String.length p in
  if m <=? n then bool_decide (String.substring (n - m) m s = p) else false.

(** Case folding of one code unit: only [A]..[Z] matter for the suffixes
    the code tests, every other unit is left as it is. *)
Definition lower_ascii (c : ascii) : ascii :=
  let n := N_of_ascii c in
  if ((65 <=? n) && (n <=? 90))%N then ascii_of_N (n + 32) else c.

(** [s.toLowerCase()] *)
Fixpoint toLowerCase (s : string) : string :=
  match s with
  | EmptyString => EmptyString
  | String c s' => String (lower_ascii c) (toLowerCase s')
  end.

End JsString.
Import JsString.

(** ** Values *)

Definition Bytes := list Byte.byte.

(** A thrown JavaScript value; the code only passes it to [console.error]. *)
Definition Exn := string.

Inductive Result (A : Type) : Type :=
| Ok (a : A)
| Throw (e : Exn).
Arguments Ok {A} a.
Arguments Throw {A} e.

(** A browser [File]: an immutable byte blob with a name and a declared
    media type ([file.arrayBuffer()] yields [content]). *)
Record File := { name : string; type : string; content : Bytes }.

(** A DOM element, as far as the code touches it: its inline style (a JS
    object used as a map) and the serialisation of its children. *)
Record Element := {
  tagName : string;
  style : gmap string string;
  innerHTML : string;
}.

Definition outerHTML (el : Element) : string :=
  "<" +:+ tagName el +:+ ">" +:+ innerHTML el +:+ "</" +:+ tagName el +:+ ">".

(** ** The collaborators *)

Record Size (num : Type) := { width : num; height : num }.
Arguments width {num} _.
Arguments height {num} _.

Record H2COptions (num : Type) := {
  opt_scale : num;
  opt_useCORS : bool;
  opt_logging : bool;
  opt_windowWidth : num;
  opt_windowHeight : num;
}.
Arguments opt_scale {num} _.
Arguments opt_useCORS {num} _.
Arguments opt_logging {num} _.
Arguments opt_windowWidth {num} _.
Arguments opt_windowHeight {num} _.

(** A SheetJS workbook: the sheet names in order and the sheets by name (a
    JS object used as a map). *)
Record Workbook (Worksheet : Type) := {
  SheetNames : list string;
  Sheets : gmap string Worksheet;
}.
Arguments SheetNames {Worksheet} _.
Arguments Sheets {Worksheet} _.

(** Everything the two functions reach through [window] and [document].
    A call that JavaScript can reject or throw returns a [Result]. *)
Class Host := {
  (** JS numbers: the four operations the code applies, and literals *)
  num : Type;
  lit : Q → num;
  ndiv : num → num → num;
  nmul : num → num → num;
  nsub : num → num → num;
  nmin : num → num → num;
  (** pdf-lib *)
  PDFDocument_create : Result unit;
  defaultPageSize : Size num;
  PDFImage : Type;
  PDFImage_scale : PDFImage → num → Size num;
  embedJpg : Bytes → Result PDFImage;
  embedPng : Bytes → Result PDFImage;
  (** whether the standard font can encode a text that is not all
      printable ASCII *)
  standardFont_encodes : string → bool;
  DonorPage : Type;
  DonorPage_size : DonorPage → Size num;
  PDFDocument_load : Bytes → Result (list DonorPage);
  (** mammoth *)
  mammoth_convertToHtml : Bytes → Result string;
  (** SheetJS *)
  Worksheet : Type;
  XLSX_read : Bytes → Result (Workbook Worksheet);
  XLSX_sheet_to_html : option Worksheet → Result string;
  (** html2canvas, the layout engine, canvas and fetch *)
  Canvas : Type;
  scrollWidth : Element → num;
  scrollHeight : Element → num;
  html2canvas : Element → H2COptions num → Result Canvas;
  canvas_toDataURL : Canvas → string → num → Result string;
  fetch_arrayBuffer : string → Result Bytes;
  (** the state of the caller, which the progress callback updates *)
  AppState : Type;
}.

Section Pipeline.
Context `{Host}.

(** ** The output document *)

(** [rgb(r, g, b)] of pdf-lib. *)
Inductive Color := rgb (r g b : num).

Record TextOptions := { t_x : num; t_y : num; t_size : num; t_color : Color }.
Record ImageOptions := { i_x : num; i_y : num; i_width : num; i_height : num }.

Inductive DrawOp :=
| DrawText (text : string) (options : TextOptions)
| DrawImage (image : PDFImage) (options : ImageOptions).

(** A page of the output document: where it comes from ([None] for a page
    made by [addPage()], the donor page for a copied one), its size, and what
    the code drew on it, oldest first. *)
Record PDFPage := {
  origin : option DonorPage;
  pageSize : Size num;
  ops : list DrawOp;
}.

Definition newPage : PDFPage :=
  {| origin := None; pageSize := defaultPageSize; ops := [] |}.

Definition copyOf (src : DonorPage) : PDFPage :=
  {| origin := Some src; pageSize := DonorPage_size src; ops := [] |}.

Definition draw (op : DrawOp) (p : PDFPage) : PDFPage :=
  {| origin := origin p; pageSize := pageSize p; ops := ops p ++ [op] |}.

(** ** What the code does to the outside, in order *)

Inductive Event :=
| EvProgress (fileName : string)
| EvCall (api : string)
| EvConsoleError (message : string) (error : Exn)
| EvAppendChild (node : nat)
| EvRemoveChild (node : nat)
| EvRender (node : nat) (container : Element) (options : H2COptions num).

(** ** The world: the objects the code mutates *)

Record World := {
  doc : list PDFPage;        (* the pages of mergedPdfDoc *)
  nodes : gmap nat Element;  (* the DOM elements, by identity *)
  nextNode : nat;            (* the next fresh identity *)
  body : list nat;           (* the children of document.body *)
  caller : AppState;         (* the caller's state *)
  trace : list Event;        (* what happened so far *)
}.

Definition with_doc (f : list PDFPage → list PDFPage) (w : World) : World :=
  {| doc := f (doc w); nodes := nodes w; nextNode := nextNode w;
     body := body w; caller := caller w; trace := trace w |}.
Definition with_nodes (f : gmap nat Element → gmap nat Element) (w : World) : World :=
  {| doc := doc w; nodes := f (nodes w); nextNode := nextNode w;
     body := body w; caller := caller w; trace := trace w |}.
Definition with_nextNode (f : nat → nat) (w : World) : World :=
  {| doc := doc w; nodes := nodes w; nextNode := f (nextNode w);
     body := body w; caller := caller w; trace := trace w |}.
Definition with_body (f : list nat → list nat) (w : World) : World :=
  {| doc := doc w; nodes := nodes w; nextNode := nextNode w;
     body := f (body w); caller := caller w; trace := trace w |}.
Definition with_caller (f : AppState → AppState) (w : World) : World :=
  {| doc := doc w; nodes := nodes w; nextNode := nextNode w;
     body := body w; caller := f (caller w); trace := trace w |}.
Definition with_trace (f : list Event → list Event) (w : World) : World :=
  {| doc := doc w; nodes := nodes w; nextNode := nextNode w;
     body := body w; caller := caller w; trace := f (trace w) |}.

(** ** The monad of the code: state, and exceptions that keep the state *)

Definition M (A : Type) : Type := World → Result A * World.

Definition ret {A} (a : A) : M A := λ w, (Ok a, w).
Definition throw {A} (e : Exn) : M A := λ w, (Throw e, w).
Definition bind {A B} (m : M A) (k : A → M B) : M B :=
  λ w, match m w with
       | (Ok a, w') => k a w'
       | (Throw e, w') => (Throw e, w')
       end.

(** [try { body } catch (e) { handler }] *)
Definition try_catch {A} (body : M A) (handler : Exn → M A) : M A :=
  λ w, match body w with
       | (Ok a, w') => (Ok a, w')
       | (Throw e, w') => handler e w'
       end.

(** [... finally { fin }]: [fin] runs whatever [m] did; its own exception,
    if any, replaces the outcome of [m]. *)
Definition finally {A} (m : M A) (fin : M unit) : M A :=
  λ w, let '(r, w') := m w in
       match fin w' with
       | (Ok _, w'') => (r, w'')
       | (Throw e, w'') => (Throw e, w'')
       end.

Definition try_catch_finally {A} (body : M A) (handler : Exn → M A) (fin : M unit) : M A :=
  finally (try_catch body handler) fin.

Definition modify (f : World → World) : M unit := λ w, (Ok tt, f w).
Definition gets {A} (f : World → A) : M A := λ w, (Ok (f w), w).
Definition log (e : Event) : M unit := modify (with_trace (λ t, t ++ [e])).
Definition lift {A} (r : Result A) : M A := λ w, (r, w).

End Pipeline.

Declare Scope js_scope.
Delimit Scope js_scope with js.
Notation "'let*' x ':=' m 'in' k" := (bind m (λ x, k))
  (at level 10, x name, m at level 100, k at level 200) : js_scope.
Notation "m ';;;' k" := (bind m (λ _, k))
  (at level 100, k at level 200, right associativity) : js_scope.
Local Open Scope js_scope.

Section Code.
Context `{Host}.

(** ** Primitives *)

(** A call into a collaborator that may throw. *)
Definition call {A} (api : string) (r : Result A) : M A :=
  log (EvCall api);;; lift r.

(** [console.error(message, error)] *)
Definition console_error (message : string) (error : Exn) : M unit :=
  log (EvConsoleError message error).

(** *** pdf-lib: the output document and its pages

    A page object is shared between the variable that holds it and the
    document; it is addressed by its index in the document. *)

(** [PDFDocument.create()]: a new document without pages. *)
Definition create : M unit :=
  call "PDFDocument.create" PDFDocument_create;;;
  modify (with_doc (λ _, [])).

(** [pdfDoc.addPage()] *)
Definition addPage : M nat :=
  log (EvCall "addPage");;;
  let* page := gets (λ w, length (doc w)) in
  modify (with_doc (λ d, d ++ [newPage]));;;
  ret page.

(** [pdfDoc.addPage(page)] for a page made by [copyPages]. *)
Definition addPageOf (page : PDFPage) : M unit :=
  log (EvCall "addPage");;;
  modify (with_doc (λ d, d ++ [page])).

Definition getPage (page : nat) : M PDFPage :=
  let* d := gets doc in
  match d !! page with
  | Some p => ret p
  | None => throw "TypeError: page is undefined"
  end.

(** [page.getSize()] and [page.getHeight()] *)
Definition getSize (page : nat) : M (Size num) :=
  let* p := getPage page in ret (pageSize p).
Definition getHeight (page : nat) : M num :=
  let* p := getPage page in ret (height (pageSize p)).

Definition drawOn (page : nat) (op : DrawOp) : M unit :=
  getPage page;;;
  modify (with_doc (alter (draw op) page)).

(** [font.encodeText(text)] for the standard font, which [drawText] uses
    when it is given no font: the font has the printable ASCII characters;
    whether it can encode a text with other characters is the host's to
    say; the encoding throws for a character that the font does not have. *)
Definition printable (c : ascii) : bool :=
  let n := N_of_ascii c in ((32 <=? n) && (n <=? 126))%N.

Fixpoint printableText (text : string) : bool :=
  match text with
  | EmptyString => true
  | String c rest => printable c && printableText rest
  end.

Definition encodingError : Exn := "Error: WinAnsi cannot encode the text".

Definition encodeText (text : string) : Result unit :=
  if printableText text || standardFont_encodes text then Ok tt
  else Throw encodingError.

(** [page.drawText(text, options)]: the text is encoded before anything is
    written on the page. *)
Definition drawText (page : nat) (text : string) (options : TextOptions) : M unit :=
  log (EvCall "drawText");;;
  lift (encodeText text);;;
  drawOn page (DrawText text options).

(** [page.drawImage(image, options)] *)
Definition drawImage (page : nat) (image : PDFImage) (options : ImageOptions) : M unit :=
  log (EvCall "drawImage");;; drawOn page (DrawImage image options).

(** [donorPdfDoc.getPageIndices()] *)
Definition getPageIndices (donor : list DonorPage) : list nat :=
  seq 0 (length donor).

(** [mergedPdfDoc.copyPages(donor, indices)]: a copy of the donor's page at
    each index, in the order of the indices. *)
Definition copyPages (donor : list DonorPage) (indices : list nat) : M (list PDFPage) :=
  call "copyPages"
    (match mapM (λ i, donor !! i) indices with
     | Some srcs => Ok (copyOf <$> srcs)
     | None => Throw "TypeError: source page is undefined"
     end).

(** [mergedPdfDoc.save()]: with its default options, [save] first adds a
    page to a document that has none. The serialised document is identified
    with its sequence of pages. *)
Definition save : M (list PDFPage) :=
  log (EvCall "save");;;
  let* pages := gets doc in
  (match pages with
   | [] => modify (with_doc (λ d, d ++ [newPage]))
   | _ :: _ => ret tt
   end);;;
  gets doc.

(** *** The DOM *)

(** [document.createElement(tag)] *)
Definition createElement (tag : string) : M nat :=
  let* id := gets nextNode in
  modify (with_nextNode S);;;
  modify (with_nodes (insert id {| tagName := tag; style := ∅; innerHTML := "" |}));;;
  ret id.

Definition getElement (node : nat) : M Element :=
  let* ns := gets nodes in
  match ns !! node with
  | Some el => ret el
  | None => throw "TypeError: element is undefined"
  end.

Definition setElement (node : nat) (f : Element → Element) : M unit :=
  getElement node;;;
  modify (with_nodes (alter f node)).

(** [node.style[prop] = value] *)
Definition setStyle (node : nat) (prop value : string) : M unit :=
  setElement node (λ el,
    {| tagName := tagName el; style := <[prop := value]> (style el);
       innerHTML := innerHTML el |}).

(** [node.innerHTML = html] *)
Definition setInnerHTML (node : nat) (html : string) : M unit :=
  setElement node (λ el,
    {| tagName := tagName el; style := style el; innerHTML := html |}).

(** [parent.prepend(child)] *)
Definition prepend (parent child : nat) : M unit :=
  let* c := getElement child in
  let* p := getElement parent in
  setInnerHTML parent (outerHTML c +:+ innerHTML p).

(** [document.body.appendChild(node)]; a node that is already a child is
    moved to the end. *)
Definition body_appendChild (node : nat) : M unit :=
  log (EvAppendChild node);;;
  modify (with_body (λ b, filter (λ c, c ≠ node) b ++ [node])).

(** [document.body.removeChild(node)] *)
Definition body_removeChild (node : nat) : M unit :=
  log (EvRemoveChild node);;;
  let* b := gets body in
  if bool_decide (node ∈ b)
  then modify (with_body (filter (λ c, c ≠ node)))
  else throw "NotFoundError: the node is not a child of this node".

(** [await html2canvas(container, options)] *)
Definition render (container : nat) (options : H2COptions num) : M Canvas :=
  let* el := getElement container in
  log (EvRender container el options);;;
  lift (html2canvas el options).

(** ** The loop of [for (const x of xs) { body }] *)
Fixpoint forOf {A} (xs : list A) (body : A → M unit) : M unit :=
  match xs with
  | [] => ret tt
  | x :: xs' => body x;;; forOf xs' body
  end.

End Code.

Section Service.
Context `{Host}.

(** ** [embedHtmlAsImage] *)

Definition pageCss : string :=
"
    body { font-family: sans-serif; }
    table { border-collapse: collapse; width: 100%; font-size: 12px; table-layout: fixed; }
    th, td { border: 1px solid #ccc; padding: 4px; text-align: left; word-wrap: break-word; }
    th { background-color: #f2f2f2; }
    p { margin: 0 0 1em 0; line-height: 1.4; }
    h1, h2, h3, h4, h5, h6 { margin: 1.2em 0 0.8em 0; }
  ".

(** The options of every notice the code writes on a placeholder page:
    [{ x: 50, y: page.getHeight() / 2, size: 24, color: rgb(0.8, 0.2, 0.2) }]. *)
Definition noticeOptions (pageHeight : num) : TextOptions :=
  {| t_x := lit 50; t_y := ndiv pageHeight (lit 2); t_size := lit 24;
     t_color := rgb (lit 0.8) (lit 0.2) (lit 0.2) |}.

Definition embedHtmlAsImage (htmlContent : string) : M unit :=
  let* container := createElement "div" in
  setStyle container "position" "absolute";;;
  setStyle container "left" "-9999px";;;
  setStyle container "width" "8.5in";;;
  setStyle container "padding" "1in";;;
  setStyle container "backgroundColor" "white";;;
  setStyle container "boxSizing" "border-box";;;
  setStyle container "direction" "ltr";;;
  let* style := createElement "style" in
  setInnerHTML style pageCss;;;
  prepend container style;;;
  (let* el := getElement container in
   setInnerHTML container (innerHTML el +:+ htmlContent));;;
  body_appendChild container;;;
  try_catch_finally
    (let* el := getElement container in
     let* canvas := render container
       {| opt_scale := lit 2; opt_useCORS := true; opt_logging := false;
          opt_windowWidth := scrollWidth el;
          opt_windowHeight := scrollHeight el |} in
     let* jpgDataUrl := call "canvas.toDataURL"
                          (canvas_toDataURL canvas "image/jpeg" (lit 0.9)) in
     let* jpgBytes := call "fetch" (fetch_arrayBuffer jpgDataUrl) in
     let* jpgImage := call "embedJpg" (embedJpg jpgBytes) in
     let* page := addPage in
     let* pageDimensions := getSize page in
     let imageDimensions := PDFImage_scale jpgImage (lit 1) in
     let scale := nmin (ndiv (width pageDimensions) (width imageDimensions))
                       (ndiv (height pageDimensions) (height imageDimensions)) in
     let scaledWidth := nmul (width imageDimensions) scale in
     let scaledHeight := nmul (height imageDimensions) scale in
     drawImage page jpgImage
       {| i_x := ndiv (nsub (width pageDimensions) scaledWidth) (lit 2);
          i_y := ndiv (nsub (height pageDimensions) scaledHeight) (lit 2);
          i_width := scaledWidth;
          i_height := scaledHeight |})
    (λ error,
     console_error "Error converting HTML to canvas:" error;;;
     let* page := addPage in
     let* h := getHeight page in
     drawText page "Failed to render Office document" (noticeOptions h))
    (body_removeChild container).

(** ** [mergeFilesToPdf] *)

(** [file.arrayBuffer()] *)
Definition arrayBuffer (file : File) : M Bytes :=
  call "arrayBuffer" (Ok (content file)).

(** [onProgress?.(fileName)] *)
Definition notify (onProgress : option (string → AppState → AppState))
    (fileName : string) : M unit :=
  match onProgress with
  | Some callback => log (EvProgress fileName);;; modify (with_caller (callback fileName))
  | None => ret tt
  end.

Definition docxType : string :=
  "application/vnd.openxmlformats-officedocument.wordprocessingml.document".
Definition xlsxType : string :=
  "application/vnd.openxmlformats-officedocument.spreadsheetml.sheet".

(** The [if (fileType.startsWith('image/'))] branch. *)
Definition imageBranch (file : File) : M unit :=
  let* page := addPage in
  let* imageBytes := arrayBuffer file in
  let* image :=
    if bool_decide (type file = "image/jpeg") then
      let* image := call "embedJpg" (embedJpg imageBytes) in ret (Some image)
    else if bool_decide (type file = "image/png") then
      let* image := call "embedPng" (embedPng imageBytes) in ret (Some image)
    else
      (let* h := getHeight page in
       drawText page ("Unsupported image: " +:+ name file) (noticeOptions h));;;
      ret None (* continue *) in
  match image with
  | None => ret tt
  | Some image =>
      let* pageDimensions := getSize page in
      let imageDimensions := PDFImage_scale image (lit 1) in
      let scale := nmin (ndiv (width pageDimensions) (width imageDimensions))
                        (ndiv (height pageDimensions) (height imageDimensions)) in
      drawImage page image
        {| i_x := ndiv (nsub (width pageDimensions)
                             (nmul (width imageDimensions) scale)) (lit 2);
           i_y := ndiv (nsub (height pageDimensions)
                             (nmul (height imageDimensions) scale)) (lit 2);
           i_width := nmul (width imageDimensions) scale;
           i_height := nmul (height imageDimensions) scale |}
  end.

(** The [else if (fileType === 'application/pdf')] branch. *)
Definition pdfBranch (file : File) : M unit :=
  try_catch
    (let* pdfBytes := arrayBuffer file in
     let* donorPdfDoc := call "PDFDocument.load" (PDFDocument_load pdfBytes) in
     let copiedPageIndices := getPageIndices donorPdfDoc in
     let* copiedPages := copyPages donorPdfDoc copiedPageIndices in
     forOf copiedPages addPageOf)
    (λ e,
     console_error ("Could not process PDF file: " +:+ name file) e;;;
     let* page := addPage in
     let* h := getHeight page in
     drawText page ("Could not load PDF: " +:+ name file) (noticeOptions h)).

(** The Word branch. *)
Definition wordBranch (file : File) : M unit :=
  try_catch
    (let* arrayBuffer := arrayBuffer file in
     let* result := call "mammoth.convertToHtml" (mammoth_convertToHtml arrayBuffer) in
     embedHtmlAsImage result)
    (λ e,
     console_error ("Could not process Word file: " +:+ name file) e;;;
     let* page := addPage in
     let* h := getHeight page in
     drawText page ("Could not load Word file: " +:+ name file) (noticeOptions h)).

(** The Excel branch. [workbook.SheetNames[0]] is [undefined] for a workbook
    without sheets, and [workbook.Sheets[undefined]] reads the property named
    ["undefined"]. *)
Definition excelBranch (file : File) : M unit :=
  try_catch
    (let* data := arrayBuffer file in
     let* workbook := call "XLSX.read" (XLSX_read data) in
     let sheetName := SheetNames workbook !! 0 in
     let worksheet := Sheets workbook !! default "undefined" sheetName in
     let* html := call "XLSX.utils.sheet_to_html" (XLSX_sheet_to_html worksheet) in
     embedHtmlAsImage html)
    (λ e,
     console_error ("Could not process Excel file: " +:+ name file) e;;;
     let* page := addPage in
     let* h := getHeight page in
     drawText page ("Could not load Excel file: " +:+ name file) (noticeOptions h)).

(** The final [else]. *)
Definition otherBranch (file : File) : M unit :=
  let* page := addPage in
  let* h := getHeight page in
  drawText page ("Unsupported file: " +:+ name file) (noticeOptions h).

(** The body of the loop after the progress call: the dispatch. *)
Definition processFile (file : File) : M unit :=
  let fileType := type file in
  let fileName := toLowerCase (name file) in
  if startsWith fileType "image/" then imageBranch file
  else if bool_decide (fileType = "application/pdf") then pdfBranch file
  else if bool_decide (fileType = docxType) || endsWith fileName ".docx" then wordBranch file
  else if bool_decide (fileType = xlsxType) || endsWith fileName ".xlsx" then excelBranch file
  else otherBranch file.

Definition mergeFilesToPdf (files : list File)
    (onProgress : option (string → AppState → AppState)) : M (list PDFPage) :=
  create;;;
  forOf files (λ file, notify onProgress (name file);;; processFile file);;;
  save.

End Service.

(** ** What the specification says a file contributes

    These definitions follow the words of the specification (its dispatch
    table and its scaling rule); the theorems below compare them with the
    code above. *)

Section Specification.
Context `{Host}.

(** The closed input kind of the design notes, resolved from the declared
    media type first and from the lower-cased file name second. *)
Inductive Kind := KImage | KPdf | KWord | KExcel | KOther.

Definition kindOf (file : File) : Kind :=
  if startsWith (type file) "image/" then KImage
  else if bool_decide (type file = "application/pdf") then KPdf
  else if bool_decide (type file = docxType)
          || endsWith (toLowerCase (name file)) ".docx" then KWord
  else if bool_decide (type file = xlsxType)
          || endsWith (toLowerCase (name file)) ".xlsx" then KExcel
  else KOther.

(** The scaling rule: [scale = min(pageWidth/imageWidth, pageHeight/imageHeight)],
    the image drawn at its size times [scale], centred on the page. *)
Definition fitScale (page image : Size num) : num :=
  nmin (ndiv (width page) (width image)) (ndiv (height page) (height image)).

Definition fit (page image : Size num) : ImageOptions :=
  let s := fitScale page image in
  {| i_x := ndiv (nsub (width page) (nmul (width image) s)) (lit 2);
     i_y := ndiv (nsub (height page) (nmul (height image) s)) (lit 2);
     i_width := nmul (width image) s;
     i_height := nmul (height image) s |}.

(** A page that shows one bitmap, fitted. *)
Definition imagePage (image : PDFImage) : PDFPage :=
  draw (DrawImage image (fit defaultPageSize (PDFImage_scale image (lit 1)))) newPage.

(** A placeholder page: a new page that carries only a notice. *)
Definition placeholder (text : string) : PDFPage :=
  draw (DrawText text (noticeOptions (height defaultPageSize))) newPage.

(** The element that is handed to the renderer for a given HTML string. *)
Definition containerFor (htmlContent : string) : Element :=
  {| tagName := "div";
     style := <["direction" := "ltr"]> (<["boxSizing" := "border-box"]>
              (<["backgroundColor" := "white"]> (<["padding" := "1in"]>
              (<["width" := "8.5in"]> (<["left" := "-9999px"]>
              (<["position" := "absolute"]> ∅))))));
     innerHTML := (outerHTML {| tagName := "style"; style := ∅; innerHTML := pageCss |}
                   +:+ "") +:+ htmlContent |}.

Definition renderOptions (el : Element) : H2COptions num :=
  {| opt_scale := lit 2; opt_useCORS := true; opt_logging := false;
     opt_windowWidth := scrollWidth el; opt_windowHeight := scrollHeight el |}.

Definition andThen {A B} (r : Result A) (k : A → Result B) : Result B :=
  match r with Ok a => k a | Throw e => Throw e end.

(** Rasterisation: render, encode as JPEG, read the bytes back, embed. *)
Definition rasterize (htmlContent : string) : Result PDFImage :=
  let el := containerFor htmlContent in
  andThen (html2canvas el (renderOptions el)) (λ canvas,
  andThen (canvas_toDataURL canvas "image/jpeg" (lit 0.9)) (λ url,
  andThen (fetch_arrayBuffer url) embedJpg)).

(** The one page a rasterised HTML string becomes. *)
Definition htmlPage (htmlContent : string) : PDFPage :=
  match rasterize htmlContent with
  | Ok image => imagePage image
  | Throw _ => placeholder "Failed to render Office document"
  end.

(** The HTML of the first sheet of a workbook. *)
Definition firstSheetHtml (workbook : Workbook Worksheet) : Result string :=
  XLSX_sheet_to_html
    (Sheets workbook !! default "undefined" (SheetNames workbook !! 0)).

(** A notice of [mergeFilesToPdf], drawn on a page just added: the page is
    the placeholder with that notice when the standard font can encode the
    text; when it cannot, the page stays blank and the exception of
    [drawText] escapes. *)
Definition noticed (text : string) : list PDFPage * option Exn :=
  match encodeText text with
  | Ok _ => ([placeholder text], None)
  | Throw e => ([newPage], Some e)
  end.

(** The pages a file adds to the document, and the exception, if any, that
    its processing lets escape. *)
Definition contribution (file : File) : list PDFPage * option Exn :=
  match kindOf file with
  | KImage =>
      if bool_decide (type file = "image/jpeg") then
        match embedJpg (content file) with
        | Ok image => ([imagePage image], None)
        | Throw e => ([newPage], Some e)
        end
      else if bool_decide (type file = "image/png") then
        match embedPng (content file) with
        | Ok image => ([imagePage image], None)
        | Throw e => ([newPage], Some e)
        end
      else noticed ("Unsupported image: " +:+ name file)
  | KPdf =>
      match PDFDocument_load (content file) with
      | Ok donor => (copyOf <$> donor, None)
      | Throw _ => noticed ("Could not load PDF: " +:+ name file)
      end
  | KWord =>
      match mammoth_convertToHtml (content file) with
      | Ok html => ([htmlPage html], None)
      | Throw _ => noticed ("Could not load Word file: " +:+ name file)
      end
  | KExcel =>
      match andThen (XLSX_read (content file)) firstSheetHtml with
      | Ok html => ([htmlPage html], None)
      | Throw _ => noticed ("Could not load Excel file: " +:+ name file)
      end
  | KOther => noticed ("Unsupported file: " +:+ name file)
  end.

Definition isProgress (e : Event) : bool :=
  match e with EvProgress _ => true | _ => false end.

(** How the processing of a file ends. *)
Definition escaped (e : option Exn) : Result unit :=
  match e with None => Ok tt | Some e => Throw e end.

(** An outcome [x] of running a file from the world [w] that agrees with
    the contribution [c]: it ends as [c] says, has appended the pages of [c]
    to the document, has left the caller's state alone, and has done
    something, but has not called the progress callback. *)
Definition advances (w : World) (c : list PDFPage * option Exn)
    (x : Result unit * World) : Prop :=
  x.1 = escaped c.2 ∧
  doc x.2 = doc w ++ c.1 ∧
  caller x.2 = caller w ∧
  ∃ evs, trace x.2 = trace w ++ evs ∧ evs ≠ [] ∧
         Forall (λ e, isProgress e = false) evs.

(** The pages the specification counts for a file: the page count of the
    source for a PDF that parses, one for every other file. *)
Definition pageCount (file : File) : nat :=
  match kindOf file with
  | KPdf =>
      match PDFDocument_load (content file) with
      | Ok donor => length donor
      | Throw _ => 1
      end
  | _ => 1
  end.

(** The pages the specification lets a file have in the output: the pages
    of that file, which are the pages of the source, in the order of the
    source, for a PDF that parses, and one page made by this code for every
    other file. *)
Definition contributes (file : File) (run : list PDFPage) : Prop :=
  run = (contribution file).1 ∧
  match kindOf file, PDFDocument_load (content file) with
  | KPdf, Ok donor => run = copyOf <$> donor
  | _, _ => ∃ page, run = [page] ∧ origin page = None
  end.

(** The files the loop gets to: those before the first file whose processing
    lets an exception escape, and that file; with the exception. *)
Fixpoint completed (files : list File) : list File * option Exn :=
  match files with
  | [] => ([], None)
  | file :: rest =>
      match (contribution file).2 with
      | Some e => ([file], Some e)
      | None => let '(reached, e) := completed rest in (file :: reached, e)
      end
  end.

(** *** The trace *)

(** The call of the progress callback for a file: the event, and what it
    does to the caller's state. *)
Definition progressEvents (onProgress : option (string → AppState → AppState))
    (file : File) : list Event :=
  match onProgress with
  | Some _ => [EvProgress (name file)]
  | None => []
  end.

Definition announce (onProgress : option (string → AppState → AppState))
    (seen : AppState) (file : File) : AppState :=
  match onProgress with
  | Some callback => callback (name file) seen
  | None => seen
  end.

(** [seg] is what the processing of [file] added to the trace, from some
    world: something, and no call of the progress callback. *)
Definition processing (file : File) (seg : list Event) : Prop :=
  seg ≠ [] ∧
  Forall (λ e, isProgress e = false) seg ∧
  ∃ w, trace (processFile file w).2 = trace w ++ seg.

(** The trace of a loop over [files] whose processing left [segs]: for each
    file in turn the progress call, then its processing. *)
Definition interleave (onProgress : option (string → AppState → AppState))
    (files : list File) (segs : list (list Event)) : list Event :=
  concat (zip_with (λ file seg, progressEvents onProgress file ++ seg) files segs).

(** What ends the run of the loop ends the call; a loop that ends normally
    is followed by [save]. *)
Definition ending (e : option Exn) : list Event :=
  match e with None => [EvCall "save"] | Some _ => [] end.

(** The pages of the files, file after file. *)
Definition pagesOf (files : list File) : list PDFPage :=
  concat ((λ file, (contribution file).1) <$> files).

(** The document that is returned for the pages that were added: those
    pages, or one blank page when there are none. *)
Definition saved (pages : list PDFPage) : list PDFPage :=
  match pages with
  | [] => [newPage]
  | _ :: _ => pages
  end.

(** The names the progress callback was called with, in order. *)
Definition announced (t : list Event) : list string :=
  omap (λ e, match e with EvProgress fileName => Some fileName | _ => None end) t.

(** An event that touches neither the renderer nor the children of
    [document.body]. *)
Definition quiet (e : Event) : bool :=
  match e with
  | EvCall _ | EvConsoleError _ _ => true
  | EvProgress _ | EvAppendChild _ | EvRemoveChild _ | EvRender _ _ _ => false
  end.

Definition failedRenderEvents (error : Exn) : list Event :=
  [EvConsoleError "Error converting HTML to canvas:" error;
   EvCall "addPage"; EvCall "drawText"].

(** What [embedHtmlAsImage] does between attaching the container and
    removing it, after the call of the renderer. *)
Definition rasterEvents (htmlContent : string) : list Event :=
  let el := containerFor htmlContent in
  match html2canvas el (renderOptions el) with
  | Throw e => failedRenderEvents e
  | Ok canvas =>
      EvCall "canvas.toDataURL" ::
      match canvas_toDataURL canvas "image/jpeg" (lit 0.9) with
      | Throw e => failedRenderEvents e
      | Ok url =>
          EvCall "fetch" ::
          match fetch_arrayBuffer url with
          | Throw e => failedRenderEvents e
          | Ok bytes =>
              EvCall "embedJpg" ::
              match embedJpg bytes with
              | Throw e => failedRenderEvents e
              | Ok _ => [EvCall "addPage"; EvCall "drawImage"]
              end
          end
      end
  end.

Definition htmlEvents (container : nat) (htmlContent : string) : list Event :=
  let el := containerFor htmlContent in
  [EvAppendChild container; EvRender container el (renderOptions el)]
  ++ rasterEvents htmlContent ++ [EvRemoveChild container].

(** *** Notices *)

(** [text.includes(part)] *)
Fixpoint includes (text part : string) : bool :=
  String.prefix part text ||
  match text with
  | EmptyString => false
  | String _ rest => includes rest part
  end.

(** The three kinds of failure of the error-handling design, the third
    split in two: the conversion to HTML and the rasterisation of the HTML.
    A JPEG or PNG that does not decode is not among them. *)
Inductive Failure :=
| UnsupportedKind | CorruptSource | ConversionFailed | RasterizationFailed.

Definition officeFailure (html : Result string) : option Failure :=
  match html with
  | Throw _ => Some ConversionFailed
  | Ok h =>
      match rasterize h with
      | Throw _ => Some RasterizationFailed
      | Ok _ => None
      end
  end.

Definition failureOf (file : File) : option Failure :=
  match kindOf file with
  | KImage =>
      if bool_decide (type file = "image/jpeg") || bool_decide (type file = "image/png")
      then None
      else Some UnsupportedKind
  | KPdf =>
      match PDFDocument_load (content file) with
      | Throw _ => Some CorruptSource
      | Ok _ => None
      end
  | KWord => officeFailure (mammoth_convertToHtml (content file))
  | KExcel => officeFailure (andThen (XLSX_read (content file)) firstSheetHtml)
  | KOther => Some UnsupportedKind
  end.

(** The notice of [mergeFilesToPdf] for a file of each kind. *)
Definition noticeOf (file : File) : string :=
  match kindOf file with
  | KImage => "Unsupported image: " +:+ name file
  | KPdf => "Could not load PDF: " +:+ name file
  | KWord => "Could not load Word file: " +:+ name file
  | KExcel => "Could not load Excel file: " +:+ name file
  | KOther => "Unsupported file: " +:+ name file
  end.

(** The notice on the placeholder of a failed file. *)
Definition placeholderText (file : File) (failure : Failure) : string :=
  match failure with
  | RasterizationFailed => "Failed to render Office document"
  | _ => noticeOf file
  end.

(** The notices written on a page. *)
Definition notices (page : PDFPage) : list string :=
  omap (λ op, match op with DrawText text _ => Some text | DrawImage _ _ => None end)
       (ops page).

(** A page drawn by this code shows its bitmaps by the scaling rule. *)
Definition fitted (page : PDFPage) : Prop :=
  ∀ image options, DrawImage image options ∈ ops page →
    options = fit (pageSize page) (PDFImage_scale image (lit 1)).

End Specification.

(** ** A small concrete host, to run the code on

    Numbers are rationals. A JPEG is recognised by its first two bytes and
    carries its width and height in the next two; a PNG likewise; a PDF is
    the four bytes of its header followed by one byte per page; an Office
    file is a zip archive whose remaining bytes are the text of the
    document; the renderer refuses HTML that contains an [<iframe>]; the
    standard font encodes printable ASCII and nothing else. *)

Module Toy.

Definition byteQ (b : Byte.byte) : Q := inject_Z (Z.of_N (Byte.to_N b)).

(** The bytes after a signature, if the bytes start with it. *)
Fixpoint strip (signature bytes : Bytes) : option Bytes :=
  match signature, bytes with
  | [], _ => Some bytes
  | s :: signature', b :: bytes' =>
      if Byte.eqb s b then strip signature' bytes' else None
  | _ :: _, [] => None
  end.

Definition image (signature bytes : Bytes) (what : Exn) : Result (Size Q) :=
  match strip signature bytes with
  | Some (w :: h :: _) => Ok {| width := byteQ w; height := byteQ h |}
  | _ => Throw what
  end.

Definition load (bytes : Bytes) : Result (list Byte.byte) :=
  match strip [Byte.x25; Byte.x50; Byte.x44; Byte.x46] bytes with
  | Some pages => Ok pages
  | None => Throw "Error: No PDF header found"
  end.

Definition unzip (bytes : Bytes) : Result string :=
  match strip [Byte.x50; Byte.x4b] bytes with
  | Some text => Ok (String.string_of_list_byte text)
  | None => Throw "Error: Can't find end of central directory"
  end.

Definition letter : Size Q := {| width := 612%Q; height := 792%Q |}.

Definition host (createOk : bool) : Host := {|
  num := Q;
  lit := id;
  ndiv := Qdiv;
  nmul := Qmult;
  nsub := Qminus;
  nmin := Qmin;
  PDFDocument_create :=
    if createOk then Ok tt else Throw "TypeError: PDFLib is undefined";
  defaultPageSize := letter;
  PDFImage := Size Q;
  PDFImage_scale := λ image k,
    {| width := Qmult (width image) k; height := Qmult (height image) k |};
  embedJpg := λ bytes, image [Byte.xff; Byte.xd8] bytes "Error: SOI not found in JPEG";
  embedPng := λ bytes, image [Byte.x89; Byte.x50] bytes "Error: not a PNG file";
  standardFont_encodes := λ _, false;
  DonorPage := Byte.byte;
  DonorPage_size := λ _, letter;
  PDFDocument_load := load;
  mammoth_convertToHtml := λ bytes,
    match unzip bytes with Ok text => Ok ("<p>" +:+ text +:+ "</p>") | Throw e => Throw e end;
  Worksheet := string;
  XLSX_read := λ bytes,
    match unzip bytes with
    | Ok text => Ok {| SheetNames := ["Sheet1"]; Sheets := {["Sheet1" := text]} |}
    | Throw e => Throw e
    end;
  XLSX_sheet_to_html := λ sheet,
    match sheet with
    | Some text => Ok ("<table><tr><td>" +:+ text +:+ "</td></tr></table>")
    | None => Throw "TypeError: sheet is undefined"
    end;
  Canvas := Size Q;
  scrollWidth := λ _, 816%Q;
  scrollHeight := λ _, 1056%Q;
  html2canvas := λ el options,
    if includes (innerHTML el) "<iframe>"
    then Throw "SecurityError: tainted canvas"
    else Ok {| width := Qmult (opt_windowWidth options) (opt_scale options);
               height := Qmult (opt_windowHeight options) (opt_scale options) |};
  canvas_toDataURL := λ _ _ _, Ok "data:image/jpeg;base64,/9j/";
  fetch_arrayBuffer := λ _, Ok [Byte.xff; Byte.xd8; Byte.x66; Byte.x84];
  AppState := list string;
|}.

(** The caller's callback: remember every name that was announced. *)
Definition remember (fileName : string) (seen : list string) : list string :=
  seen ++ [fileName].

(** The world before the first call: no document, an empty body. *)
Definition start (createOk : bool) : @World (host createOk) :=
  @Build_World (host createOk) [] ∅ 0 [] [] [].

Definition png : File :=
  {| name := "a.png"; type := "image/png";
     content := [Byte.x89; Byte.x50; Byte.x32; Byte.x32] |}.
Definition badJpg : File :=
  {| name := "bad.jpg"; type := "image/jpeg"; content := [Byte.xff] |}.
Definition gif : File :=
  {| name := "c.gif"; type := "image/gif"; content := [Byte.x47; Byte.x49; Byte.x46] |}.
Definition pdf2 : File :=
  {| name := "b.pdf"; type := "application/pdf";
     content := [Byte.x25; Byte.x50; Byte.x44; Byte.x46; Byte.x01; Byte.x02] |}.
Definition badPdf : File :=
  {| name := "bad.pdf"; type := "application/pdf"; content := [Byte.x25; Byte.x50] |}.
Definition docx : File :=
  {| name := "Report.DOCX"; type := "";
     content := [Byte.x50; Byte.x4b; Byte.x68; Byte.x69] |}.
Definition framedDocx : File :=
  {| name := "framed.docx"; type := docxType;
     content := Byte.x50 :: Byte.x4b :: String.list_byte_of_string "<iframe>" |}.
Definition xlsx : File :=
  {| name := "t.xlsx"; type := xlsxType;
     content := [Byte.x50; Byte.x4b; Byte.x31] |}.
Definition txt : File :=
  {| name := "notes.txt"; type := "text/plain"; content := [] |}.

(** A PDF without pages. *)
Definition emptyPdf : File :=
  {| name := "cover.pdf"; type := "application/pdf";
     content := [Byte.x25; Byte.x50; Byte.x44; Byte.x46] |}.

(** Files with a name in Arabic letters, which the standard font does not
    have: a GIF and a truncated PDF. *)
Definition arabicGif : File :=
  {| name := "صورة.gif"; type := "image/gif";
     content := [Byte.x47; Byte.x49; Byte.x46] |}.
Definition arabicPdf : File :=
  {| name := "تقرير.pdf"; type := "application/pdf";
     content := [Byte.x25; Byte.x50] |}.

(** Files whose name and declared type disagree. *)
Definition scanDocx : File :=
  {| name := "scan.docx"; type := "image/png";
     content := [Byte.x89; Byte.x50; Byte.x32; Byte.x32] |}.
Definition formXlsx : File :=
  {| name := "form.xlsx"; type := "application/pdf";
     content := [Byte.x25; Byte.x50; Byte.x44; Byte.x46; Byte.x01] |}.
Definition sheetXLSX : File :=
  {| name := "Sheet.XLSX"; type := "application/octet-stream";
     content := [Byte.x50; Byte.x4b; Byte.x31] |}.

(** The decoded [a.png], and how it must sit on a letter page: 50 by 50
    scaled by 612/50, at the left edge, 90 above the bottom. *)
Definition pngImage : Size Q := {| width := 50%Q; height := 50%Q |}.
Definition pngOptions : @ImageOptions (host true) :=
  @Build_ImageOptions (host true) (0 # 100)%Q (9000 # 100)%Q (30600 # 50)%Q (30600 # 50)%Q.
Definition pngPage : @PDFPage (host true) :=
  @Build_PDFPage (host true) None letter
    [@DrawImage (host true) pngImage pngOptions].

(** Batches to run. *)
Definition batch : list File := [png; pdf2; badPdf; gif; docx; framedDocx; xlsx; txt].
Definition brokenBatch : list File := [png; badJpg; txt].
Definition arabicGifBatch : list File := [png; arabicGif; txt].
Definition arabicPdfBatch : list File := [png; arabicPdf; txt].

Definition run (createOk : bool) (files : list File) :=
  @mergeFilesToPdf (host createOk) files (Some remember) (start createOk).

(** The document a run returned, and the world it left. *)
Definition merged (createOk : bool) (files : list File) : list (@PDFPage (host createOk)) :=
  match (run createOk files).1 with Ok pages => pages | Throw _ => [] end.
Definition left (createOk : bool) (files : list File) : @World (host createOk) :=
  (run createOk files).2.

End Toy.

(** * The rest of the application

    The components around the pipeline: the file list of [App], the card
    that shows a file, the page organizer and the chat. React state is a
    record; a handler is a function from the state at the time of the event
    to the state after it. For the chat, whose view changes while a handler
    waits, the parts of a handler between its [await]s are functions of
    their own, and the requests that are awaited are part of the
    component. *)

(** ** JavaScript arrays *)

Module JsArray.
Section Array.
Context {A : Type}.

(** [a.find(p)]: the first element that satisfies [p]. *)
Definition find (P : A → Prop) `{∀ x, Decision (P x)} (a : list A) : option A :=
  head (filter P a).

(** [a.some(p)] *)
Definition some (P : A → Prop) `{∀ x, Decision (P x)} (a : list A) : bool :=
  bool_decide (Exists P a).

(** [a.findIndex(p)]: the index of the first element that satisfies [p],
    [-1] if there is none. *)
Fixpoint findIndexFrom (P : A → Prop) `{∀ x, Decision (P x)} (i : Z) (a : list A) : Z :=
  match a with
  | [] => (-1)%Z
  | x :: a' => if decide (P x) then i else findIndexFrom P (i + 1)%Z a'
  end.
Definition findIndex (P : A → Prop) `{∀ x, Decision (P x)} (a : list A) : Z :=
  findIndexFrom P 0%Z a.

(** The start of [splice] and [slice]: a negative index counts from the
    end, and the result is clamped to the array. *)
Definition relativeStart (len : nat) (start : Z) : nat :=
  if (start <? 0)%Z then Z.to_nat (Z.max (Z.of_nat len + start) 0)
  else Nat.min (Z.to_nat start) len.

(** [a.splice(start, deleteCount, ...items)]: the removed elements, and the
    array afterwards. *)
Definition splice (start : Z) (deleteCount : nat) (items : list A) (a : list A)
    : list A * list A :=
  let k := relativeStart (length a) start in
  let n := Nat.min deleteCount (length a - k) in
  (take n (drop k a), take k a ++ items ++ drop (k + n) a).

(** [a.sort(compare)]. For a consistent comparator the language fixes the
    result: the stable sorted arrangement, which insertion from the right
    computes ([x] goes before the first [y] with [compare(x, y) <= 0]). *)
Fixpoint insertSorted (compare : A → A → Z) (x : A) (a : list A) : list A :=
  match a with
  | [] => [x]
  | y :: a' =>
      if (compare x y <=? 0)%Z then x :: a else y :: insertSorted compare x a'
  end.
Definition sort (compare : A → A → Z) (a : list A) : list A :=
  foldr (insertSorted compare) [] a.

(** The order a comparator puts two elements in, and the least that makes
    a comparator usable: of two elements it puts one before the other. *)
Definition before (compare : A → A → Z) (x y : A) : Prop := (compare x y ≤ 0)%Z.
Definition decisive (compare : A → A → Z) : Prop :=
  ∀ x y, (0 < compare x y)%Z → (compare y x ≤ 0)%Z.

End Array.
End JsArray.

(** ** The page around the pipeline *)

Section Page.
Context `{Host}.

(** The children of [document.body] are nodes that exist. *)
Definition attached (w : World) : Prop := Forall (λ c, c < nextNode w) (body w).

End Page.

(** ** [App]: the list of files to merge *)

Module App.

Inductive SortCriteria := ByName | BySize | ByDate.
Inductive SortOrder := Asc | Desc.
Inductive ActiveTab := Merger | Organizer | Ai.

(** A browser [File] with the timestamp that the pipeline does not read. *)
Record Upload := { blob : File; lastModified : Z }.

Definition fileName (f : Upload) : string := name (blob f).
Definition fileType (f : Upload) : string := type (blob f).
(** [file.size]: the number of bytes. *)
Definition size (f : Upload) : Z := Z.of_nat (length (content (blob f))).

(** The state of [App], one field for each [useState]. *)
Record State := {
  files : list Upload;
  firstPageFileName : option string;
  isLoading : bool;
  error : option string;
  pdfUrl : option string;
  sortCriteria : SortCriteria;
  sortOrder : SortOrder;
  draggedIndex : option nat;
  processingFileName : option string;
  activeTab : ActiveTab;
}.

(** [useState]'s initial values. *)
Definition initial : State :=
  {| files := []; firstPageFileName := None; isLoading := false; error := None;
     pdfUrl := None; sortCriteria := ByName; sortOrder := Asc;
     draggedIndex := None; processingFileName := None; activeTab := Merger |}.

Definition setFiles (v : list Upload) (st : State) : State :=
  {| files := v; firstPageFileName := firstPageFileName st;
     isLoading := isLoading st; error := error st; pdfUrl := pdfUrl st;
     sortCriteria := sortCriteria st; sortOrder := sortOrder st;
     draggedIndex := draggedIndex st;
     processingFileName := processingFileName st;
     activeTab := activeTab st |}.
Definition setFirstPageFileName (v : option string) (st : State) : State :=
  {| files := files st; firstPageFileName := v; isLoading := isLoading st;
     error := error st; pdfUrl := pdfUrl st; sortCriteria := sortCriteria st;
     sortOrder := sortOrder st; draggedIndex := draggedIndex st;
     processingFileName := processingFileName st;
     activeTab := activeTab st |}.
Definition setIsLoading (v : bool) (st : State) : State :=
  {| files := files st; firstPageFileName := firstPageFileName st;
     isLoading := v; error := error st; pdfUrl := pdfUrl st;
     sortCriteria := sortCriteria st; sortOrder := sortOrder st;
     draggedIndex := draggedIndex st;
     processingFileName := processingFileName st;
     activeTab := activeTab st |}.
Definition setError (v : option string) (st : State) : State :=
  {| files := files st; firstPageFileName := firstPageFileName st;
     isLoading := isLoading st; error := v; pdfUrl := pdfUrl st;
     sortCriteria := sortCriteria st; sortOrder := sortOrder st;
     draggedIndex := draggedIndex st;
     processingFileName := processingFileName st;
     activeTab := activeTab st |}.
Definition setPdfUrl (v : option string) (st : State) : State :=
  {| files := files st; firstPageFileName := firstPageFileName st;
     isLoading := isLoading st; error := error st; pdfUrl := v;
     sortCriteria := sortCriteria st; sortOrder := sortOrder st;
     draggedIndex := draggedIndex st;
     processingFileName := processingFileName st;
     activeTab := activeTab st |}.
Definition setSortCriteria (v : SortCriteria) (st : State) : State :=
  {| files := files st; firstPageFileName := firstPageFileName st;
     isLoading := isLoading st; error := error st; pdfUrl := pdfUrl st;
     sortCriteria := v; sortOrder := sortOrder st;
     draggedIndex := draggedIndex st;
     processingFileName := processingFileName st;
     activeTab := activeTab st |}.
Definition setSortOrder (v : SortOrder) (st : State) : State :=
  {| files := files st; firstPageFileName := firstPageFileName st;
     isLoading := isLoading st; error := error st; pdfUrl := pdfUrl st;
     sortCriteria := sortCriteria st; sortOrder := v;
     draggedIndex := draggedIndex st;
     processingFileName := processingFileName st;
     activeTab := activeTab st |}.
Definition setDraggedIndex (v : option nat) (st : State) : State :=
  {| files := files st; firstPageFileName := firstPageFileName st;
     isLoading := isLoading st; error := error st; pdfUrl := pdfUrl st;
     sortCriteria := sortCriteria st; sortOrder := sortOrder st;
     draggedIndex := v; processingFileName := processingFileName st;
     activeTab := activeTab st |}.
Definition setProcessingFileName (v : option string) (st : State) : State :=
  {| files := files st; firstPageFileName := firstPageFileName st;
     isLoading := isLoading st; error := error st; pdfUrl := pdfUrl st;
     sortCriteria := sortCriteria st; sortOrder := sortOrder st;
     draggedIndex := draggedIndex st; processingFileName := v;
     activeTab := activeTab st |}.
Definition setActiveTab (v : ActiveTab) (st : State) : State :=
  {| files := files st; firstPageFileName := firstPageFileName st;
     isLoading := isLoading st; error := error st; pdfUrl := pdfUrl st;
     sortCriteria := sortCriteria st; sortOrder := sortOrder st;
     draggedIndex := draggedIndex st;
     processingFileName := processingFileName st; activeTab := v |}.

(** A [string | null] used as a condition: [null] and [""] are falsy. *)
Definition truthy (s : option string) : bool :=
  match s with
  | Some s => bool_decide (s ≠ "")
  | None => false
  end.

(** [handleFilesSelected]: append the selected files that no listed file
    matches in name and size. *)
Definition handleFilesSelected (selectedFiles : list Upload) (st : State) : State :=
  let prevFiles := files st in
  let newFiles :=
    filter (λ sf, ¬ Exists (λ pf, fileName pf = fileName sf ∧ size pf = size sf)
                           prevFiles) selectedFiles in
  setPdfUrl None (setError None (setFiles (prevFiles ++ newFiles) st)).

Section Sorting.
(** [a.localeCompare(b)], of the host's collation. *)
Variable localeCompare : string → string → Z.

(** The comparator of [sortFiles]. *)
Definition comparator (criteria : SortCriteria) (order : SortOrder) (a b : Upload) : Z :=
  let comparison :=
    match criteria with
    | BySize => (size a - size b)%Z
    | ByDate => (lastModified a - lastModified b)%Z
    | ByName => localeCompare (fileName a) (fileName b)
    end in
  match order with Asc => comparison | Desc => (- comparison)%Z end.

Definition sortFiles (criteria : SortCriteria) (order : SortOrder)
    (currentFiles : list Upload) (pinnedFileName : option string) : list Upload :=
  let firstFile :=
    if truthy pinnedFileName
    then JsArray.find (λ f, Some (fileName f) = pinnedFileName) currentFiles
    else None in
  let filesToSort :=
    match firstFile with
    | Some _ => filter (λ f, Some (fileName f) ≠ pinnedFileName) currentFiles
    | None => currentFiles
    end in
  let sorted := JsArray.sort (comparator criteria order) filesToSort in
  match firstFile with
  | Some firstFile => firstFile :: sorted
  | None => sorted
  end.

(** What [sortFiles] keeps in front, and what it sorts: the first file that
    bears the pinned name, and the files that do not bear it (every file,
    when no file is kept in front). *)
Definition pinnedPart (pinnedFileName : option string) (currentFiles : list Upload)
    : list Upload :=
  if truthy pinnedFileName
  then take 1 (filter (λ f, Some (fileName f) = pinnedFileName) currentFiles)
  else [].
Definition sortedPart (pinnedFileName : option string) (currentFiles : list Upload)
    : list Upload :=
  match pinnedPart pinnedFileName currentFiles with
  | [] => currentFiles
  | _ :: _ => filter (λ f, Some (fileName f) ≠ pinnedFileName) currentFiles
  end.

(** A collation that answers the same whichever name comes first. *)
Definition consistent : Prop :=
  ∀ a b, Z.sgn (localeCompare b a) = (- Z.sgn (localeCompare a b))%Z.

Definition handleSortCriteriaChange (criteria : SortCriteria) (st : State) : State :=
  let newSortedFiles := sortFiles criteria (sortOrder st) (files st) (firstPageFileName st) in
  setFiles newSortedFiles (setSortCriteria criteria st).

Definition handleSortOrderChange (st : State) : State :=
  let newOrder := match sortOrder st with Asc => Desc | Desc => Asc end in
  let newSortedFiles := sortFiles (sortCriteria st) newOrder (files st) (firstPageFileName st) in
  setFiles newSortedFiles (setSortOrder newOrder st).

Definition handleRemoveFile (fileName' : string) (st : State) : State :=
  let st' := setFiles (filter (λ file, fileName file ≠ fileName') (files st)) st in
  if bool_decide (Some fileName' = firstPageFileName st)
  then setFirstPageFileName None st'
  else st'.

Definition handleSetFirstPage (fileName' : string) (st : State) : State :=
  if bool_decide (Some fileName' = firstPageFileName st) then
    setFiles (sortFiles (sortCriteria st) (sortOrder st) (files st) None)
      (setFirstPageFileName None st)
  else
    let prevFiles := files st in
    setFiles
      match JsArray.find (λ f, fileName f = fileName') prevFiles with
      | None => prevFiles
      | Some fileToMove =>
          let remainingFiles := filter (λ f, fileName f ≠ fileName') prevFiles in
          fileToMove :: remainingFiles
      end
      (setFirstPageFileName (Some fileName') st).

(** The filter of [handlePaste]. *)
Definition pasteAccepts (file : Upload) : bool :=
  startsWith (fileType file) "image/"
  || bool_decide (fileType file = "application/pdf")
  || includes (fileType file) "word"
  || includes (fileType file) "sheet".

(** [handlePaste], for the files of the clipboard ([None] when
    [event.clipboardData?.files] is undefined). The second component tells
    whether [event.preventDefault()] was called. *)
Definition handlePaste (items : option (list Upload)) (st : State) : State * bool :=
  match activeTab st with
  | Merger =>
      match items with
      | Some items =>
          if bool_decide (0 < length items) then
            let pastedFiles := filter (λ file, pasteAccepts file = true) items in
            if bool_decide (0 < length pastedFiles)
            then (handleFilesSelected pastedFiles st, true)
            else (st, false)
          else (st, false)
      | None => (st, false)
      end
  | _ => (st, false)
  end.

Definition handleDragStart (index : nat) (st : State) : State :=
  setDraggedIndex (Some index) st.

(** [handleDragEnter]. When [draggedIndex] is not an index of the list,
    [files[draggedIndex]] is [undefined]: the handler then throws a
    [TypeError] (a file is pinned) or puts [undefined] into the list (none
    is); neither is a state of [App], and the result is [None]. *)
Definition handleDragEnter (index : nat) (st : State) : option State :=
  match draggedIndex st with
  | None => Some st
  | Some dragged =>
      if bool_decide (dragged = index) then Some st
      else if truthy (firstPageFileName st) && bool_decide (index = 0) then Some st
      else
        match files st !! dragged with
        | None => None
        | Some file =>
            if truthy (firstPageFileName st)
               && bool_decide (Some (fileName file) = firstPageFileName st)
            then Some st
            else
              let newFiles := files st in
              let '(removed, newFiles) :=
                JsArray.splice (Z.of_nat dragged) 1 [] newFiles in
              match removed !! 0 with
              | None => None
              | Some draggedItem =>
                  let '(_, newFiles) :=
                    JsArray.splice (Z.of_nat index) 0 [draggedItem] newFiles in
                  Some (setFiles newFiles (setDraggedIndex (Some index) st))
              end
        end
  end.

Definition handleDragEnd (st : State) : State := setDraggedIndex None st.

(** [handleReset]; it also revokes the object URL, which is no part of the
    state. *)
Definition handleReset (st : State) : State :=
  setIsLoading false (setError None (setPdfUrl None
    (setFirstPageFileName None (setFiles [] st)))).

(** What the user does to the list. *)
Inductive Action :=
| FilesSelected (selectedFiles : list Upload)
| Paste (items : option (list Upload))
| SortCriteriaChange (criteria : SortCriteria)
| SortOrderChange
| RemoveFile (fileName' : string)
| SetFirstPage (fileName' : string)
| DragStart (index : nat)
| DragEnter (index : nat)
| DragEnd
| Reset
| SwitchTab (tab : ActiveTab).

Definition step (action : Action) (st : State) : option State :=
  match action with
  | FilesSelected selectedFiles => Some (handleFilesSelected selectedFiles st)
  | Paste items => Some (handlePaste items st).1
  | SortCriteriaChange criteria => Some (handleSortCriteriaChange criteria st)
  | SortOrderChange => Some (handleSortOrderChange st)
  | RemoveFile fileName' => Some (handleRemoveFile fileName' st)
  | SetFirstPage fileName' => Some (handleSetFirstPage fileName' st)
  | DragStart index => Some (handleDragStart index st)
  | DragEnter index => handleDragEnter index st
  | DragEnd => Some (handleDragEnd st)
  | Reset => Some (handleReset st)
  | SwitchTab tab => Some (setActiveTab tab st)
  end.

(** The buttons of a card exist for a listed file, and a file has a name. *)
Definition offered (action : Action) (st : State) : Prop :=
  match action with
  | SetFirstPage fileName' =>
      fileName' ≠ "" ∧ ∃ f, f ∈ files st ∧ fileName f = fileName'
  | _ => True
  end.

(** The states the user can bring about. *)
Inductive reachable : State → Prop :=
| reachable_initial : reachable initial
| reachable_step action st st' :
    reachable st → offered action st → step action st = Some st' → reachable st'.

(** The pinned file, if any, is the first of the list. *)
Definition pinnedFirst (st : State) : Prop :=
  match firstPageFileName st with
  | Some pinned => pinned ≠ "" ∧ ∃ f rest, files st = f :: rest ∧ fileName f = pinned
  | None => True
  end.

End Sorting.

End App.

(** ** [handleMerge]: [App] calls the pipeline *)

Section HandleMerge.
Context (H : Host).

(** The host as [App] sees it: the caller's state is the state of [App]. *)
Definition appHost : Host :=
  @Build_Host (@num H) (@lit H) (@ndiv H) (@nmul H) (@nsub H) (@nmin H)
    (@PDFDocument_create H) (@defaultPageSize H)
    (@PDFImage H) (@PDFImage_scale H) (@embedJpg H) (@embedPng H)
    (@standardFont_encodes H)
    (@DonorPage H) (@DonorPage_size H) (@PDFDocument_load H)
    (@mammoth_convertToHtml H)
    (@Worksheet H) (@XLSX_read H) (@XLSX_sheet_to_html H)
    (@Canvas H) (@scrollWidth H) (@scrollHeight H) (@html2canvas H)
    (@canvas_toDataURL H) (@fetch_arrayBuffer H)
    App.State.

(** [URL.createObjectURL(new Blob([pdfBytes], ...))] *)
Variable createObjectURL : list (@PDFPage appHost) → string.

Definition noFileError : string := "الرجاء اختيار ملف واحد على الأقل.".
Definition mergeError : string :=
  "حدث خطأ غير متوقع أثناء دمج الملفات. يرجى التأكد من أن الملفات غير تالفة والمحاولة مرة أخرى.".

(** A call of one of [useState]'s setters. *)
Definition setState (f : App.State → App.State) : @M appHost unit :=
  @modify appHost (@with_caller appHost f).

(** [handleMerge], with the [files] of the render it was made in.
    [console.error(e)] has the exception alone. *)
Definition handleMerge : @M appHost unit :=
  let* st := @gets appHost _ caller in
  let files := App.files st in
  if bool_decide (length files = 0) then
    setState (App.setError (Some noFileError))
  else
    setState (App.setIsLoading true);;;
    setState (App.setError None);;;
    setState (App.setPdfUrl None);;;
    try_catch_finally
      (let* pdfBytes :=
         @mergeFilesToPdf appHost (App.blob <$> files)
           (Some (λ fileName, App.setProcessingFileName (Some fileName))) in
       let* url := call "URL.createObjectURL" (Ok (createObjectURL pdfBytes)) in
       setState (App.setPdfUrl (Some url)))
      (λ e,
       console_error "" e;;;
       setState (App.setError (Some mergeError)))
      (setState (App.setIsLoading false);;;
       setState (App.setProcessingFileName None)).

(** A file that the decoder of its declared type, if it is declared a JPEG
    or a PNG, accepts. *)
Definition decodes (file : File) : Prop :=
  (type file = "image/jpeg" → ∃ image, @embedJpg appHost (content file) = Ok image) ∧
  (type file = "image/png" → ∃ image, @embedPng appHost (content file) = Ok image).

End HandleMerge.

(** ** [FilePreviewCard]: the icon of a file *)

Module FilePreviewCard.

Inductive Icon := ImageIcon | PdfIcon | WordIcon | ExcelIcon | FileIcon.

Definition getFileIcon (file : File) : Icon :=
  let fileType := type file in
  let fileName := toLowerCase (name file) in
  if startsWith fileType "image/" then ImageIcon
  else if bool_decide (fileType = "application/pdf") then PdfIcon
  else if bool_decide
            (fileType = "application/vnd.openxmlformats-officedocument.wordprocessingml.document")
          || endsWith fileName ".docx" then WordIcon
  else if bool_decide
            (fileType = "application/vnd.openxmlformats-officedocument.spreadsheetml.sheet")
          || endsWith fileName ".xlsx" then ExcelIcon
  else FileIcon.

End FilePreviewCard.

(** ** [PdfOrganizer]: the pages of the loaded documents *)

Module PdfOrganizer.
Section Organizer.
Context `{Host}.

(** pdf.js: a loaded document ([PDFDocumentProxy]), the call that loads one,
    its page count and its bytes. *)
Context {Pdf : Type}.
Variable getDocument : Bytes → Result Pdf.
Variable numPages : Pdf → nat.
Variable getData : Pdf → Result Bytes.
(** [Date.now()], by the number of readings before. *)
Variable Date_now : nat → Z.
(** [URL.createObjectURL(new Blob([pdfBytes], ...))] *)
Variable createObjectURL : list (DonorPage * Z) → string.

Record PageInfo := {
  id : string;
  pdf : Pdf;
  pageNumber : Z;
  rotation : Z;
  originalFileIndex : nat;
}.

(** The state of [PdfOrganizer], one field for each [useState]. *)
Record State := {
  pages : list PageInfo;
  isLoading : bool;
  isSaving : bool;
  error : option string;
  pdfUrl : option string;
  draggedId : option string;
}.

Definition initial : State :=
  {| pages := []; isLoading := false; isSaving := false; error := None;
     pdfUrl := None; draggedId := None |}.

Definition setPages (v : list PageInfo) (st : State) : State :=
  {| pages := v; isLoading := isLoading st; isSaving := isSaving st;
     error := error st; pdfUrl := pdfUrl st; draggedId := draggedId st |}.
Definition setIsLoading (v : bool) (st : State) : State :=
  {| pages := pages st; isLoading := v; isSaving := isSaving st;
     error := error st; pdfUrl := pdfUrl st; draggedId := draggedId st |}.
Definition setIsSaving (v : bool) (st : State) : State :=
  {| pages := pages st; isLoading := isLoading st; isSaving := v;
     error := error st; pdfUrl := pdfUrl st; draggedId := draggedId st |}.
Definition setError (v : option string) (st : State) : State :=
  {| pages := pages st; isLoading := isLoading st; isSaving := isSaving st;
     error := v; pdfUrl := pdfUrl st; draggedId := draggedId st |}.
Definition setPdfUrl (v : option string) (st : State) : State :=
  {| pages := pages st; isLoading := isLoading st; isSaving := isSaving st;
     error := error st; pdfUrl := v; draggedId := draggedId st |}.
Definition setDraggedId (v : option string) (st : State) : State :=
  {| pages := pages st; isLoading := isLoading st; isSaving := isSaving st;
     error := error st; pdfUrl := pdfUrl st; draggedId := v |}.

Definition loadError : string :=
  "حدث خطأ أثناء معالجة ملفات PDF. تأكد من أنها ملفات صالحة.".
Definition saveError : string := "حدث خطأ أثناء حفظ الملف الجديد.".

(** *** [handleFilesSelected] *)

(** The inner loop: [for (let i = 1; i <= pdf.numPages; i++) newPages.push(...)],
    with [count] pages still to make. *)
Fixpoint pushPages (file : File) (fileIndex : nat) (pdf : Pdf) (i : nat) (count : nat)
    (newPages : list PageInfo) : list PageInfo :=
  match count with
  | 0 => newPages
  | S count =>
      pushPages file fileIndex pdf (S i) count
        (newPages ++
         [{| id := name file +:+ "-" +:+ pretty i +:+ "-"
                   +:+ pretty (Date_now (length newPages));
             pdf := pdf;
             pageNumber := Z.of_nat i;
             rotation := 0;
             originalFileIndex := fileIndex |}])
  end.

(** The outer loop: [for (const [fileIndex, file] of selectedFiles.entries())]. *)
Fixpoint loadFiles (fileIndex : nat) (selectedFiles : list File)
    (newPages : list PageInfo) : Result (list PageInfo) :=
  match selectedFiles with
  | [] => Ok newPages
  | file :: rest =>
      match getDocument (content file) with
      | Ok pdf =>
          loadFiles (S fileIndex) rest
            (pushPages file fileIndex pdf 1 (numPages pdf) newPages)
      | Throw e => Throw e
      end
  end.

Definition handleFilesSelected (selectedFiles : list File) (st : State) : State :=
  let st := setPages [] (setPdfUrl None (setError None (setIsLoading true st))) in
  setIsLoading false
    match loadFiles 0 selectedFiles [] with
    | Ok newPages => setPages newPages st
    | Throw e => setError (Some loadError) st
    end.

(** *** [handleSave] *)

(** One representative page for each source file, by ascending index. *)
Definition originalFiles (pages : list PageInfo) : list PageInfo :=
  JsArray.sort
    (λ a b, (Z.of_nat (originalFileIndex a) - Z.of_nat (originalFileIndex b))%Z)
    (foldl (λ acc page,
              if JsArray.some (λ p, originalFileIndex p = originalFileIndex page) acc
              then acc else acc ++ [page])
       [] pages).

(** The first loop: the sparse array [loadedOriginalDocs]. *)
Fixpoint loadOriginals (originalFiles : list PageInfo)
    (loadedOriginalDocs : gmap nat (list DonorPage)) : Result (gmap nat (list DonorPage)) :=
  match originalFiles with
  | [] => Ok loadedOriginalDocs
  | pageInfo :: rest =>
      match getData (pdf pageInfo) with
      | Ok arrayBuffer =>
          match PDFDocument_load arrayBuffer with
          | Ok doc =>
              loadOriginals rest (<[originalFileIndex pageInfo := doc]> loadedOriginalDocs)
          | Throw e => Throw e
          end
      | Throw e => Throw e
      end
  end.

(** [mergedPdfDoc.copyPages(sourceDoc, [index])]: reading the pages of an
    [undefined] document throws, and so does an index the document has not. *)
Definition copyPage (sourceDoc : option (list DonorPage)) (index : Z) : Result DonorPage :=
  match sourceDoc with
  | None => Throw "TypeError: sourceDoc is undefined"
  | Some doc =>
      if (index <? 0)%Z then Throw "Error: index out of range"
      else match doc !! Z.to_nat index with
           | Some page => Ok page
           | None => Throw "Error: index out of range"
           end
  end.

(** The second loop; a page of the output is a copied page with the
    rotation that was set on it ([setRotation] takes the quarter turns,
    which are the rotations that the component makes). *)
Fixpoint copyAll (pages : list PageInfo) (loadedOriginalDocs : gmap nat (list DonorPage))
    (mergedPdfDoc : list (DonorPage * Z)) : Result (list (DonorPage * Z)) :=
  match pages with
  | [] => Ok mergedPdfDoc
  | pageInfo :: rest =>
      let sourceDoc := loadedOriginalDocs !! originalFileIndex pageInfo in
      match copyPage sourceDoc (pageNumber pageInfo - 1) with
      | Ok copiedPage =>
          copyAll rest loadedOriginalDocs (mergedPdfDoc ++ [(copiedPage, rotation pageInfo)])
      | Throw e => Throw e
      end
  end.

(** The body of the [try]: the document that is saved. *)
Definition organize (pages : list PageInfo) : Result (list (DonorPage * Z)) :=
  match PDFDocument_create with
  | Ok _ =>
      match loadOriginals (originalFiles pages) ∅ with
      | Ok loadedOriginalDocs => copyAll pages loadedOriginalDocs []
      | Throw e => Throw e
      end
  | Throw e => Throw e
  end.

Definition handleSave (st : State) : State :=
  if bool_decide (length (pages st) = 0) then st
  else
    let st := setError None (setIsSaving true st) in
    setIsSaving false
      match organize (pages st) with
      | Ok pdfBytes => setPdfUrl (Some (createObjectURL pdfBytes)) st
      | Throw e => setError (Some saveError) st
      end.

(** *** The other handlers *)

(** [handleReset]; it also revokes the object URL, which is no part of the
    state. *)
Definition handleReset (st : State) : State :=
  setPdfUrl None (setError None (setPages [] st)).

Definition handleDragStart (id' : string) (st : State) : State :=
  setDraggedId (Some id') st.

(** [handleDragEnter]. On an empty list there is nothing to remove: the
    handler would put [undefined] among the pages, which is no state of the
    component, and the result is [None]. *)
Definition handleDragEnter (id' : string) (st : State) : option State :=
  match draggedId st with
  | None => Some st
  | Some dragged =>
      if bool_decide (dragged = id') then Some st
      else
        let draggedIndex := JsArray.findIndex (λ p, id p = dragged) (pages st) in
        let targetIndex := JsArray.findIndex (λ p, id p = id') (pages st) in
        let newPages := pages st in
        let '(removed, newPages) := JsArray.splice draggedIndex 1 [] newPages in
        match removed !! 0 with
        | None => None
        | Some draggedItem =>
            let '(_, newPages) := JsArray.splice targetIndex 0 [draggedItem] newPages in
            Some (setPages newPages st)
        end
  end.

Definition handleDragEnd (st : State) : State := setDraggedId None st.

Definition handleDeletePage (id' : string) (st : State) : State :=
  setPages (filter (λ page, id page ≠ id') (pages st)) st.

(** [{...page, rotation: (page.rotation + 90) % 360}] *)
Definition rotate (page : PageInfo) : PageInfo :=
  {| id := id page; pdf := pdf page; pageNumber := pageNumber page;
     rotation := Z.rem (rotation page + 90) 360;
     originalFileIndex := originalFileIndex page |}.

Definition handleRotatePage (id' : string) (st : State) : State :=
  setPages ((λ page, if bool_decide (id page = id') then rotate page else page)
            <$> pages st) st.

(** What the user does to the component. *)
Inductive Action :=
| FilesSelected (selectedFiles : list File)
| Save
| Reset
| DragStart (id' : string)
| DragEnter (id' : string)
| DragEnd
| DeletePage (id' : string)
| RotatePage (id' : string).

Definition step (action : Action) (st : State) : option State :=
  match action with
  | FilesSelected selectedFiles => Some (handleFilesSelected selectedFiles st)
  | Save => Some (handleSave st)
  | Reset => Some (handleReset st)
  | DragStart id' => Some (handleDragStart id' st)
  | DragEnter id' => handleDragEnter id' st
  | DragEnd => Some (handleDragEnd st)
  | DeletePage id' => Some (handleDeletePage id' st)
  | RotatePage id' => Some (handleRotatePage id' st)
  end.

Inductive reachable : State → Prop :=
| reachable_initial : reachable initial
| reachable_step action st st' :
    reachable st → step action st = Some st' → reachable st'.

(** A page as [handleFilesSelected] makes it and the handlers keep it: a
    quarter turn, and a page number of its document. *)
Definition wellFormed (page : PageInfo) : Prop :=
  rotation page ∈ [0; 90; 180; 270]%Z
  ∧ (1 ≤ pageNumber page ≤ Z.of_nat (numPages (pdf page)))%Z.

(** What a page shows: the document, the place of its file in the
    selection, the page number and the rotation. *)
Definition shown (page : PageInfo) : Pdf * nat * Z * Z :=
  (pdf page, originalFileIndex page, pageNumber page, rotation page).

(** The pages of loaded documents, for the files from [fileIndex] on: every
    page of every document, in order, not rotated. *)
Definition allPages (fileIndex : nat) (pdfs : list Pdf) : list (Pdf * nat * Z * Z) :=
  concat (imap (λ j pdf, (λ i, (pdf, fileIndex + j, Z.of_nat i, 0%Z))
                         <$> seq 1 (numPages pdf)) pdfs).

(** Where the saved document takes a page from: the document that pdf-lib
    loads from the data of the page's PDF, at the page number. *)
Definition sourceOf (page : PageInfo) (copied : DonorPage) : Prop :=
  ∃ bytes doc,
    getData (pdf page) = Ok bytes ∧ PDFDocument_load bytes = Ok doc
    ∧ (1 ≤ pageNumber page)%Z
    ∧ doc !! Z.to_nat (pageNumber page - 1) = Some copied.

(** Pages of one source file show one document. *)
Definition coherent (pages : list PageInfo) : Prop :=
  ∀ p q, p ∈ pages → q ∈ pages →
         originalFileIndex p = originalFileIndex q → pdf p = pdf q.

End Organizer.
End PdfOrganizer.

(** ** [AiChat]: the conversation about a document *)

Module AiChat.

(** [s.split(sep)] for a separator of one code unit. *)
Fixpoint split (sep : ascii) (s : string) : list string :=
  match s with
  | EmptyString => [EmptyString]
  | String c s' =>
      if Ascii.eqb c sep then EmptyString :: split sep s'
      else match split sep s' with
           | first :: rest => String c first :: rest
           | [] => [String c EmptyString]
           end
  end.

Inductive Role := User | Model.
Record Message := { role : Role; text : string }.

Section Chat.
(** The Gemini SDK: a chat session; [new GoogleGenAI(...)] followed by
    [ai.chats.create(...)] with the document as inline data; and
    [chat.sendMessage], which answers with [result.text] and leaves the
    session with a longer history. *)
Context {Chat : Type}.
Variable chats_create : option string → Result Chat.
Variable sendMessage : Chat → string → Result (option string) * Chat.
(** [FileReader.readAsDataURL], [String.prototype.trim] and the key
    selector of the host page, if it has one. *)
Variable readAsDataURL : File → Result string.
Variable trim : string → string.
Variable hasSelectedApiKey : option (Result bool).
Variable openSelectKey : option (Result unit).

(** The state of [AiChat], one field for each [useState]. *)
Record State := {
  file : option File;
  chatSession : option Chat;
  messages : list Message;
  input : string;
  isLoading : bool;
  isInitializing : bool;
  error : option string;
  hasApiKey : bool;
}.

Definition initial : State :=
  {| file := None; chatSession := None; messages := []; input := "";
     isLoading := false; isInitializing := false; error := None;
     hasApiKey := false |}.

Definition setFile (v : option File) (st : State) : State :=
  {| file := v; chatSession := chatSession st; messages := messages st;
     input := input st; isLoading := isLoading st;
     isInitializing := isInitializing st; error := error st;
     hasApiKey := hasApiKey st |}.
Definition setChatSession (v : option Chat) (st : State) : State :=
  {| file := file st; chatSession := v; messages := messages st;
     input := input st; isLoading := isLoading st;
     isInitializing := isInitializing st; error := error st;
     hasApiKey := hasApiKey st |}.
Definition setMessages (v : list Message) (st : State) : State :=
  {| file := file st; chatSession := chatSession st; messages := v;
     input := input st; isLoading := isLoading st;
     isInitializing := isInitializing st; error := error st;
     hasApiKey := hasApiKey st |}.
Definition setInput (v : string) (st : State) : State :=
  {| file := file st; chatSession := chatSession st; messages := messages st;
     input := v; isLoading := isLoading st;
     isInitializing := isInitializing st; error := error st;
     hasApiKey := hasApiKey st |}.
Definition setIsLoading (v : bool) (st : State) : State :=
  {| file := file st; chatSession := chatSession st; messages := messages st;
     input := input st; isLoading := v;
     isInitializing := isInitializing st; error := error st;
     hasApiKey := hasApiKey st |}.
Definition setIsInitializing (v : bool) (st : State) : State :=
  {| file := file st; chatSession := chatSession st; messages := messages st;
     input := input st; isLoading := isLoading st;
     isInitializing := v; error := error st;
     hasApiKey := hasApiKey st |}.
Definition setError (v : option string) (st : State) : State :=
  {| file := file st; chatSession := chatSession st; messages := messages st;
     input := input st; isLoading := isLoading st;
     isInitializing := isInitializing st; error := v;
     hasApiKey := hasApiKey st |}.
Definition setHasApiKey (v : bool) (st : State) : State :=
  {| file := file st; chatSession := chatSession st; messages := messages st;
     input := input st; isLoading := isLoading st;
     isInitializing := isInitializing st; error := error st;
     hasApiKey := v |}.

Definition pdfOnlyError : string := "الرجاء اختيار ملف PDF فقط.".
Definition initError : string :=
  "حدث خطأ أثناء تهيئة المحادثة. تأكد من صحة الملف أو مفتاح API.".
Definition greeting : string :=
  "مرحباً! لقد قمت بقراءة المستند. كيف يمكنني مساعدتك؟".
Definition apology : string := "عذراً، حدث خطأ أثناء معالجة طلبك.".

(** [checkApiKey], the effect of the first render. *)
Definition checkApiKey (st : State) : State :=
  match hasSelectedApiKey with
  | Some (Ok hasKey) => setHasApiKey hasKey st
  | Some (Throw _) => setHasApiKey true st
  | None => setHasApiKey true st
  end.

(** [handleConnectApiKey]; an exception goes to the console. *)
Definition handleConnectApiKey (st : State) : State :=
  match openSelectKey with
  | Some (Ok _) => setHasApiKey true st
  | Some (Throw _) => st
  | None => st
  end.

(** [convertFileToBase64]: what follows the first comma of the data URL, up
    to the next; [undefined] for a URL without a comma. *)
Definition convertFileToBase64 (file : File) : Result (option string) :=
  match readAsDataURL file with
  | Ok result => Ok (split "," result !! 1)
  | Throw error => Throw error
  end.

(** [handleFileSelected] awaits twice, and the component is rendered and
    takes other events while it waits; so it is given in the three parts
    that run without interruption. The first part, up to
    [await convertFileToBase64(selectedFile)]: the file whose reading was
    started, if any. *)
Definition handleFileSelected_begin (files : list File) (st : State)
    : State * option File :=
  match files with
  | [] => (st, None)
  | selectedFile :: _ =>
      if bool_decide (type selectedFile ≠ "application/pdf") then
        (setError (Some pdfOnlyError) st, None)
      else
        (setError None (setIsInitializing true (setFile (Some selectedFile) st)),
         Some selectedFile)
  end.

(** The [catch] and the [finally] of [handleFileSelected]; the exception
    goes to the console. *)
Definition handleFileSelected_failed (st : State) : State :=
  setIsInitializing false (setFile None (setError (Some initError) st)).

(** The session that [ai.chats.create] makes of the file that was read. *)
Definition createChat (selectedFile : File) : Result Chat :=
  match convertFileToBase64 selectedFile with
  | Ok base64Data => chats_create base64Data
  | Throw err => Throw err
  end.

(** The second part, from the end of the reading to
    [await chat.sendMessage(...)]: the session whose summary was asked for,
    if one was made. *)
Definition handleFileSelected_created (created : Result Chat) (st : State)
    : State * option Chat :=
  match created with
  | Ok chat => (setChatSession (Some chat) st, Some chat)
  | Throw err => (handleFileSelected_failed st, None)
  end.

(** The third part, from the answer of the model to the end. *)
Definition handleFileSelected_end (result : Result (option string)) (st : State)
    : State :=
  match result with
  | Ok result_text =>
      setIsInitializing false
        (setMessages
           [{| role := Model;
               text := if App.truthy result_text
                       then default "" result_text else greeting |}]
           st)
  | Throw err => handleFileSelected_failed st
  end.

(** What the model says to a message: its reply when the reply has text,
    nothing when it has none, the apology when the call throws. *)
Definition replyTo (result : Result (option string)) : list Message :=
  match result with
  | Ok (Some reply) =>
      if bool_decide (reply = "") then [] else [{| role := Model; text := reply |}]
  | Ok None => []
  | Throw _ => [{| role := Model; text := apology |}]
  end.

(** [handleSendMessage] awaits once. Its first part, up to
    [await chatSession.sendMessage(...)]: the session and the message that
    was sent, if one was. *)
Definition handleSendMessage_begin (st : State) : State * option (Chat * string) :=
  match chatSession st with
  | None => (st, None)
  | Some chat =>
      if bool_decide (trim (input st) = "") || isLoading st then (st, None)
      else
        let userMessage := trim (input st) in
        (setIsLoading true
           (setMessages (messages st ++ [{| role := User; text := userMessage |}])
              (setInput "" st)),
         Some (chat, userMessage))
  end.

(** Its second part, from the answer of the model to the end; the
    exception goes to the console. *)
Definition handleSendMessage_end (result : Result (option string)) (st : State)
    : State :=
  setIsLoading false
    match result with
    | Ok responseText =>
        if App.truthy responseText
        then setMessages
               (messages st ++ [{| role := Model; text := default "" responseText |}])
               st
        else st
    | Throw err =>
        setMessages (messages st ++ [{| role := Model; text := apology |}]) st
    end.

(** [handleSendMessage] when nothing else happens while it waits: the two
    parts, with the answer of the session in between; the session has a
    longer history afterwards. *)
Definition handleSendMessage (st : State) : State :=
  match chatSession st with
  | None => st
  | Some chat =>
      if bool_decide (trim (input st) = "") || isLoading st then st
      else
        let userMessage := trim (input st) in
        let st :=
          setIsLoading true
            (setMessages (messages st ++ [{| role := User; text := userMessage |}])
               (setInput "" st)) in
        setIsLoading false
          match sendMessage chat userMessage with
          | (Ok responseText, chat) =>
              let st := setChatSession (Some chat) st in
              if App.truthy responseText
              then setMessages
                     (messages st ++ [{| role := Model; text := default "" responseText |}])
                     st
              else st
          | (Throw err, chat) =>
              let st := setChatSession (Some chat) st in
              setMessages (messages st ++ [{| role := Model; text := apology |}]) st
          end
  end.

Definition handleReset (st : State) : State :=
  setError None (setMessages [] (setChatSession None (setFile None st))).

(** *** The component over time

    The component with the requests it is waiting for: the state that is
    rendered, how far an initialisation has come, and whether a reply is
    awaited. *)
Inductive Init :=
| Reading (selectedFile : File)
| Summarizing (chat : Chat).

Record Component := {
  rendered : State;
  initializing : option Init;
  replying : bool;
}.

Definition mounted : Component :=
  {| rendered := initial; initializing := None; replying := false |}.

(** What happens to the component: what the user does, and the requests
    that settle. What the model answers depends on the history of the
    session, which the component does not see; so an answer comes with the
    action. *)
Inductive Action :=
| CheckApiKey
| ConnectApiKey
| FileSelected (files : list File)
| Created
| Summarized (result : Result (option string))
| Typed (value : string)
| Submit
| Answered (result : Result (option string))
| Reset.

(** One step. The file picker is rendered while no file is set, and it is
    disabled while [isInitializing]; a request settles only while it is
    awaited. *)
Definition step (action : Action) (c : Component) : option Component :=
  let st := rendered c in
  match action with
  | CheckApiKey =>
      Some {| rendered := checkApiKey st;
              initializing := initializing c; replying := replying c |}
  | ConnectApiKey =>
      Some {| rendered := handleConnectApiKey st;
              initializing := initializing c; replying := replying c |}
  | FileSelected files =>
      match file st, isInitializing st with
      | None, false =>
          let '(st', reading) := handleFileSelected_begin files st in
          Some {| rendered := st';
                  initializing := match reading with
                                  | Some selectedFile => Some (Reading selectedFile)
                                  | None => initializing c
                                  end;
                  replying := replying c |}
      | _, _ => None
      end
  | Created =>
      match initializing c with
      | Some (Reading selectedFile) =>
          let '(st', chat) := handleFileSelected_created (createChat selectedFile) st in
          Some {| rendered := st'; initializing := Summarizing <$> chat;
                  replying := replying c |}
      | _ => None
      end
  | Summarized result =>
      match initializing c with
      | Some (Summarizing _) =>
          Some {| rendered := handleFileSelected_end result st; initializing := None;
                  replying := replying c |}
      | _ => None
      end
  | Typed value =>
      Some {| rendered := setInput value st;
              initializing := initializing c; replying := replying c |}
  | Submit =>
      let '(st', sent) := handleSendMessage_begin st in
      Some {| rendered := st'; initializing := initializing c;
              replying := replying c || bool_decide (is_Some sent) |}
  | Answered result =>
      if replying c
      then Some {| rendered := handleSendMessage_end result st;
                   initializing := initializing c; replying := false |}
      else None
  | Reset =>
      Some {| rendered := handleReset st;
              initializing := initializing c; replying := replying c |}
  end.

Inductive reachable : Component → Prop :=
| reachable_mounted : reachable mounted
| reachable_step action c c' : reachable c → step action c = Some c' → reachable c'.

(** The transcript begins with words of the model. *)
Definition greeted (st : State) : Prop :=
  ∃ first rest, messages st = first :: rest ∧ role first = Model.

(** The busy flags tell what is awaited; a conversation that is shown
    once the initialisation is over has a session and has been greeted; and
    while the summary is awaited the session of a file that is still set is
    the one that was made for it. *)
Definition inSync (c : Component) : Prop :=
  let st := rendered c in
  isInitializing st = bool_decide (is_Some (initializing c))
  ∧ isLoading st = replying c
  ∧ match initializing c with
    | None => is_Some (file st) → is_Some (chatSession st) ∧ greeted st
    | Some (Reading _) => True
    | Some (Summarizing chat) => is_Some (file st) → chatSession st = Some chat
    end.

End Chat.
End AiChat.

(** ** A small file list *)

Module Sample.
Import App.

(** The order of the code units, for the host's collation. *)
Definition localeCompare (a b : string) : Z :=
  match String.compare a b with
  | Lt => (-1)%Z
  | Eq => 0%Z
  | Gt => 1%Z
  end.

Definition notes : Upload := {| blob := Toy.txt; lastModified := 30 |}.
Definition picture : Upload := {| blob := Toy.png; lastModified := 10 |}.
Definition paper : Upload := {| blob := Toy.pdf2; lastModified := 20 |}.
(** Another file named [a.png]. *)
Definition retake : Upload :=
  {| blob := {| name := "a.png"; type := "image/png"; content := [Byte.x89] |};
     lastModified := 40 |}.

Definition listed : list Upload := [notes; picture; paper].
Definition namesakes : list Upload := [notes; picture; paper; retake].

(** [App] after the three files were selected, and after [a.png] was
    pinned. *)
Definition selected : State := handleFilesSelected listed initial.
Definition pinned : State := handleSetFirstPage localeCompare "a.png" selected.
(** And after the other [a.png] was pasted, alone. *)
Definition pasted : State := (handlePaste (Some [retake]) pinned).1.

(** The browser before [handleMerge]: the small host, no document, an empty
    body, and [App] with the three files. *)
Definition world : @World (appHost (Toy.host true)) :=
  @Build_World (appHost (Toy.host true)) [] ∅ 0 [] selected [].
Definition createObjectURL (pdfBytes : list (@PDFPage (appHost (Toy.host true))))
    : string :=
  "blob:merged".

(** The page of the browser with two nodes in the body. *)
Definition page : @World (Toy.host true) :=
  @Build_World (Toy.host true) []
    {[ 0 := {| tagName := "div"; style := ∅; innerHTML := "" |};
       1 := {| tagName := "div"; style := ∅; innerHTML := "" |} ]}
    2 [0; 1] [] [].

End Sample.

(** ** Two small documents in the organizer *)

Module Organized.
Import PdfOrganizer.

(** pdf.js on the small host: a document is its bytes, and has the pages
    that pdf-lib finds. *)
Definition getDocument (bytes : Bytes) : Result Bytes :=
  match Toy.load bytes with
  | Ok _ => Ok bytes
  | Throw e => Throw e
  end.
Definition numPages (pdf : Bytes) : nat :=
  match Toy.load pdf with
  | Ok pages => length pages
  | Throw _ => 0
  end.
Definition getData (pdf : Bytes) : Result Bytes := Ok pdf.
Definition Date_now (readings : nat) : Z := (1700000000000 + Z.of_nat readings)%Z.
Definition createObjectURL (pdfBytes : list (@DonorPage (Toy.host true) * Z)) : string :=
  "blob:organized".

(** The component after [b.pdf] (two pages) and [form.xlsx] (a PDF of one
    page) were selected, and its pages. *)
Definition loaded : @State Bytes :=
  handleFilesSelected getDocument numPages Date_now [Toy.pdf2; Toy.formXlsx] initial.
Definition listed : list (@PageInfo Bytes) := Eval vm_compute in pages loaded.

(** The first page taken up, and turned once. *)
Definition dragging : @State Bytes :=
  handleRotatePage "b.pdf-1-1700000000000"
    (handleDragStart "b.pdf-1-1700000000000" loaded).

End Organized.

(** ** A small conversation *)

Module Conversation.
Import AiChat.

(** A session is its history; the model answers every message with the
    same words; the reader makes the data URL of a PDF of four bytes. *)
Definition chats_create (data : option string) : Result (list string) := Ok [].
Definition sendMessage (chat : list string) (message : string)
    : Result (option string) * list string :=
  (Ok (Some "ok"), chat ++ [message]).
Definition readAsDataURL (file : File) : Result string :=
  Ok ("data:" +:+ type file +:+ ";base64," +:+ "JVBERg==").
(** No white space to remove. *)
Definition trim (s : string) : string := s.

(** A conversation about [b.pdf] with a question typed. *)
Definition typed : @State (list string) :=
  {| file := Some Toy.pdf2; chatSession := Some [];
     messages := [{| role := Model; text := "A PDF." |}];
     input := "pages?"; isLoading := false; isInitializing := false;
     error := None; hasApiKey := true |}.

Definition after (actions : list Action) : option (@Component (list string)) :=
  foldl (λ c action, c ≫= step chats_create readAsDataURL trim None None action)
    (Some mounted) actions.

(** [b.pdf] was selected and is being read: the conversation is shown, and
    there is no session yet. *)
Definition reading : option (@Component (list string)) :=
  after [FileSelected [Toy.pdf2]].

(** After [b.pdf] was selected, read and summarised, and a question was
    typed, sent and answered. *)
Definition asked : option (@Component (list string)) :=
  after [FileSelected [Toy.pdf2]; Created; Summarized (Ok (Some "A PDF."));
         Typed "pages?"; Submit; Answered (Ok (Some "Two."))].

(** The same, with the conversation reset while the summary was awaited. *)
Definition interrupted : option (@Component (list string)) :=
  after [FileSelected [Toy.pdf2]; Created; Reset; Summarized (Ok (Some "A PDF."))].

End Conversation.

(** * Proofs *)

(** Symbolic execution of the monadic code on a world given by its
    components: unfold the combinators and the primitives, then resolve the
    reads of the page just added and of the nodes just created. *)
Ltac js_unfold :=
  cbv beta iota zeta delta
    [bind ret throw try_catch finally try_catch_finally modify gets log lift call
     console_error create addPage getPage getSize getHeight drawOn drawText
     drawImage save createElement getElement setElement setStyle setInnerHTML prepend
     body_appendChild body_removeChild render arrayBuffer notify
     with_doc with_nodes with_nextNode with_body with_caller with_trace
     doc nodes nextNode body caller trace tagName style innerHTML].

Section Lists.
Context `{Host}.

Lemma lookup_last_page (d : list PDFPage) (p : PDFPage) :
  (d ++ [p]) !! length d = Some p.
Proof. by apply list_lookup_middle. Qed.

Lemma alter_last_page (f : PDFPage → PDFPage) (d : list PDFPage) (p : PDFPage) :
  alter f (length d) (d ++ [p]) = d ++ [f p].
Proof.
  replace (length d) with (length d + 0) by lia. by rewrite alter_app_r.
Qed.

Lemma child_appended (n : nat) (b : list nat) :
  bool_decide (n ∈ filter (λ c, c ≠ n) b ++ [n]) = true.
Proof. apply bool_decide_eq_true. set_solver. Qed.

(** The notice of [embedHtmlAsImage] is printable ASCII. *)
Lemma failed_render_encodes :
  encodeText "Failed to render Office document" = Ok tt.
Proof. reflexivity. Qed.

Lemma child_removed (n : nat) (b : list nat) :
  filter (λ c, c ≠ n) (filter (λ c, c ≠ n) b ++ [n]) = filter (λ c, c ≠ n) b.
Proof.
  rewrite filter_app, list_filter_filter_l by done.
  rewrite filter_cons_False by naive_solver. by rewrite filter_nil, app_nil_r.
Qed.

Lemma mapM_lookup_seq {A} (pre l : list A) :
  mapM (λ i, (pre ++ l) !! i) (seq (length pre) (length l)) = Some l.
Proof.
  revert pre. induction l as [|x l IH]; intros pre; [done|].
  cbn [length seq mapM].
  rewrite list_lookup_middle by done. cbn.
  specialize (IH (pre ++ [x])).
  rewrite <- app_assoc, length_app in IH. cbn in IH.
  replace (length pre + 1) with (S (length pre)) in IH by lia.
  by rewrite IH.
Qed.

End Lists.

Ltac js_step :=
  first
    [ rewrite lookup_last_page
    | rewrite alter_last_page
    | rewrite lookup_insert_eq
    | rewrite alter_insert_eq
    | rewrite lookup_insert_ne by lia
    | rewrite alter_insert_ne by lia
    | rewrite child_appended
    | rewrite child_removed
    | rewrite failed_render_encodes ];
  js_unfold.

Ltac js_run := js_unfold; repeat js_step.

(** Close a goal [(t ++ [a]) ++ [b] = t ++ evs]. *)
Ltac trace_eq := rewrite <- ?app_assoc; reflexivity.

Section Runs.
Context `{Host}.

(** *** [embedHtmlAsImage] *)

(** Whatever the renderer and the encoders do, [embedHtmlAsImage] returns
    normally, has added the one page [htmlPage], and has removed the
    container it attached. *)
Lemma embedHtmlAsImage_run (htmlContent : string) (w : World) :
  ∃ w',
    embedHtmlAsImage htmlContent w = (Ok tt, w') ∧
    doc w' = doc w ++ [htmlPage htmlContent] ∧
    caller w' = caller w ∧
    body w' = filter (λ c, c ≠ nextNode w) (body w) ∧
    trace w' = trace w ++ htmlEvents (nextNode w) htmlContent.
Proof.
  destruct w as [d ns nn b a t].
  unfold embedHtmlAsImage. js_run.
  unfold htmlEvents, rasterEvents, failedRenderEvents, htmlPage, rasterize, andThen.
  match goal with |- context [html2canvas ?e ?o] =>
    change (html2canvas e o) with
      (html2canvas (containerFor htmlContent) (renderOptions (containerFor htmlContent)));
    change e with (containerFor htmlContent);
    change o with (renderOptions (containerFor htmlContent))
  end.
  destruct (html2canvas _ _) as [canvas|e]; js_run;
    [destruct (canvas_toDataURL _ _ _) as [url|e]; js_run;
      [destruct (fetch_arrayBuffer _) as [bytes|e]; js_run;
        [destruct (embedJpg _) as [image|e]; js_run|]|]|].
  all: eexists; split; [reflexivity|].
  all: repeat split; try done; trace_eq.
Qed.

Lemma rasterEvents_quiet (htmlContent : string) :
  forallb quiet (rasterEvents htmlContent) = true.
Proof.
  unfold rasterEvents, failedRenderEvents.
  repeat (match goal with |- context [match ?r with Ok _ => _ | Throw _ => _ end] =>
            destruct r end; try done).
Qed.

Lemma htmlEvents_no_progress (container : nat) (htmlContent : string) :
  Forall (λ e, isProgress e = false) (htmlEvents container htmlContent).
Proof.
  unfold htmlEvents, rasterEvents, failedRenderEvents.
  repeat (match goal with |- context [match ?r with Ok _ => _ | Throw _ => _ end] =>
            destruct r end; try (repeat constructor)).
Qed.

(** *** The page loop of the PDF branch *)

Lemma copyPages_run (donor : list DonorPage) (w : World) :
  copyPages donor (getPageIndices donor) w =
    (Ok (copyOf <$> donor), with_trace (λ t, t ++ [EvCall "copyPages"]) w).
Proof.
  unfold copyPages, getPageIndices.
  pose proof (mapM_lookup_seq [] donor) as E. simpl in E.
  js_unfold. rewrite E. by destruct w.
Qed.

Lemma forOf_addPageOf (pages : list PDFPage) (w : World) :
  forOf pages addPageOf w =
    (Ok tt, with_trace (λ t, t ++ (const (EvCall "addPage") <$> pages))
              (with_doc (λ d, d ++ pages) w)).
Proof.
  revert w. induction pages as [|p pages IH]; intros [d ns nn b a t].
  - cbn. js_unfold. by rewrite !app_nil_r.
  - cbn [forOf]. unfold addPageOf at 1. js_unfold. rewrite IH. js_unfold.
    by rewrite <- !app_assoc.
Qed.

End Runs.

Section Dispatch.
Context `{Host}.

Ltac finish_run :=
  unfold advances; cbn;
  split; [done|]; split; [done|]; split; [done|];
  eexists; split; [trace_eq|]; split; [done|]; repeat constructor.

Ltac embed_run :=
  match goal with |- context [embedHtmlAsImage ?h ?w0] =>
    let w' := fresh "w'" in
    let Hdoc := fresh "Hdoc" in
    let Happ := fresh "Happ" in
    let Htrace := fresh "Htrace" in
    destruct (embedHtmlAsImage_run h w0) as (w' & -> & Hdoc & Happ & _ & Htrace);
    cbn [doc caller trace nextNode] in Hdoc, Happ, Htrace; unfold advances; cbn;
    rewrite Hdoc, Happ, Htrace;
    split; [done|]; split; [done|]; split; [done|];
    eexists; split; [trace_eq|]; split; [done|];
    rewrite !Forall_app; repeat (split; [by repeat constructor|]);
    apply htmlEvents_no_progress
  end.

(** The code refines the contribution of the specification: whatever the
    world, processing a file appends [contribution]'s pages, lets escape
    what it says, leaves the caller's state alone and calls no progress
    callback. *)
Lemma processFile_run (file : File) (w : World) :
  advances w (contribution file) (processFile file w).
Proof.
  destruct w as [d ns nn b a t].
  unfold processFile, contribution, kindOf, noticed.
  destruct (startsWith (type file) "image/").
  { unfold imageBranch. js_run.
    destruct (bool_decide (type file = "image/jpeg")); js_run.
    { destruct (embedJpg _); js_run; finish_run. }
    destruct (bool_decide (type file = "image/png")); js_run.
    { destruct (embedPng _); js_run; finish_run. }
    destruct (encodeText _); js_run; finish_run. }
  destruct (bool_decide (type file = "application/pdf")).
  { unfold pdfBranch. js_run.
    destruct (PDFDocument_load _) as [donor|e]; js_run;
      [|destruct (encodeText _); js_run; finish_run].
    rewrite copyPages_run. js_unfold. rewrite forOf_addPageOf. js_unfold.
    finish_run. by apply Forall_fmap, Forall_true. }
  destruct (bool_decide (type file = docxType) || _).
  { unfold wordBranch. js_run.
    destruct (mammoth_convertToHtml _) as [html|e]; js_run;
      [|destruct (encodeText _); js_run; finish_run].
    embed_run. }
  destruct (bool_decide (type file = xlsxType) || _).
  { unfold excelBranch, firstSheetHtml, andThen. js_run.
    destruct (XLSX_read _) as [workbook|e]; js_run;
      [|destruct (encodeText _); js_run; finish_run].
    destruct (XLSX_sheet_to_html _) as [html|e]; js_run;
      [|destruct (encodeText _); js_run; finish_run].
    embed_run. }
  unfold otherBranch. js_run. destruct (encodeText _); js_run; finish_run.
Qed.

End Dispatch.

Section Loop.
Context `{Host}.
Implicit Types (onProgress : option (string → AppState → AppState)).

Lemma notify_run onProgress (file : File) (w : World) :
  notify onProgress (name file) w =
    (Ok tt, with_caller (λ seen, announce onProgress seen file)
              (with_trace (λ t, t ++ progressEvents onProgress file) w)).
Proof.
  destruct w, onProgress; js_unfold; cbn; by rewrite ?app_nil_r.
Qed.

Lemma body_run onProgress (file : File) (w : World) :
  let x := (notify onProgress (name file);;; processFile file) w in
  x.1 = escaped (contribution file).2 ∧
  doc x.2 = doc w ++ (contribution file).1 ∧
  caller x.2 = announce onProgress (caller w) file ∧
  ∃ seg, trace x.2 = trace w ++ progressEvents onProgress file ++ seg ∧
         processing file seg.
Proof.
  unfold bind. rewrite notify_run.
  match goal with |- context [processFile file ?w0] =>
    destruct (processFile_run file w0) as (Hr & Hd & Ha & seg & Ht & Hne & Hquiet);
    assert (processing file seg) as Hseg by (by split; [|split; [|exists w0]]);
    destruct (processFile file w0) as [r w1]
  end.
  destruct w. cbn [fst snd doc caller trace with_caller with_trace] in *.
  do 3 (split; [done|]). exists seg. split; [|done].
  rewrite Ht. trace_eq.
Qed.

Lemma completed_all (files : list File) :
  (completed files).2 = None → (completed files).1 = files.
Proof.
  induction files as [|file rest IH]; [done|]. cbn.
  destruct (contribution file).2; [done|].
  destruct (completed rest) as [reached e]. cbn in *. intros ->. by rewrite IH.
Qed.

(** The loop gets to the files of [completed], in order: each is announced,
    then processed. *)
Lemma forOf_cons {A} (x : A) (xs : list A) (body : A → M unit) (w : World) :
  forOf (x :: xs) body w =
    let '(r, w1) := body x w in
    match r with
    | Ok _ => forOf xs body w1
    | Throw e => (Throw e, w1)
    end.
Proof. cbn [forOf]. unfold bind. by destruct (body x w) as [[]]. Qed.

Lemma forOf_run onProgress (files : list File) (w : World) :
  let x := forOf files (λ file, notify onProgress (name file);;; processFile file) w in
  x.1 = escaped (completed files).2 ∧
  doc x.2 = doc w ++ pagesOf (completed files).1 ∧
  caller x.2 = foldl (announce onProgress) (caller w) (completed files).1 ∧
  ∃ segs, Forall2 processing (completed files).1 segs ∧
          trace x.2 = trace w ++ interleave onProgress (completed files).1 segs.
Proof.
  revert w. induction files as [|file rest IH]; intros w.
  { cbn. unfold pagesOf, interleave. cbn. rewrite app_nil_r.
    do 3 (split; [done|]). exists []. rewrite app_nil_r. by split. }
  cbn zeta. rewrite forOf_cons. cbn [completed].
  destruct (body_run onProgress file w) as (Hr & Hd & Ha & seg & Ht & Hseg).
  destruct ((notify onProgress (name file);;; processFile file) w) as [r w1].
  cbn [fst snd] in Hr, Hd, Ha, Ht. subst r.
  destruct (contribution file) as [pages [e|]] eqn:Hc; cbn [fst snd escaped] in *.
  { unfold pagesOf, interleave. cbn. rewrite Hc. cbn. rewrite !app_nil_r.
    do 3 (split; [done|]). exists [seg]. cbn. rewrite app_nil_r.
    split; [|done]. constructor; [done|constructor]. }
  destruct (IH w1) as (Hr' & Hd' & Ha' & segs & Hsegs & Ht').
  destruct (forOf rest _ w1) as [r w2]. cbn [fst snd] in *.
  destruct (completed rest) as [reached e]. cbn [fst snd] in *.
  unfold pagesOf, interleave in *. cbn. rewrite Hc. cbn.
  rewrite Hd', Hd, Ha', Ha, Ht', Ht, <- !app_assoc.
  do 3 (split; [done|]). exists (seg :: segs). cbn. rewrite <- !app_assoc.
  split; [by constructor|done].
Qed.

End Loop.

Section Merge.
Context `{Host}.
Implicit Types (onProgress : option (string → AppState → AppState)).

Lemma bind_run {A B} (m : M A) (k : A → M B) (w : World) :
  bind m k w =
    let '(r, w1) := m w in
    match r with
    | Ok a => k a w1
    | Throw e => (Throw e, w1)
    end.
Proof. unfold bind. by destruct (m w) as [[]]. Qed.

Lemma create_run (w : World) :
  create w =
    match PDFDocument_create with
    | Ok _ => (Ok tt, with_doc (λ _, [])
                        (with_trace (λ t, t ++ [EvCall "PDFDocument.create"]) w))
    | Throw e => (Throw e, with_trace (λ t, t ++ [EvCall "PDFDocument.create"]) w)
    end.
Proof. destruct w. js_unfold. by destruct PDFDocument_create. Qed.

Lemma save_run (w : World) :
  save w = (Ok (saved (doc w)),
            with_doc saved (with_trace (λ t, t ++ [EvCall "save"]) w)).
Proof. destruct w as [[|page pages] ns nn b a t]; reflexivity. Qed.

(** The whole call, for a host whose [PDFDocument.create()] succeeds. *)
Lemma mergeFilesToPdf_run onProgress (files : list File) (w : World) :
  PDFDocument_create = Ok tt →
  let x := mergeFilesToPdf files onProgress w in
  x.1 = match (completed files).2 with
        | None => Ok (saved (pagesOf files))
        | Some e => Throw e
        end ∧
  doc x.2 = match (completed files).2 with
            | None => saved (pagesOf files)
            | Some _ => pagesOf (completed files).1
            end ∧
  caller x.2 = foldl (announce onProgress) (caller w) (completed files).1 ∧
  ∃ segs, Forall2 processing (completed files).1 segs ∧
          trace x.2 = trace w ++ [EvCall "PDFDocument.create"]
                      ++ interleave onProgress (completed files).1 segs
                      ++ ending (completed files).2.
Proof.
  intros Hcreate. cbn zeta. unfold mergeFilesToPdf.
  rewrite bind_run, create_run, Hcreate. cbv beta iota. rewrite bind_run.
  match goal with |- context [forOf files ?b ?w0] =>
    destruct (forOf_run onProgress files w0) as (Hr & Hd & Ha & segs & Hsegs & Ht);
    destruct (forOf files b w0) as [r w1]
  end.
  destruct w as [d ns nn b a t].
  cbn [fst snd doc caller trace with_doc with_trace] in *. subst r.
  pose proof (completed_all files) as Hall.
  destruct (completed files) as [reached [e|]]; cbn [fst snd escaped ending] in *.
  - rewrite app_nil_l in Hd. do 3 (split; [done|]).
    exists segs. split; [done|]. rewrite Ht, app_nil_r. trace_eq.
  - rewrite save_run. destruct w1 as [d1 ns1 nn1 b1 a1 t1].
    cbn [fst snd doc caller trace with_doc with_trace] in *. subst.
    rewrite Hall by done. do 3 (split; [done|]).
    exists segs. rewrite Hall in Hsegs by done.
    split; [done|]. trace_eq.
Qed.

(** When [PDFDocument.create()] throws, that is all that happens. *)
Lemma mergeFilesToPdf_fatal onProgress (files : list File) (w : World) (e : Exn) :
  PDFDocument_create = Throw e →
  mergeFilesToPdf files onProgress w =
    (Throw e, with_trace (λ t, t ++ [EvCall "PDFDocument.create"]) w).
Proof.
  intros Hcreate. unfold mergeFilesToPdf.
  by rewrite bind_run, create_run, Hcreate.
Qed.

(** A call that returns a document has created it and has run the loop over
    every file without an escaping exception; the document is the pages of
    the files, or one blank page when they have none. *)
Lemma mergeFilesToPdf_returned onProgress (files : list File) (w w' : World)
    (merged : list PDFPage) :
  mergeFilesToPdf files onProgress w = (Ok merged, w') →
  PDFDocument_create = Ok tt ∧ (completed files).2 = None ∧
  merged = saved (pagesOf files).
Proof.
  intros Hrun. destruct PDFDocument_create as [[]|e] eqn:Hcreate.
  - destruct (mergeFilesToPdf_run onProgress files w Hcreate) as (Hr & _).
    rewrite Hrun in Hr. cbn in Hr.
    destruct (completed files).2; [done|]. by injection Hr as ->.
  - by rewrite (mergeFilesToPdf_fatal _ _ _ _ Hcreate) in Hrun.
Qed.

End Merge.

(** ** Facts about strings *)

Section Strings.

Lemma length_append (a b : string) :
  String.length (a +:+ b) = String.length a + String.length b.
Proof. induction a as [|c a IH]; simpl; [done|]. by f_equal. Qed.

Lemma substring_whole (s : string) : String.substring 0 (String.length s) s = s.
Proof. induction s as [|c s IH]; simpl; [done|]. by f_equal. Qed.

Lemma substring_after (a b : string) :
  String.substring (String.length a) (String.length b) (a +:+ b) = b.
Proof. induction a as [|c a IH]; simpl; [apply substring_whole|done]. Qed.

Lemma endsWith_append (a b : string) : endsWith (a +:+ b) b = true.
Proof.
  unfold endsWith. cbv zeta. rewrite length_append.
  destruct (Nat.leb_spec (String.length b) (String.length a + String.length b)); [|lia].
  replace (String.length a + String.length b - String.length b)
    with (String.length a) by lia.
  by rewrite substring_after, bool_decide_eq_true.
Qed.

Lemma toLowerCase_append (a b : string) :
  toLowerCase (a +:+ b) = toLowerCase a +:+ toLowerCase b.
Proof.
  induction a as [|c a IH]; [done|].
  change (String (lower_ascii c) (toLowerCase (a +:+ b)) =
          String (lower_ascii c) (toLowerCase a +:+ toLowerCase b)).
  by rewrite IH.
Qed.

(** A name that ends in an extension, in whatever case, ends in the
    lower-cased extension once lower-cased. *)
Lemma endsWith_extension (stem ext lower : string) :
  toLowerCase ext = lower → endsWith (toLowerCase (stem +:+ ext)) lower = true.
Proof. intros <-. rewrite toLowerCase_append. apply endsWith_append. Qed.

(** Two different suffixes of the same length exclude each other. *)
Lemma endsWith_other (s p q : string) :
  String.length p = String.length q → p ≠ q →
  endsWith s p = true → endsWith s q = false.
Proof.
  unfold endsWith. cbv zeta. intros <- Hne.
  destruct (String.length p <=? String.length s); [|done].
  rewrite bool_decide_eq_true, bool_decide_eq_false. congruence.
Qed.

Lemma prefix_self (s : string) : String.prefix s s = true.
Proof. induction s as [|c s IH]; simpl; [done|]. by destruct (ascii_dec c c). Qed.

Lemma includes_append (a b : string) : includes (a +:+ b) b = true.
Proof.
  induction a as [|c a IH]; simpl.
  - destruct b as [|c b]; [done|].
    change (String.prefix (String c b) (String c b) || includes b (String c b) = true).
    by rewrite prefix_self.
  - rewrite IH. apply orb_true_r.
Qed.

End Strings.

(** ** The text of a notice *)

Section Encoding.
Context `{Host}.

Lemma noticed_Ok (text : string) :
  encodeText text = Ok tt → noticed text = ([placeholder text], None).
Proof. unfold noticed. by intros ->. Qed.

Lemma noticed_Throw (text : string) (e : Exn) :
  encodeText text = Throw e → noticed text = ([newPage], Some e).
Proof. unfold noticed. by intros ->. Qed.

End Encoding.

(** ** The dispatch *)

Section Kinds.
Context `{Host}.

Lemma processFile_kind (file : File) :
  processFile file =
    match kindOf file with
    | KImage => imageBranch file
    | KPdf => pdfBranch file
    | KWord => wordBranch file
    | KExcel => excelBranch file
    | KOther => otherBranch file
    end.
Proof.
  unfold processFile, kindOf. cbv zeta.
  by repeat match goal with |- context [if ?c then _ else _] => destruct c end.
Qed.

Lemma kindOf_pdf (file : File) : type file = "application/pdf" → kindOf file = KPdf.
Proof.
  intros Htype. unfold kindOf. rewrite Htype.
  change (startsWith "application/pdf" "image/") with false.
  by rewrite bool_decide_eq_true_2.
Qed.

Lemma kindOf_docxType (file : File) : type file = docxType → kindOf file = KWord.
Proof.
  intros Htype. unfold kindOf. rewrite Htype.
  change (startsWith docxType "image/") with false.
  rewrite (bool_decide_eq_false_2 (docxType = "application/pdf")) by done.
  by rewrite bool_decide_eq_true_2.
Qed.

Lemma kindOf_by_extension (file : File) :
  startsWith (type file) "image/" = false → type file ≠ "application/pdf" →
  kindOf file =
    if bool_decide (type file = docxType)
       || endsWith (toLowerCase (name file)) ".docx" then KWord
    else if bool_decide (type file = xlsxType)
            || endsWith (toLowerCase (name file)) ".xlsx" then KExcel
    else KOther.
Proof.
  intros Himage Hpdf. unfold kindOf.
  by rewrite Himage, bool_decide_eq_false_2.
Qed.

(** C10. The declared media type decides before the file name does: a type
    that starts with [image/] takes the image branch and [application/pdf]
    the PDF branch whatever the name ends in, the Word type takes the Word
    branch; only a file that none of these tests caught is routed by its
    name, compared in lower case, so that a name ending in [.DOCX] or
    [.XLSX], in any mix of cases, reaches the Word or the Excel branch. *)
Theorem dispatch_media_type_before_extension (file : File) :
  (startsWith (type file) "image/" = true → processFile file = imageBranch file) ∧
  (type file = "application/pdf" → processFile file = pdfBranch file) ∧
  (type file = docxType → processFile file = wordBranch file) ∧
  (∀ stem ext : string,
     name file = stem +:+ ext →
     startsWith (type file) "image/" = false →
     type file ≠ "application/pdf" →
     (toLowerCase ext = ".docx" → processFile file = wordBranch file) ∧
     (toLowerCase ext = ".xlsx" → type file ≠ docxType →
      processFile file = excelBranch file)).
Proof.
  rewrite processFile_kind. split; [|split; [|split]].
  - intros Himage. unfold kindOf. by rewrite Himage.
  - intros Htype. by rewrite kindOf_pdf.
  - intros Htype. by rewrite kindOf_docxType.
  - intros stem ext Hname Himage Hpdf.
    rewrite kindOf_by_extension, Hname by done. split.
    + intros Hext. by rewrite (endsWith_extension stem ext ".docx"), orb_true_r.
    + intros Hext Hdocx.
      pose proof (endsWith_extension stem ext ".xlsx" Hext) as Hxlsx.
      rewrite (endsWith_other _ ".xlsx" ".docx") by done.
      by rewrite Hxlsx, bool_decide_eq_false_2, orb_true_r.
Qed.

End Kinds.

(** A PNG named [scan.docx], a PDF named [form.xlsx], an untyped
    [Report.DOCX] and a [Sheet.XLSX] of an unknown type. *)
Lemma dispatch_media_type_before_extension_witness :
  @processFile (Toy.host true) Toy.scanDocx = imageBranch Toy.scanDocx ∧
  @processFile (Toy.host true) Toy.formXlsx = pdfBranch Toy.formXlsx ∧
  @processFile (Toy.host true) Toy.docx = wordBranch Toy.docx ∧
  @processFile (Toy.host true) Toy.sheetXLSX = excelBranch Toy.sheetXLSX.
Proof.
  split; [|split; [|split]].
  - destruct (@dispatch_media_type_before_extension (Toy.host true) Toy.scanDocx)
      as (Himage & _).
    apply Himage. reflexivity.
  - destruct (@dispatch_media_type_before_extension (Toy.host true) Toy.formXlsx)
      as (_ & Hpdf & _).
    apply Hpdf. reflexivity.
  - destruct (@dispatch_media_type_before_extension (Toy.host true) Toy.docx)
      as (_ & _ & _ & Hname).
    apply (Hname "Report" ".DOCX"); [reflexivity|reflexivity|discriminate|reflexivity].
  - destruct (@dispatch_media_type_before_extension (Toy.host true) Toy.sheetXLSX)
      as (_ & _ & _ & Hname).
    apply (Hname "Sheet" ".XLSX"); [reflexivity|reflexivity|discriminate|reflexivity|].
    discriminate.
Defined.

(** ** Facts about the contribution of a file *)

Section Contributions.
Context `{Host}.

Ltac by_cases :=
  repeat match goal with
         | |- context [match ?r with Ok _ => _ | Throw _ => _ end] => destruct r
         | |- context [if ?c then _ else _] => destruct c
         end.

Lemma contribution_length (file : File) :
  length (contribution file).1 = pageCount file.
Proof.
  unfold contribution, pageCount, noticed.
  destruct (kindOf file); by_cases; cbn; by rewrite ?length_fmap.
Qed.

Lemma contribution_contributes (file : File) :
  contributes file (contribution file).1.
Proof.
  split; [done|]. unfold contribution, htmlPage, noticed.
  destruct (kindOf file); by_cases; cbn; eauto.
Qed.

Lemma imagePage_fitted (image : PDFImage) : fitted (imagePage image).
Proof.
  intros image' options Hin. cbn in Hin.
  apply list_elem_of_singleton in Hin. by injection Hin as -> ->.
Qed.

Lemma placeholder_fitted (text : string) : fitted (placeholder text).
Proof.
  intros image options Hin. cbn in Hin.
  by apply list_elem_of_singleton in Hin.
Qed.

Lemma blank_fitted (page : PDFPage) : ops page = [] → fitted page.
Proof. intros Hops image options Hin. rewrite Hops in Hin. by apply elem_of_nil in Hin. Qed.

Lemma htmlPage_fitted (htmlContent : string) : fitted (htmlPage htmlContent).
Proof.
  unfold htmlPage. destruct (rasterize htmlContent);
    [apply imagePage_fitted|apply placeholder_fitted].
Qed.

Lemma contribution_fitted (file : File) : Forall fitted (contribution file).1.
Proof.
  unfold contribution, noticed.
  destruct (kindOf file); by_cases; cbn;
    repeat first
      [ apply Forall_nil_2
      | apply Forall_cons_2
      | apply imagePage_fitted
      | apply placeholder_fitted
      | apply htmlPage_fitted
      | by apply blank_fitted
      | apply Forall_fmap, Forall_true; intros src; by apply blank_fitted ].
Qed.

Lemma pagesOf_cons (file : File) (rest : list File) :
  pagesOf (file :: rest) = (contribution file).1 ++ pagesOf rest.
Proof. done. Qed.

Lemma pagesOf_app (before after : list File) :
  pagesOf (before ++ after) = pagesOf before ++ pagesOf after.
Proof. unfold pagesOf. by rewrite fmap_app, concat_app. Qed.

Lemma pagesOf_length (files : list File) :
  length (pagesOf files) = sum_list (pageCount <$> files).
Proof.
  induction files as [|file rest IH]; [done|].
  rewrite pagesOf_cons, length_app, contribution_length, IH. done.
Qed.

Lemma pagesOf_fitted (files : list File) : Forall fitted (pagesOf files).
Proof.
  induction files as [|file rest IH]; [by constructor|].
  rewrite pagesOf_cons. apply Forall_app. split; [apply contribution_fitted|done].
Qed.

Lemma saved_fitted (pages : list PDFPage) :
  Forall fitted pages → Forall fitted (saved pages).
Proof.
  destruct pages as [|page pages]; [|done]. intros _.
  constructor; [by apply blank_fitted|constructor].
Qed.

Lemma saved_pages (pages : list PDFPage) : pages ≠ [] → saved pages = pages.
Proof. by destruct pages. Qed.

Lemma pagesOf_contributes (files : list File) :
  Forall2 contributes files ((λ file, (contribution file).1) <$> files).
Proof.
  induction files as [|file rest IH]; constructor; [apply contribution_contributes|done].
Qed.

End Contributions.

(** * The properties of the specification *)

Section Document.
Context `{Host}.
Implicit Types (onProgress : option (string → AppState → AppState)).

(** C2, as the code has it. The page count of the document that
    [mergeFilesToPdf] returns is the sum, over the input files, of the page
    count of the source for a PDF that parses and of one for every other
    file, unless that sum is zero: then the document is the one blank page
    that [save] adds to a document without pages. *)
Theorem merged_page_count onProgress (files : list File) (w w' : World)
    (merged : list PDFPage) :
  mergeFilesToPdf files onProgress w = (Ok merged, w') →
  let pages := sum_list (pageCount <$> files) in
  (pages ≠ 0 → length merged = pages) ∧
  (pages = 0 → merged = [newPage]).
Proof.
  intros Hrun.
  destruct (mergeFilesToPdf_returned _ _ _ _ _ Hrun) as (_ & _ & ->).
  cbv zeta. rewrite <- pagesOf_length.
  destruct (pagesOf files) as [|page pages]; cbn; split; done.
Qed.

(** C3, as the code has it. The pages of the returned document are the
    runs of pages of the input files, in the order of the files: for a PDF
    that parses the copies of its pages in the order of the source, for
    every other file its one page; when the files have no page at all, the
    document is the one blank page that [save] adds. *)
Theorem merged_page_order onProgress (files : list File) (w w' : World)
    (merged : list PDFPage) :
  mergeFilesToPdf files onProgress w = (Ok merged, w') →
  ∃ runs : list (list PDFPage),
    Forall2 contributes files runs ∧
    (concat runs ≠ [] → merged = concat runs) ∧
    (concat runs = [] → merged = [newPage]).
Proof.
  intros Hrun.
  destruct (mergeFilesToPdf_returned _ _ _ _ _ Hrun) as (_ & _ & ->).
  exists ((λ file, (contribution file).1) <$> files).
  split; [apply pagesOf_contributes|].
  fold (pagesOf files). split; [apply saved_pages|by intros ->].
Qed.

(** C6. Every bitmap drawn on a page of the returned document, whether an
    embedded PNG or JPEG or a rasterised Office document, is drawn at its
    size times [scale = min(pageWidth/imageWidth, pageHeight/imageHeight)],
    at [x = (pageWidth - imageWidth*scale)/2] and
    [y = (pageHeight - imageHeight*scale)/2]. *)
Theorem bitmaps_scaled_and_centered onProgress (files : list File) (w w' : World)
    (merged : list PDFPage) (page : PDFPage) (image : PDFImage)
    (options : ImageOptions) :
  mergeFilesToPdf files onProgress w = (Ok merged, w') →
  page ∈ merged →
  DrawImage image options ∈ ops page →
  let pageWidth := width (pageSize page) in
  let pageHeight := height (pageSize page) in
  let imageWidth := width (PDFImage_scale image (lit 1)) in
  let imageHeight := height (PDFImage_scale image (lit 1)) in
  let scale := nmin (ndiv pageWidth imageWidth) (ndiv pageHeight imageHeight) in
  i_width options = nmul imageWidth scale ∧
  i_height options = nmul imageHeight scale ∧
  i_x options = ndiv (nsub pageWidth (nmul imageWidth scale)) (lit 2) ∧
  i_y options = ndiv (nsub pageHeight (nmul imageHeight scale)) (lit 2).
Proof.
  intros Hrun Hpage Hop.
  destruct (mergeFilesToPdf_returned _ _ _ _ _ Hrun) as (_ & _ & ->).
  pose proof (saved_fitted _ (pagesOf_fitted files)) as Hfit.
  rewrite Forall_forall in Hfit.
  by rewrite (Hfit page Hpage image options Hop).
Qed.

End Document.

(** A run of the small host that ends normally returned [Toy.merged]. *)
Lemma toy_returned (createOk : bool) (files : list File) :
  (if (Toy.run createOk files).1 is Ok _ then true else false) = true →
  @mergeFilesToPdf (Toy.host createOk) files (Some Toy.remember) (Toy.start createOk)
  = (Ok (Toy.merged createOk files), Toy.left createOk files).
Proof.
  unfold Toy.merged, Toy.left, Toy.run.
  by destruct (mergeFilesToPdf _ _ _) as [[pages|e] w'].
Qed.

Lemma toy_batch_returned :
  @mergeFilesToPdf (Toy.host true) Toy.batch (Some Toy.remember) (Toy.start true)
  = (Ok (Toy.merged true Toy.batch), Toy.left true Toy.batch).
Proof. apply toy_returned. vm_compute. reflexivity. Qed.

(** The three statements on a batch of eight files of every kind. *)
Lemma merged_page_count_witness :
  @mergeFilesToPdf (Toy.host true) Toy.batch (Some Toy.remember) (Toy.start true)
  = (Ok (Toy.merged true Toy.batch), Toy.left true Toy.batch) ∧
  sum_list (@pageCount (Toy.host true) <$> Toy.batch) = 9 ∧
  length (Toy.merged true Toy.batch) = 9.
Proof.
  assert (sum_list (@pageCount (Toy.host true) <$> Toy.batch) = 9) as Hsum
    by (vm_compute; reflexivity).
  split; [exact toy_batch_returned|]. split; [exact Hsum|].
  destruct (merged_page_count _ _ _ _ _ toy_batch_returned) as [Hcount _].
  rewrite Hsum in Hcount. apply Hcount. discriminate.
Defined.

(** C2 as stated fails for the empty list: no file, and a document of one
    page. *)
Lemma empty_list_merges_to_one_page :
  (Toy.run true []).1 = Ok [newPage] ∧
  length (Toy.merged true []) = 1 ∧
  sum_list (@pageCount (Toy.host true) <$> []) = 0 ∧
  length (Toy.merged true []) ≠ sum_list (@pageCount (Toy.host true) <$> []).
Proof. repeat split; vm_compute; (reflexivity || discriminate). Qed.

Lemma merged_page_order_witness :
  @mergeFilesToPdf (Toy.host true) Toy.batch (Some Toy.remember) (Toy.start true)
  = (Ok (Toy.merged true Toy.batch), Toy.left true Toy.batch) ∧
  ∃ runs, Forall2 (@contributes (Toy.host true)) Toy.batch runs ∧
          (concat runs ≠ [] → Toy.merged true Toy.batch = concat runs) ∧
          (concat runs = [] → Toy.merged true Toy.batch = [newPage]).
Proof.
  split; [exact toy_batch_returned|].
  exact (merged_page_order _ _ _ _ _ toy_batch_returned).
Defined.

(** The runs are tied to their files: for [[a.png; c.gif]], the notice of
    the GIF followed by the page of the PNG is not what the files
    contribute. *)
Lemma swapped_runs_rejected :
  ¬ Forall2 (@contributes (Toy.host true)) [Toy.png; Toy.gif]
      [[placeholder "Unsupported image: c.gif"]; [Toy.pngPage]].
Proof.
  intros Hruns. apply Forall2_cons_1 in Hruns as [[Hrun _] _].
  vm_compute in Hrun. discriminate.
Qed.

(** C3 as stated fails for a PDF without pages: the document that is
    returned has a page, and it is not a page of the file. *)
Lemma pageless_pdf_merges_to_one_page :
  @PDFDocument_load (Toy.host true) (content Toy.emptyPdf) = Ok [] ∧
  (Toy.run true [Toy.emptyPdf]).1 = Ok [newPage] ∧
  ¬ ∃ runs, Toy.merged true [Toy.emptyPdf] = concat runs ∧
            Forall2 (@contributes (Toy.host true)) [Toy.emptyPdf] runs.
Proof.
  split; [reflexivity|]. split; [vm_compute; reflexivity|].
  intros (runs & Hmerged & Hruns).
  apply Forall2_cons_inv_l in Hruns as (run & rest & [Hrun _] & Hrest & ->).
  apply Forall2_nil_inv_l in Hrest as ->.
  rewrite Hrun in Hmerged. vm_compute in Hmerged. discriminate.
Qed.

(** The 50 by 50 PNG on the letter page of the small host. *)
Lemma bitmaps_scaled_and_centered_witness :
  @mergeFilesToPdf (Toy.host true) Toy.batch (Some Toy.remember) (Toy.start true)
  = (Ok (Toy.merged true Toy.batch), Toy.left true Toy.batch) ∧
  Toy.pngPage ∈ Toy.merged true Toy.batch ∧
  DrawImage (Toy.pngImage : @PDFImage (Toy.host true)) Toy.pngOptions ∈ ops Toy.pngPage ∧
  i_width Toy.pngOptions = Qmult 50 (Qmin (Qdiv 612 50) (Qdiv 792 50)) ∧
  i_height Toy.pngOptions = Qmult 50 (Qmin (Qdiv 612 50) (Qdiv 792 50)) ∧
  i_x Toy.pngOptions
    = Qdiv (Qminus 612 (Qmult 50 (Qmin (Qdiv 612 50) (Qdiv 792 50)))) 2 ∧
  i_y Toy.pngOptions
    = Qdiv (Qminus 792 (Qmult 50 (Qmin (Qdiv 612 50) (Qdiv 792 50)))) 2.
Proof.
  assert (Toy.pngPage ∈ Toy.merged true Toy.batch) as Hpage.
  { apply list_elem_of_lookup. exists 0. vm_compute. reflexivity. }
  assert (DrawImage (Toy.pngImage : @PDFImage (Toy.host true)) Toy.pngOptions
          ∈ ops Toy.pngPage) as Hop by apply list_elem_of_here.
  split; [exact toy_batch_returned|]. split; [exact Hpage|]. split; [exact Hop|].
  exact (bitmaps_scaled_and_centered _ _ _ _ _ _ _ _ toy_batch_returned Hpage Hop).
Defined.

Section Placeholders.
Context `{Host}.
Implicit Types (onProgress : option (string → AppState → AppState)).

(** A file that lets no exception escape is processed to the end, and adds
    the pages of its contribution. *)
Lemma processFile_ok (file : File) (w : World) :
  (contribution file).2 = None →
  ∃ w', processFile file w = (Ok tt, w') ∧
        doc w' = doc w ++ (contribution file).1.
Proof.
  intros Hnone. destruct (processFile_run file w) as (Hr & Hd & _).
  destruct (processFile file w) as [r w']. cbn [fst snd] in *.
  rewrite Hnone in Hr. cbn in Hr. subst r. by exists w'.
Qed.

(** A file that lets an exception escape has added the pages of its
    contribution before. *)
Lemma processFile_escapes (file : File) (e : Exn) (w : World) :
  (contribution file).2 = Some e →
  ∃ w', processFile file w = (Throw e, w') ∧
        doc w' = doc w ++ (contribution file).1.
Proof.
  intros Hsome. destruct (processFile_run file w) as (Hr & Hd & _).
  destruct (processFile file w) as [r w']. cbn [fst snd] in *.
  rewrite Hsome in Hr. cbn in Hr. subst r. by exists w'.
Qed.

Lemma contribution_unsupported_image (file : File) :
  startsWith (type file) "image/" = true →
  type file ≠ "image/jpeg" → type file ≠ "image/png" →
  contribution file = noticed ("Unsupported image: " +:+ name file).
Proof.
  intros Himage Hjpeg Hpng. unfold contribution, kindOf.
  by rewrite Himage, !bool_decide_eq_false_2.
Qed.

Lemma contribution_corrupt_pdf (file : File) (e : Exn) :
  type file = "application/pdf" → PDFDocument_load (content file) = Throw e →
  contribution file = noticed ("Could not load PDF: " +:+ name file).
Proof.
  intros Htype Hload. unfold contribution. by rewrite kindOf_pdf, Hload.
Qed.

(** A file whose declared type starts with [image/] and is neither
    [image/jpeg] nor [image/png], with a notice that the standard font can
    encode, adds exactly one placeholder page, whose notice is
    [Unsupported image: ] followed by the name of the file, and its
    processing returns normally. *)
Lemma unsupported_image_placeholder (file : File) (w : World) :
  startsWith (type file) "image/" = true →
  type file ≠ "image/jpeg" →
  type file ≠ "image/png" →
  encodeText ("Unsupported image: " +:+ name file) = Ok tt →
  ∃ w',
    processFile file w = (Ok tt, w') ∧
    doc w' = doc w ++ [placeholder ("Unsupported image: " +:+ name file)] ∧
    includes ("Unsupported image: " +:+ name file) (name file) = true.
Proof.
  intros Himage Hjpeg Hpng Hname.
  pose proof (contribution_unsupported_image file Himage Hjpeg Hpng) as Hc.
  rewrite noticed_Ok in Hc by done.
  destruct (processFile_ok file w) as (w' & Hrun & Hdoc); [by rewrite Hc|].
  exists w'. rewrite Hc in Hdoc. split; [done|]. split; [done|].
  apply includes_append.
Qed.

(** With a notice that the standard font cannot encode, the exception of
    [drawText] escapes, and the page that was added stays blank. *)
Lemma unsupported_image_escapes (file : File) (e : Exn) (w : World) :
  startsWith (type file) "image/" = true →
  type file ≠ "image/jpeg" →
  type file ≠ "image/png" →
  encodeText ("Unsupported image: " +:+ name file) = Throw e →
  ∃ w', processFile file w = (Throw e, w') ∧ doc w' = doc w ++ [newPage].
Proof.
  intros Himage Hjpeg Hpng Hname.
  pose proof (contribution_unsupported_image file Himage Hjpeg Hpng) as Hc.
  rewrite (noticed_Throw _ e) in Hc by done.
  destruct (processFile_escapes file e w) as (w' & Hrun & Hdoc); [by rewrite Hc|].
  exists w'. by rewrite Hc in Hdoc.
Qed.

End Placeholders.

(** A GIF with a name in ASCII. *)
Lemma unsupported_image_placeholder_example :
  ∃ w',
    @processFile (Toy.host true) Toy.gif (Toy.start true) = (Ok tt, w') ∧
    doc w' = doc (Toy.start true) ++ [placeholder "Unsupported image: c.gif"] ∧
    includes "Unsupported image: c.gif" "c.gif" = true.
Proof.
  apply (unsupported_image_placeholder Toy.gif (Toy.start true));
    [reflexivity|discriminate|discriminate|reflexivity].
Qed.

(** C7 on the code. A batch whose second file is declared [image/gif] and
    bears a name in Arabic letters: the notice [Unsupported image: ] with
    that name cannot be drawn, the call throws the exception of [drawText]
    to its caller although the document was created; the document holds the
    page of the first file and a blank page without any notice; the third
    file is never announced nor processed. *)
Theorem unsupported_image_notice_aborts_batch :
  startsWith (type Toy.arabicGif) "image/" = true ∧
  type Toy.arabicGif ≠ "image/jpeg" ∧
  type Toy.arabicGif ≠ "image/png" ∧
  (Toy.run true [Toy.arabicGif]).1 = Throw encodingError ∧
  (Toy.run true Toy.arabicGifBatch).1 = Throw encodingError ∧
  notices <$> doc (Toy.left true Toy.arabicGifBatch) = [[]; []] ∧
  announced (trace (Toy.left true Toy.arabicGifBatch)) = ["a.png"; "صورة.gif"] ∧
  (@PDFDocument_create (Toy.host true)) = Ok tt.
Proof.
  split; [reflexivity|]. split; [discriminate|]. split; [discriminate|].
  repeat split; vm_compute; reflexivity.
Qed.

Section Isolation.
Context `{Host}.
Implicit Types (onProgress : option (string → AppState → AppState)).

Lemma completed_none (files : list File) :
  (completed files).2 = None ↔ Forall (λ file, (contribution file).2 = None) files.
Proof.
  induction files as [|file rest IH]; cbn; [by split|].
  destruct (contribution file).2 eqn:Hc.
  - split; [done|]. intros Hall. apply Forall_cons in Hall as [Hfile _]. congruence.
  - destruct (completed rest) as [reached e]. cbn in *.
    rewrite IH. split; [by constructor|]. intros Hall. by apply Forall_cons in Hall as [_ ?].
Qed.

(** The call returns the pages of the files (one blank page when they
    have none) whenever the document can be created and no file lets an
    exception escape. *)
Lemma mergeFilesToPdf_returns onProgress (files : list File) (w : World) :
  PDFDocument_create = Ok tt →
  Forall (λ file, (contribution file).2 = None) files →
  ∃ w', mergeFilesToPdf files onProgress w = (Ok (saved (pagesOf files)), w').
Proof.
  intros Hcreate Hall. apply completed_none in Hall.
  destruct (mergeFilesToPdf_run onProgress files w Hcreate) as (Hr & _).
  destruct (mergeFilesToPdf files onProgress w) as [r w']. cbn [fst] in Hr.
  rewrite Hall in Hr. subst r. by exists w'.
Qed.

(** A file declared [application/pdf] whose bytes do not parse, with a
    notice that the standard font can encode, adds exactly one placeholder page,
    with the notice [Could not load PDF: ] followed by its name, and does
    not disturb the files around it: a batch that merges without it merges
    with it, to the pages of the files before it, that one page, and the
    pages of the files after it. *)
Lemma corrupt_pdf_placeholder onProgress (file : File) (e : Exn) (w : World) :
  type file = "application/pdf" →
  PDFDocument_load (content file) = Throw e →
  encodeText ("Could not load PDF: " +:+ name file) = Ok tt →
  (∃ w',
     processFile file w = (Ok tt, w') ∧
     doc w' = doc w ++ [placeholder ("Could not load PDF: " +:+ name file)]) ∧
  (∀ (before after : list File) (merged : list PDFPage) (w' : World),
     mergeFilesToPdf (before ++ after) onProgress w = (Ok merged, w') →
     (pagesOf before ++ pagesOf after ≠ [] →
      merged = pagesOf before ++ pagesOf after) ∧
     ∃ w'',
       mergeFilesToPdf (before ++ file :: after) onProgress w =
         (Ok (pagesOf before
              ++ [placeholder ("Could not load PDF: " +:+ name file)]
              ++ pagesOf after), w'')).
Proof.
  intros Htype Hload Hname.
  pose proof (contribution_corrupt_pdf file e Htype Hload) as Hc.
  rewrite noticed_Ok in Hc by done. split.
  { destruct (processFile_ok file w) as (w' & Hrun & Hdoc); [by rewrite Hc|].
    exists w'. by rewrite Hc in Hdoc. }
  intros before after merged w' Hrun.
  destruct (mergeFilesToPdf_returned _ _ _ _ _ Hrun) as (Hcreate & Hnone & ->).
  split; [rewrite pagesOf_app; apply saved_pages|].
  apply completed_none, Forall_app in Hnone as [Hbefore Hafter].
  destruct (mergeFilesToPdf_returns onProgress (before ++ file :: after) w Hcreate)
    as (w'' & Hrun'').
  { apply Forall_app. split; [done|]. constructor; [by rewrite Hc|done]. }
  exists w''. rewrite Hrun''. do 2 f_equal.
  rewrite !pagesOf_app, pagesOf_cons, Hc. cbn [fst].
  apply saved_pages. by destruct (pagesOf before).
Qed.

(** With a notice that the standard font cannot encode, the exception of
    [drawText] escapes from the handler of the load error, and the page
    that the handler added stays blank. *)
Lemma corrupt_pdf_escapes (file : File) (e e' : Exn) (w : World) :
  type file = "application/pdf" →
  PDFDocument_load (content file) = Throw e →
  encodeText ("Could not load PDF: " +:+ name file) = Throw e' →
  ∃ w', processFile file w = (Throw e', w') ∧ doc w' = doc w ++ [newPage].
Proof.
  intros Htype Hload Hname.
  pose proof (contribution_corrupt_pdf file e Htype Hload) as Hc.
  rewrite (noticed_Throw _ e') in Hc by done.
  destruct (processFile_escapes file e' w) as (w' & Hrun & Hdoc); [by rewrite Hc|].
  exists w'. by rewrite Hc in Hdoc.
Qed.

End Isolation.

(** The scenario of the specification: the batch [[bad.pdf]], truncated. *)
Lemma corrupt_pdf_placeholder_example :
  ∃ w'',
    @mergeFilesToPdf (Toy.host true) [Toy.badPdf] (Some Toy.remember) (Toy.start true)
    = (Ok [placeholder "Could not load PDF: bad.pdf"], w'').
Proof.
  assert (@mergeFilesToPdf (Toy.host true) ([] ++ []) (Some Toy.remember) (Toy.start true)
          = (Ok [newPage], Toy.left true [])) as Hempty by reflexivity.
  destruct (@corrupt_pdf_placeholder (Toy.host true) (Some Toy.remember) Toy.badPdf
              "Error: No PDF header found" (Toy.start true)) as [_ Hrest];
    [reflexivity..|].
  exact (proj2 (Hrest [] [] _ _ Hempty)).
Qed.

(** C5 on the code. A truncated file declared [application/pdf] that bears
    a name in Arabic letters: the handler of the load error cannot draw the
    notice [Could not load PDF: ] with that name, so the call throws the
    exception of [drawText] to its caller, alone or in a batch; in the
    batch the document holds the page of the first file and a blank page
    without any notice, and the third file is never announced nor
    processed. *)
Theorem corrupt_pdf_notice_aborts_batch :
  type Toy.arabicPdf = "application/pdf" ∧
  @PDFDocument_load (Toy.host true) (content Toy.arabicPdf)
    = Throw "Error: No PDF header found" ∧
  (Toy.run true [Toy.arabicPdf]).1 = Throw encodingError ∧
  (Toy.run true Toy.arabicPdfBatch).1 = Throw encodingError ∧
  notices <$> doc (Toy.left true Toy.arabicPdfBatch) = [[]; []] ∧
  announced (trace (Toy.left true Toy.arabicPdfBatch)) = ["a.png"; "تقرير.pdf"] ∧
  (@PDFDocument_create (Toy.host true)) = Ok tt.
Proof. repeat split; vm_compute; reflexivity. Qed.

Section Rendering.
Context `{Host}.

Lemma filter_absent (n : nat) (b : list nat) :
  n ∉ b → filter (λ c, c ≠ n) b = b.
Proof.
  induction b as [|c b IH]; [done|]. intros Hfresh.
  apply not_elem_of_cons in Hfresh as [Hne Hfresh].
  rewrite filter_cons_True by done. by rewrite IH.
Qed.

(** C8. On every call of [embedHtmlAsImage] the container is positioned off
    the visible surface ([position: absolute], [left: -9999px]) when it is
    attached and rendered, and it is removed from [document.body] after the
    rendering, whether the rendering, the encoding and the embedding
    succeeded or one of them threw: the call always returns normally, the
    removal is the last thing it does, and the container is no child of
    the body afterwards. *)
Theorem container_offscreen_then_removed (htmlContent : string) (w : World) :
  ∃ w',
    embedHtmlAsImage htmlContent w = (Ok tt, w') ∧
    style (containerFor htmlContent) !! "position" = Some "absolute" ∧
    style (containerFor htmlContent) !! "left" = Some "-9999px" ∧
    trace w' = trace w
      ++ [EvAppendChild (nextNode w);
          EvRender (nextNode w) (containerFor htmlContent)
            (renderOptions (containerFor htmlContent))]
      ++ rasterEvents htmlContent
      ++ [EvRemoveChild (nextNode w)] ∧
    forallb quiet (rasterEvents htmlContent) = true ∧
    doc w' = doc w ++ [htmlPage htmlContent] ∧
    (nextNode w ∉ body w') ∧
    body w' = filter (λ c, c ≠ nextNode w) (body w) ∧
    (nextNode w ∉ body w → body w' = body w).
Proof.
  destruct (embedHtmlAsImage_run htmlContent w) as (w' & Hrun & Hdoc & _ & Hbody & Htrace).
  exists w'. split; [done|]. split; [done|]. split; [done|].
  split; [done|]. split; [apply rasterEvents_quiet|]. split; [done|].
  rewrite Hbody. split; [|split; [done|]].
  - intros Hin. by apply list_elem_of_filter in Hin as [? _].
  - apply filter_absent.
Qed.

End Rendering.

(** HTML that renders and HTML that the renderer refuses: the body is
    empty again after both; the second leaves the notice. *)
Lemma container_offscreen_then_removed_witness :
  body (@embedHtmlAsImage (Toy.host true) "<p>hi</p>" (Toy.start true)).2 = [] ∧
  body (@embedHtmlAsImage (Toy.host true) "<iframe>" (Toy.start true)).2 = [] ∧
  notices <$> doc (@embedHtmlAsImage (Toy.host true) "<p>hi</p>" (Toy.start true)).2
  = [[]] ∧
  notices <$> doc (@embedHtmlAsImage (Toy.host true) "<iframe>" (Toy.start true)).2
  = [["Failed to render Office document"]].
Proof.
  destruct (@container_offscreen_then_removed (Toy.host true) "<p>hi</p>" (Toy.start true))
    as (w1 & Hrun1 & _ & _ & _ & _ & Hdoc1 & _ & _ & Hbody1).
  destruct (@container_offscreen_then_removed (Toy.host true) "<iframe>" (Toy.start true))
    as (w2 & Hrun2 & _ & _ & _ & _ & Hdoc2 & _ & _ & Hbody2).
  rewrite Hrun1, Hrun2. cbn [snd]. rewrite Hdoc1, Hdoc2.
  split; [apply Hbody1, not_elem_of_nil|]. split; [apply Hbody2, not_elem_of_nil|].
  split; vm_compute; reflexivity.
Defined.

Section Progress.
Context `{Host}.

Lemma announced_app (t1 t2 : list Event) :
  announced (t1 ++ t2) = announced t1 ++ announced t2.
Proof. apply omap_app. Qed.

Lemma announced_processing (file : File) (seg : list Event) :
  processing file seg → announced seg = [].
Proof.
  intros (_ & Hquiet & _). induction Hquiet as [|e seg He _ IH]; [done|].
  by destruct e.
Qed.

Lemma interleave_cons (onProgress : option (string → AppState → AppState))
    (file : File) (files : list File) (seg : list Event) (segs : list (list Event)) :
  interleave onProgress (file :: files) (seg :: segs) =
    progressEvents onProgress file ++ seg ++ interleave onProgress files segs.
Proof. unfold interleave. cbn [zip_with concat]. by rewrite <- app_assoc. Qed.

Lemma announced_interleave (callback : string → AppState → AppState)
    (files : list File) (segs : list (list Event)) :
  Forall2 processing files segs →
  announced (interleave (Some callback) files segs) = name <$> files.
Proof.
  induction 1 as [|file seg files segs Hseg _ IH]; [done|].
  rewrite interleave_cons, !announced_app, (announced_processing file seg Hseg), IH.
  done.
Qed.

(** C9, as the code has it. A call with a progress callback that returns
    the merged document has called the callback exactly once for every
    input file, with the name of that file, in the order of the list, and
    each time before anything was done for that file and after everything
    was done for the file before it: between the creation of the document
    and [save], the trace is, file after file, the call of the callback
    followed by what the processing of that file does. *)
Theorem progress_once_before_each_file (callback : string → AppState → AppState)
    (files : list File) (w w' : World) (merged : list PDFPage) :
  mergeFilesToPdf files (Some callback) w = (Ok merged, w') →
  announced (trace w') = announced (trace w) ++ (name <$> files) ∧
  caller w' = foldl (λ seen file, callback (name file) seen) (caller w) files ∧
  ∃ segs : list (list Event),
    Forall2 processing files segs ∧
    trace w' = trace w
      ++ [EvCall "PDFDocument.create"]
      ++ concat (zip_with (λ file seg, EvProgress (name file) :: seg) files segs)
      ++ [EvCall "save"].
Proof.
  intros Hrun.
  destruct (mergeFilesToPdf_returned _ _ _ _ _ Hrun) as (Hcreate & Hnone & _).
  destruct (mergeFilesToPdf_run (Some callback) files w Hcreate)
    as (_ & _ & Hcaller & segs & Hsegs & Htrace).
  rewrite Hrun, Hnone, (completed_all files Hnone) in *. cbn [fst snd ending] in *.
  split; [|split; [done|]].
  - rewrite Htrace, !announced_app, announced_interleave by done.
    cbn. by rewrite app_nil_r.
  - by exists segs.
Qed.

End Progress.

(** The batch of eight files: eight calls, in order. *)
Lemma progress_once_before_each_file_witness :
  @mergeFilesToPdf (Toy.host true) Toy.batch (Some Toy.remember) (Toy.start true)
  = (Ok (Toy.merged true Toy.batch), Toy.left true Toy.batch) ∧
  announced (trace (Toy.left true Toy.batch))
  = ["a.png"; "b.pdf"; "bad.pdf"; "c.gif"; "Report.DOCX"; "framed.docx"; "t.xlsx";
     "notes.txt"] ∧
  caller (Toy.left true Toy.batch)
  = ["a.png"; "b.pdf"; "bad.pdf"; "c.gif"; "Report.DOCX"; "framed.docx"; "t.xlsx";
     "notes.txt"].
Proof.
  split; [exact toy_batch_returned|].
  destruct (@progress_once_before_each_file (Toy.host true) Toy.remember _ _ _ _
              toy_batch_returned) as (Hnames & Hcaller & _).
  split; [exact Hnames|exact Hcaller].
Defined.

(** C9 as stated fails when [PDFDocument.create()] throws: the call ends
    before the loop, and the callback is not called for the one file of
    the list. *)
Lemma progress_not_called_when_create_fails :
  (Toy.run false [Toy.txt]).1 = Throw "TypeError: PDFLib is undefined" ∧
  announced (trace (Toy.left false [Toy.txt])) = [] ∧
  announced (trace (Toy.left false [Toy.txt])) ≠ name <$> [Toy.txt].
Proof.
  assert (announced (trace (Toy.left false [Toy.txt])) = []) as Hnone
    by (vm_compute; reflexivity).
  split; [vm_compute; reflexivity|]. split; [exact Hnone|].
  rewrite Hnone. discriminate.
Qed.

Section Notices.
Context `{Host}.

(** The contribution of a file that fails: the placeholder with its
    notice, unless the notice names the file and cannot be encoded. *)
Lemma contribution_failure (file : File) (failure : Failure) :
  failureOf file = Some failure →
  contribution file =
    match failure with
    | RasterizationFailed => ([placeholder (placeholderText file failure)], None)
    | _ => noticed (placeholderText file failure)
    end.
Proof.
  unfold failureOf, contribution, officeFailure, htmlPage, placeholderText, noticeOf.
  destruct (kindOf file);
    repeat match goal with
           | |- context [match ?r with Ok _ => _ | Throw _ => _ end] => destruct r
           | |- context [bool_decide ?P] => destruct (bool_decide P)
           end;
    cbn; try discriminate; by intros [= <-].
Qed.



Lemma contribution_unencodable (file : File) (failure : Failure) (e : Exn) :
  failureOf file = Some failure →
  failure ≠ RasterizationFailed →
  encodeText (noticeOf file) = Throw e →
  contribution file = ([newPage], Some e).
Proof.
  intros Hfailure Hkind Hname.
  rewrite (contribution_failure file failure Hfailure).
  by destruct failure; try done; apply noticed_Throw.
Qed.

(** A file that fails in one of the ways that make [mergeFilesToPdf] draw
    a notice with the name of the file, a notice that the standard font
    cannot encode, gets no notice: the exception of [drawText] escapes and
    the page that was added stays blank. *)
Lemma unencodable_notice_escapes (file : File) (failure : Failure) (e : Exn)
    (w : World) :
  failureOf file = Some failure →
  failure ≠ RasterizationFailed →
  encodeText (noticeOf file) = Throw e →
  ∃ w', processFile file w = (Throw e, w') ∧ doc w' = doc w ++ [newPage].
Proof.
  intros Hfailure Hkind Hname.
  pose proof (contribution_unencodable file failure e Hfailure Hkind Hname) as Hc.
  destruct (processFile_escapes file e w) as (w' & Hrun & Hdoc); [by rewrite Hc|].
  exists w'. by rewrite Hc in Hdoc.
Qed.

(** What lets an exception escape from the processing of a file: the
    decoding of a JPEG or a PNG, or the drawing of a notice that the
    standard font cannot encode. *)
Lemma escape_causes (file : File) (e : Exn) :
  (contribution file).2 = Some e →
  (type file = "image/jpeg" ∧ embedJpg (content file) = Throw e) ∨
  (type file = "image/png" ∧ embedPng (content file) = Throw e) ∨
  encodeText (noticeOf file) = Throw e.
Proof.
  assert (∀ text, (noticed text).2 = Some e → encodeText text = Throw e) as Hnotice.
  { intros text. unfold noticed. destruct (encodeText text); cbn; congruence. }
  unfold contribution, noticeOf. unfold kindOf at 1.
  destruct (startsWith (type file) "image/") eqn:Himage; cbn.
  - destruct (bool_decide_reflect (type file = "image/jpeg")) as [Hjpeg|_].
    { destruct (embedJpg _) eqn:Hembed; cbn; [done|]. intros [= ->]. eauto. }
    destruct (bool_decide_reflect (type file = "image/png")) as [Hpng|_].
    { destruct (embedPng _) eqn:Hembed; cbn; [done|]. intros [= ->]. eauto. }
    intros Hc. right. right. unfold kindOf. rewrite Himage. by apply Hnotice.
  - unfold kindOf. rewrite Himage.
    repeat match goal with
           | |- context [match ?r with Ok _ => _ | Throw _ => _ end] => destruct r
           | |- context [if ?c then _ else _] => destruct c
           end; cbn; try done;
      intros Hc; right; right; by apply Hnotice.
Qed.

(** A file that is not declared an image and has a notice that the
    standard font can encode is processed to the end. *)
Lemma contribution_completes (file : File) :
  startsWith (type file) "image/" = false →
  encodeText (noticeOf file) = Ok tt →
  (contribution file).2 = None.
Proof.
  intros Himage Hname. destruct (contribution file).2 as [e|] eqn:Hc; [|done].
  apply escape_causes in Hc as [[Htype _]|[[Htype _]|Hthrow]].
  - by rewrite Htype in Himage.
  - by rewrite Htype in Himage.
  - congruence.
Qed.

Lemma completed_escape (before after : list File) (file : File) (e : Exn) :
  Forall (λ f, (contribution f).2 = None) before →
  (contribution file).2 = Some e →
  completed (before ++ file :: after) = (before ++ [file], Some e).
Proof.
  intros Hbefore Hfile.
  induction Hbefore as [|f before Hf _ IH]; cbn; [by rewrite Hfile|].
  by rewrite Hf, IH.
Qed.

(** A file that fails in a way for which [mergeFilesToPdf] draws a notice
    with the name of the file (an unsupported kind, a source that does not
    parse, a conversion that fails), a notice that the standard font
    cannot encode, ends the whole call, for every host: after files that
    are not declared images and have notices that the font can encode, the
    exception of [drawText] is thrown to the caller, the document has the
    pages of the files before and a blank page, and the files after it are
    not announced. *)
Theorem unencodable_name_aborts_batch (callback : string → AppState → AppState)
    (before after : list File) (file : File) (failure : Failure) (e : Exn)
    (w : World) :
  PDFDocument_create = Ok tt →
  Forall (λ f, startsWith (type f) "image/" = false
               ∧ encodeText (noticeOf f) = Ok tt) before →
  failureOf file = Some failure →
  failure ≠ RasterizationFailed →
  encodeText (noticeOf file) = Throw e →
  ∃ w',
    mergeFilesToPdf (before ++ file :: after) (Some callback) w = (Throw e, w') ∧
    doc w' = pagesOf before ++ [newPage] ∧
    announced (trace w') = announced (trace w) ++ (name <$> before) ++ [name file].
Proof.
  intros Hcreate Hbefore Hfailure Hkind Hname.
  pose proof (contribution_unencodable file failure e Hfailure Hkind Hname) as Hc.
  assert (Forall (λ f, (contribution f).2 = None) before) as Hcompleted.
  { eapply Forall_impl; [exact Hbefore|]. intros f [? ?].
    by apply contribution_completes. }
  destruct (mergeFilesToPdf_run (Some callback) (before ++ file :: after) w Hcreate)
    as (Hr & Hd & _ & segs & Hsegs & Ht).
  rewrite (completed_escape before after file e) in * by (by rewrite ?Hc).
  destruct (mergeFilesToPdf (before ++ file :: after) (Some callback) w) as [r w'].
  cbn [fst snd ending] in *. subst r. exists w'. split; [done|]. split.
  - by rewrite Hd, pagesOf_app, pagesOf_cons, Hc.
  - rewrite Ht, !announced_app, announced_interleave by done.
    cbn. by rewrite app_nil_r, fmap_app.
Qed.

(** What escapes from the image branch: a file declared [image/jpeg] whose
    bytes [embedJpg] rejects ends the processing with that exception, after
    the blank page was added. *)
Lemma undecodable_jpeg_escapes (file : File) (e : Exn) (w : World) :
  type file = "image/jpeg" → embedJpg (content file) = Throw e →
  ∃ w', processFile file w = (Throw e, w') ∧ doc w' = doc w ++ [newPage].
Proof.
  intros Htype Hembed. destruct (processFile_run file w) as (Hr & Hd & _).
  destruct (processFile file w) as [r w']. cbn [fst snd] in *.
  assert (contribution file = ([newPage], Some e)) as Hc.
  { unfold contribution, kindOf. rewrite Htype, Hembed. done. }
  rewrite Hc in Hr, Hd. cbn in Hr. subst r. by exists w'.
Qed.

End Notices.

(** A PDF and a Word file, then the GIF that bears a name in Arabic
    letters, then a text file. *)
Lemma unencodable_name_aborts_batch_witness :
  @PDFDocument_create (Toy.host true) = Ok tt ∧
  Forall (λ f, startsWith (type f) "image/" = false
               ∧ @encodeText (Toy.host true) (noticeOf f) = Ok tt) [Toy.pdf2; Toy.docx] ∧
  @failureOf (Toy.host true) Toy.arabicGif = Some UnsupportedKind ∧
  @encodeText (Toy.host true) (noticeOf Toy.arabicGif) = Throw encodingError ∧
  ∃ w',
    @mergeFilesToPdf (Toy.host true) ([Toy.pdf2; Toy.docx] ++ Toy.arabicGif :: [Toy.txt])
      (Some Toy.remember) (Toy.start true) = (Throw encodingError, w') ∧
    doc w' = pagesOf [Toy.pdf2; Toy.docx] ++ [newPage] ∧
    announced (trace w') = [] ++ ["b.pdf"; "Report.DOCX"] ++ ["صورة.gif"].
Proof.
  assert (@PDFDocument_create (Toy.host true) = Ok tt) as Hcreate by reflexivity.
  assert (Forall (λ f, startsWith (type f) "image/" = false
                       ∧ @encodeText (Toy.host true) (noticeOf f) = Ok tt)
            [Toy.pdf2; Toy.docx]) as Hbefore by (by repeat constructor).
  assert (@failureOf (Toy.host true) Toy.arabicGif = Some UnsupportedKind)
    as Hfailure by reflexivity.
  assert (@encodeText (Toy.host true) (noticeOf Toy.arabicGif) = Throw encodingError)
    as Hname by reflexivity.
  do 4 (split; [assumption|]).
  exact (@unencodable_name_aborts_batch (Toy.host true) Toy.remember
           [Toy.pdf2; Toy.docx] [Toy.txt] Toy.arabicGif UnsupportedKind encodingError
           (Toy.start true) Hcreate Hbefore Hfailure ltac:(discriminate) Hname).
Defined.



(** C1 on the code. A batch whose second file is declared [image/jpeg] and
    does not decode: the call throws the decoder's exception to its caller;
    the document holds the page of the first file and a blank page without
    any notice; the third file is never announced nor processed. *)
Theorem undecodable_image_aborts_batch :
  (Toy.run true Toy.brokenBatch).1 = Throw "Error: SOI not found in JPEG" ∧
  length (doc (Toy.left true Toy.brokenBatch)) = 2 ∧
  notices <$> doc (Toy.left true Toy.brokenBatch) = [[]; []] ∧
  announced (trace (Toy.left true Toy.brokenBatch)) = ["a.png"; "bad.jpg"] ∧
  (@PDFDocument_create (Toy.host true)) = Ok tt.
Proof. repeat split; vm_compute; reflexivity. Qed.

(** ** The scaling rule over the rationals

    What the formulas of C6 mean when numbers are exact: the drawn bitmap
    keeps the aspect ratio of the image, has equal margins left and right
    and equal margins below and above, and does not exceed the page. *)
Lemma fit_rationals (page image : Size Q) :
  (0 < width image)%Q → (0 < height image)%Q →
  let o := @fit (Toy.host true) page image in
  (i_width o * height image == i_height o * width image)%Q ∧
  (i_x o + i_width o + i_x o == width page)%Q ∧
  (i_y o + i_height o + i_y o == height page)%Q ∧
  (i_width o <= width page)%Q ∧
  (i_height o <= height page)%Q.
Proof.
  destruct page as [pw ph], image as [iw ih]. cbn [width height].
  intros Hw Hh. unfold fit, fitScale. cbn.
  set (s := Qmin (pw / iw) (ph / ih)).
  assert (s <= pw / iw)%Q as Hsw by apply Q.le_min_l.
  assert (s <= ph / ih)%Q as Hsh by apply Q.le_min_r.
  split; [ring|]. split; [field|]. split; [field|].
  split.
  - assert (iw * (pw / iw) == pw)%Q as E by (field; lra).
    rewrite <- E. by apply Qmult_le_l.
  - assert (ih * (ph / ih) == ph)%Q as E by (field; lra).
    rewrite <- E. by apply Qmult_le_l.
Qed.

(** * The file list of [App] *)

(** ** Facts about arrays *)

Section ArrayFacts.
Context {A : Type}.
Implicit Types (compare : A → A → Z) (a : list A).

Lemma insertSorted_Permutation compare x a :
  JsArray.insertSorted compare x a ≡ₚ x :: a.
Proof.
  induction a as [|y a IH]; [done|]. cbn.
  destruct (compare x y <=? 0)%Z; [done|]. rewrite IH. apply Permutation_swap.
Qed.

Lemma sort_cons compare x a :
  JsArray.sort compare (x :: a) = JsArray.insertSorted compare x (JsArray.sort compare a).
Proof. done. Qed.

Lemma sort_Permutation compare a : JsArray.sort compare a ≡ₚ a.
Proof.
  induction a as [|x a IH]; [done|].
  by rewrite sort_cons, insertSorted_Permutation, IH.
Qed.

Lemma insertSorted_Sorted compare x a :
  JsArray.decisive compare →
  Sorted (JsArray.before compare) a → Sorted (JsArray.before compare) (JsArray.insertSorted compare x a).
Proof.
  intros Hdec. induction 1 as [|y a Hsorted IH Hhd]; cbn; [by repeat constructor|].
  destruct (Z.leb_spec (compare x y) 0) as [Hle|Hgt].
  { constructor; [by constructor|]. by constructor. }
  constructor; [done|].
  destruct Hhd as [|z a Hyz]; cbn.
  - constructor. by apply Hdec.
  - destruct (compare x z <=? 0)%Z; constructor; [by apply Hdec|done].
Qed.

Lemma sort_Sorted compare a :
  JsArray.decisive compare → Sorted (JsArray.before compare) (JsArray.sort compare a).
Proof.
  intros Hdec. induction a as [|x a IH]; [constructor|].
  rewrite sort_cons. by apply insertSorted_Sorted.
Qed.

Lemma sort_sorted compare a :
  Sorted (JsArray.before compare) a → JsArray.sort compare a = a.
Proof.
  induction 1 as [|x a _ IH Hhd]; [done|]. rewrite sort_cons, IH.
  destruct Hhd as [|y a Hxy]; [done|]. cbn.
  unfold JsArray.before in Hxy. by destruct (Z.leb_spec (compare x y) 0); [|lia].
Qed.

(** Stability: the elements of one key stay in their order, when elements
    of one key compare as equal. *)
Lemma insertSorted_filter compare (P : A → Prop) `{∀ x, Decision (P x)} x a :
  (∀ y, P x → P y → (compare x y ≤ 0)%Z) →
  filter P (JsArray.insertSorted compare x a) = filter P (x :: a).
Proof.
  intros Heq. induction a as [|y a IH]; [done|]. cbn.
  destruct (Z.leb_spec (compare x y) 0) as [Hle|Hgt]; [done|].
  rewrite !filter_cons in *. destruct (decide (P y)) as [Hy|Hy].
  - destruct (decide (P x)) as [Hx|Hx]; [specialize (Heq y Hx Hy); lia|].
    by rewrite IH.
  - done.
Qed.

Lemma sort_filter compare (P : A → Prop) `{∀ x, Decision (P x)} a :
  (∀ x y, P x → P y → (compare x y ≤ 0)%Z) →
  filter P (JsArray.sort compare a) = filter P a.
Proof.
  intros Heq. induction a as [|x a IH]; [done|].
  rewrite sort_cons, insertSorted_filter by (intros; by apply Heq).
  rewrite !filter_cons. by rewrite IH.
Qed.

Lemma filter_all (P : A → Prop) `{∀ x, Decision (P x)} (l : list A) :
  Forall P l → filter P l = l.
Proof.
  induction 1 as [|x l Hx _ IH]; [done|].
  by rewrite filter_cons_True, IH.
Qed.

Lemma filter_none (P : A → Prop) `{∀ x, Decision (P x)} (l : list A) :
  Forall (λ x, ¬ P x) l → filter P l = [].
Proof.
  induction 1 as [|x l Hx _ IH]; [done|].
  by rewrite filter_cons_False.
Qed.

Lemma splice_delete (i : nat) (x : A) (l : list A) :
  l !! i = Some x →
  JsArray.splice (Z.of_nat i) 1 [] l = ([x], delete i l).
Proof.
  intros Hx. pose proof (lookup_lt_Some _ _ _ Hx) as Hi.
  unfold JsArray.splice, JsArray.relativeStart.
  destruct (Z.ltb_spec (Z.of_nat i) 0); [lia|].
  rewrite Nat2Z.id, !Nat.min_l by lia.
  rewrite (drop_S _ _ _ Hx). cbn. f_equal.
  by rewrite delete_take_drop, Nat.add_1_r.
Qed.

Lemma splice_insert (i : nat) (x : A) (l : list A) :
  i ≤ length l →
  JsArray.splice (Z.of_nat i) 0 [x] l = ([], take i l ++ x :: drop i l).
Proof.
  intros Hi. unfold JsArray.splice, JsArray.relativeStart.
  destruct (Z.ltb_spec (Z.of_nat i) 0); [lia|].
  rewrite Nat2Z.id, !Nat.min_l by lia. cbn.
  by rewrite take_0, Nat.add_0_r.
Qed.

Lemma insert_at (i : nat) (x : A) (l : list A) :
  i ≤ length l →
  (take i l ++ x :: drop i l) !! i = Some x
  ∧ delete i (take i l ++ x :: drop i l) = l
  ∧ take i l ++ x :: drop i l ≡ₚ x :: l.
Proof.
  intros Hi.
  assert (i = length (take i l)) as Hlen by (rewrite length_take; lia).
  pose proof (take_drop i l) as Hl.
  revert Hlen Hl. generalize (take i l) (drop i l). intros l1 l2 -> <-.
  split; [by apply list_lookup_middle|]. split; [apply delete_middle|].
  symmetry. apply Permutation_middle.
Qed.

Lemma splice_head (i n : nat) (items : list A) (x : A) (l : list A) :
  i ≠ 0 → ∃ l', (JsArray.splice (Z.of_nat i) n items (x :: l)).2 = x :: l'.
Proof.
  intros Hi. unfold JsArray.splice, JsArray.relativeStart.
  destruct (Z.ltb_spec (Z.of_nat i) 0); [lia|]. rewrite Nat2Z.id.
  destruct (Nat.min i (length (x :: l))) as [|k] eqn:Hk; [cbn in Hk; lia|].
  cbn. by eexists.
Qed.

End ArrayFacts.

(** ** The handlers of the list *)

Section FileList.
Import App.
Variable localeCompare : string → string → Z.
Implicit Types (f : Upload) (fs : list Upload) (p : option string).
Implicit Types (c : SortCriteria) (o : SortOrder) (st : State).

Lemma sortFiles_parts c o fs p :
  sortFiles localeCompare c o fs p
  = pinnedPart p fs ++ JsArray.sort (comparator localeCompare c o) (sortedPart p fs).
Proof.
  unfold sortFiles, sortedPart, pinnedPart, JsArray.find.
  destruct (truthy p); [|done].
  by destruct (filter _ fs) as [|f more].
Qed.

Lemma parts_Permutation p fs :
  length (filter (λ f, Some (fileName f) = p) fs) ≤ 1 → pinnedPart p fs ++ sortedPart p fs ≡ₚ fs.
Proof.
  intros Hone. unfold sortedPart, pinnedPart.
  destruct (truthy p); [|done].
  pose proof (filter_app_complement (λ f, Some (fileName f) = p) fs) as Hfs.
  destruct (filter (λ f, Some (fileName f) = p) fs) as [|f [|g more]]; cbn in *; [done|done|lia].
Qed.

Lemma comparator_decisive c o :
  (c = ByName → consistent localeCompare) →
  JsArray.decisive (comparator localeCompare c o).
Proof.
  intros Hc a b. unfold comparator.
  destruct c; [|destruct o; lia..].
  specialize (Hc eq_refl (fileName a) (fileName b)).
  destruct o; lia.
Qed.


(** [sortFiles] loses and invents no file when at most one listed file
    bears the pinned name: its result is a rearrangement of the list. *)
Theorem sortFiles_Permutation c o fs p :
  length (filter (λ f, Some (fileName f) = p) fs) ≤ 1 →
  sortFiles localeCompare c o fs p ≡ₚ fs.
Proof.
  intros Hone. rewrite sortFiles_parts, sort_Permutation.
  by apply parts_Permutation.
Qed.

(** With a pinned name, [sortFiles] keeps the first file that bears it
    and drops every other file of that name from the list. *)
Theorem sortFiles_drops_namesakes c o fs p :
  truthy p = true →
  length (sortFiles localeCompare c o fs p)
  = length fs - (length (filter (λ f, Some (fileName f) = p) fs) - 1).
Proof.
  intros Hp. rewrite sortFiles_parts, length_app, sort_Permutation.
  unfold sortedPart, pinnedPart. rewrite Hp.
  pose proof (filter_app_complement (λ f, Some (fileName f) = p) fs) as Hfs.
  apply Permutation_length in Hfs. rewrite length_app in Hfs.
  destruct (filter (λ f, Some (fileName f) = p) fs) as [|f more]; cbn in *; [lia|].
  rewrite take_0. cbn. lia.
Qed.

(** The result of [sortFiles]: the first file of the pinned name, if a
    name is pinned and a file bears it, then the other files in the order of
    the comparator. For the name criterion this needs a collation that
    answers the same whichever name comes first. *)
Theorem sortFiles_sorted c o fs p :
  (c = ByName → consistent localeCompare) →
  ∃ rest,
    sortFiles localeCompare c o fs p = pinnedPart p fs ++ rest
    ∧ rest ≡ₚ sortedPart p fs
    ∧ Sorted (JsArray.before (comparator localeCompare c o)) rest.
Proof.
  intros Hc. eexists. split; [apply sortFiles_parts|]. split.
  - apply sort_Permutation.
  - by apply sort_Sorted, comparator_decisive.
Qed.

Lemma pinnedPart_sorted c o fs p :
  pinnedPart p (sortFiles localeCompare c o fs p) = pinnedPart p fs.
Proof.
  rewrite sortFiles_parts. unfold sortedPart, pinnedPart.
  destruct (truthy p); [|done].
  destruct (filter (λ f, Some (fileName f) = p) fs) as [|f more] eqn:Hf; cbn [take app].
  - rewrite filter_none; [done|].
    rewrite sort_Permutation. by apply Forall_forall; intros x Hx Hn;
      assert (x ∈ filter (λ f, Some (fileName f) = p) fs) as Hin by (by apply list_elem_of_filter);
      rewrite Hf in Hin; inversion Hin.
  - rewrite take_0. cbn [app].
    assert (f ∈ filter (λ f, Some (fileName f) = p) fs) as Hin by (rewrite Hf; left).
    apply list_elem_of_filter in Hin as [Hn _].
    rewrite filter_cons_True by done. cbn [take]. by rewrite !take_0.
Qed.

Lemma sortedPart_sorted c o fs p :
  sortedPart p (sortFiles localeCompare c o fs p)
  = JsArray.sort (comparator localeCompare c o) (sortedPart p fs).
Proof.
  unfold sortedPart at 1. rewrite pinnedPart_sorted, sortFiles_parts.
  unfold sortedPart, pinnedPart.
  destruct (truthy p); [|done].
  destruct (filter (λ f, Some (fileName f) = p) fs) as [|f more] eqn:Hf; cbn [take app]; [done|].
  rewrite take_0. cbn [app].
  assert (f ∈ filter (λ f, Some (fileName f) = p) fs) as Hin by (rewrite Hf; left).
  apply list_elem_of_filter in Hin as [Hn _].
  rewrite filter_cons_False by (by intros []).
  apply filter_all. rewrite sort_Permutation.
  apply Forall_forall. by intros x [? _]%list_elem_of_filter.
Qed.

(** Sorting a sorted list again, by the same criterion and order and with
    the same pin, changes nothing. *)
Theorem sortFiles_idempotent c o fs p :
  (c = ByName → consistent localeCompare) →
  sortFiles localeCompare c o (sortFiles localeCompare c o fs p) p
  = sortFiles localeCompare c o fs p.
Proof.
  intros Hc. rewrite (sortFiles_parts c o (sortFiles _ _ _ _ _)).
  rewrite pinnedPart_sorted, sortedPart_sorted, sort_sorted.
  - symmetry. apply sortFiles_parts.
  - by apply sort_Sorted, comparator_decisive.
Qed.

(** Files of one size keep their order when the list is sorted by size,
    upwards or downwards; so do files of one date when it is sorted by
    date. *)
Theorem sortFiles_stable o fs p k :
  filter (λ f, size f = k) (sortFiles localeCompare BySize o fs p)
  = filter (λ f, size f = k) (pinnedPart p fs ++ sortedPart p fs)
  ∧ filter (λ f, lastModified f = k) (sortFiles localeCompare ByDate o fs p)
    = filter (λ f, lastModified f = k) (pinnedPart p fs ++ sortedPart p fs).
Proof.
  rewrite !sortFiles_parts, !filter_app.
  split; f_equal; apply sort_filter; intros x y Hx Hy;
    unfold comparator; destruct o; lia.
Qed.

Lemma selected_listed sel st sf :
  sf ∈ sel →
  Exists (λ pf, fileName pf = fileName sf ∧ size pf = size sf)
    (files (handleFilesSelected sel st)).
Proof.
  intros Hsf. cbn. apply Exists_app.
  destruct (decide (Exists (λ pf, fileName pf = fileName sf ∧ size pf = size sf)
                      (files st))) as [|Hno]; [by left|right].
  apply Exists_exists. exists sf. split; [|done].
  by apply list_elem_of_filter.
Qed.

(** [handleFilesSelected] keeps the list as it is and appends selected
    files, in the order of the selection; an appended file matches no file
    listed before in both name and size; afterwards every selected file has
    a match in the list. The selection is compared with the list only, not
    with itself: on an empty list all of it is appended. *)
Theorem handleFilesSelected_adds_unlisted sel st :
  ∃ added,
    files (handleFilesSelected sel st) = files st ++ added
    ∧ sublist added sel
    ∧ (∀ f, f ∈ added → ∀ pf, pf ∈ files st →
         ¬ (fileName pf = fileName f ∧ size pf = size f))
    ∧ (∀ sf, sf ∈ sel → ∃ f, f ∈ files (handleFilesSelected sel st)
         ∧ fileName f = fileName sf ∧ size f = size sf)
    ∧ (files st = [] → added = sel).
Proof.
  eexists. split; [done|]. split; [apply sublist_filter|]. split; [|split].
  - intros f [Hno _]%list_elem_of_filter pf Hpf Hsame.
    apply Hno, Exists_exists. by exists pf.
  - intros sf Hsf. by apply Exists_exists, selected_listed.
  - intros ->. apply filter_all, Forall_forall. intros f _. by intros ?%Exists_nil.
Qed.

(** Selecting the same files a second time changes nothing. *)
Theorem handleFilesSelected_idempotent sel st :
  handleFilesSelected sel (handleFilesSelected sel st) = handleFilesSelected sel st.
Proof.
  unfold handleFilesSelected at 1.
  rewrite filter_none, app_nil_r; [by destruct st|].
  apply Forall_forall. intros sf Hsf Hno. by apply Hno, selected_listed.
Qed.

Lemma handleSetFirstPage_files n st :
  Some n ≠ firstPageFileName st →
  files (handleSetFirstPage localeCompare n st)
  = take 1 (filter (λ f, fileName f = n) (files st))
    ++ filter (λ f, fileName f ≠ n) (files st).
Proof.
  intros Hn. unfold handleSetFirstPage.
  rewrite bool_decide_eq_false_2 by done. cbn [files setFiles].
  unfold JsArray.find.
  pose proof (filter_app_complement (λ f, fileName f = n) (files st)) as Hfs.
  destruct (filter (λ f, fileName f = n) (files st)) as [|f more] eqn:Hf;
    cbn [head take app].
  - symmetry. apply filter_all, Forall_forall. intros x Hx Hname.
    assert (x ∈ filter (λ f, fileName f = n) (files st)) as Hin
      by (by apply list_elem_of_filter).
    rewrite Hf in Hin. inversion Hin.
  - by rewrite take_0.
Qed.

(** Pinning a name that is not the pinned one keeps every file exactly
    when at most one listed file bears the name: of several, only the first
    stays. *)
Theorem handleSetFirstPage_keeps_files_iff n st :
  Some n ≠ firstPageFileName st →
  files (handleSetFirstPage localeCompare n st) ≡ₚ files st
  ↔ length (filter (λ f, fileName f = n) (files st)) ≤ 1.
Proof.
  intros Hn. rewrite handleSetFirstPage_files by done.
  pose proof (filter_app_complement (λ f, fileName f = n) (files st)) as Hfs.
  split.
  - intros Hperm. apply Permutation_length in Hperm, Hfs.
    rewrite length_app in Hperm, Hfs.
    destruct (filter (λ f, fileName f = n) (files st)) as [|f [|g more]];
      cbn in *; lia.
  - intros Hone. rewrite <-Hfs at 3.
    destruct (filter (λ f, fileName f = n) (files st)) as [|f [|g more]];
      cbn in *; [done|done|lia].
Qed.

(** Pinning the pinned name again removes the pin and sorts the whole
    list by the criterion and order in force. *)
Theorem handleSetFirstPage_unpins n st :
  firstPageFileName st = Some n →
  (sortCriteria st = ByName → consistent localeCompare) →
  let st' := handleSetFirstPage localeCompare n st in
  firstPageFileName st' = None
  ∧ files st' ≡ₚ files st
  ∧ Sorted (JsArray.before (comparator localeCompare (sortCriteria st) (sortOrder st)))
      (files st').
Proof.
  intros Hn Hc. unfold handleSetFirstPage.
  rewrite bool_decide_eq_true_2 by done.
  cbn [files setFiles firstPageFileName setFirstPageFileName].
  rewrite sortFiles_parts. cbn [pinnedPart sortedPart truthy app].
  split; [done|]. split.
  - apply sort_Permutation.
  - by apply sort_Sorted, comparator_decisive.
Qed.

(** Dragging a file over another position moves it there: afterwards it
    stands at the position entered, the other files keep their order, and
    the position entered is the new position dragged from. With a pinned
    file this holds for positions other than the first and files other than
    the pinned one. *)
Theorem handleDragEnter_moves index dragged x st :
  draggedIndex st = Some dragged →
  dragged ≠ index →
  files st !! dragged = Some x →
  index < length (files st) →
  (truthy (firstPageFileName st) = true →
     index ≠ 0 ∧ Some (fileName x) ≠ firstPageFileName st) →
  ∃ st',
    handleDragEnter index st = Some st'
    ∧ files st' !! index = Some x
    ∧ delete index (files st') = delete dragged (files st)
    ∧ files st' ≡ₚ files st
    ∧ draggedIndex st' = Some index
    ∧ firstPageFileName st' = firstPageFileName st.
Proof.
  intros Hd Hne Hx Hi Hpin. unfold handleDragEnter. rewrite Hd, Hx.
  rewrite bool_decide_eq_false_2 by done.
  assert (index ≤ length (delete dragged (files st))) as Hi'.
  { rewrite length_delete by (by eexists). lia. }
  destruct (insert_at index x _ Hi') as (Hat & Hdel & Hperm).
  assert (handleDragEnter_moved :
    (let '(removed, newFiles) := JsArray.splice (Z.of_nat dragged) 1 [] (files st) in
     match removed !! 0 with
     | None => None
     | Some draggedItem =>
         let '(_, newFiles) :=
           JsArray.splice (Z.of_nat index) 0 [draggedItem] newFiles in
         Some (setFiles newFiles (setDraggedIndex (Some index) st))
     end)
    = Some (setFiles (take index (delete dragged (files st))
                      ++ x :: drop index (delete dragged (files st)))
              (setDraggedIndex (Some index) st))).
  { rewrite (splice_delete _ _ _ Hx). cbn [lookup list_lookup].
    by rewrite splice_insert. }
  eexists. split.
  - destruct (truthy (firstPageFileName st)) eqn:Ht; cbn [andb]; [|done].
    destruct (Hpin eq_refl) as [H0 Hname].
    by rewrite !bool_decide_eq_false_2.
  - cbn [files setFiles draggedIndex setDraggedIndex firstPageFileName].
    split; [exact Hat|]. split; [exact Hdel|]. split; [|done].
    rewrite Hperm. symmetry. by apply delete_Permutation.
Qed.

Lemma sortFiles_head c o f rest pinned :
  pinned ≠ "" → fileName f = pinned →
  ∃ rest', sortFiles localeCompare c o (f :: rest) (Some pinned) = f :: rest'.
Proof.
  intros Hne Hf. rewrite sortFiles_parts. unfold pinnedPart.
  cbn [truthy]. rewrite bool_decide_eq_true_2 by done.
  rewrite filter_cons_True by (by rewrite Hf). cbn [take app].
  rewrite take_0. by eexists.
Qed.

Lemma handleFilesSelected_pinnedFirst sel st :
  pinnedFirst st → pinnedFirst (handleFilesSelected sel st).
Proof.
  unfold pinnedFirst, handleFilesSelected.
  cbn [files firstPageFileName setFiles setError setPdfUrl].
  destruct (firstPageFileName st) as [pinned|]; [|done].
  intros (Hne & f & rest & -> & Hf). split; [done|]. by eexists _, _.
Qed.

Lemma handlePaste_pinnedFirst items st :
  pinnedFirst st → pinnedFirst (handlePaste items st).1.
Proof.
  intros Hst. unfold handlePaste.
  destruct (activeTab st); [|done..].
  destruct items as [items|]; [|done].
  destruct (bool_decide (0 < length items)); [|done]. cbv zeta.
  destruct (bool_decide _); [|done]. by apply handleFilesSelected_pinnedFirst.
Qed.

(** On the merger tab, a paste that brings files the filter accepts
    selects exactly these files, the first of the clipboard included, and
    keeps the browser from handling the paste. *)
Lemma handlePaste_selects items st :
  activeTab st = Merger →
  filter (λ file, pasteAccepts file = true) items ≠ [] →
  handlePaste (Some items) st
  = (handleFilesSelected (filter (λ file, pasteAccepts file = true) items) st, true).
Proof.
  intros Htab Hsome. unfold handlePaste. rewrite Htab.
  assert (0 < length (filter (λ file, pasteAccepts file = true) items)) as Hlen.
  { destruct (filter _ items); [done|cbn; lia]. }
  assert (0 < length items) as Hitems.
  { pose proof (length_filter (λ file, pasteAccepts file = true) items). lia. }
  by rewrite !bool_decide_eq_true_2.
Qed.

Lemma handleSortCriteriaChange_pinnedFirst c st :
  pinnedFirst st → pinnedFirst (handleSortCriteriaChange localeCompare c st).
Proof.
  unfold pinnedFirst, handleSortCriteriaChange.
  cbn [files firstPageFileName setFiles setSortCriteria].
  destruct (firstPageFileName st) as [pinned|]; [|done].
  intros (Hne & f & rest & -> & Hf). split; [done|].
  destruct (sortFiles_head c (sortOrder st) f rest pinned Hne Hf) as [rest' ->].
  by eexists _, _.
Qed.

Lemma handleSortOrderChange_pinnedFirst st :
  pinnedFirst st → pinnedFirst (handleSortOrderChange localeCompare st).
Proof.
  unfold pinnedFirst, handleSortOrderChange.
  cbn [files firstPageFileName setFiles setSortOrder].
  destruct (firstPageFileName st) as [pinned|]; [|done].
  intros (Hne & f & rest & -> & Hf). split; [done|].
  edestruct (sortFiles_head (sortCriteria st)) as [rest' ->]; [done..|].
  by eexists _, _.
Qed.

Lemma handleRemoveFile_pinnedFirst n st :
  pinnedFirst st → pinnedFirst (handleRemoveFile n st).
Proof.
  unfold pinnedFirst, handleRemoveFile.
  case_bool_decide as Hn; cbn [files firstPageFileName setFiles setFirstPageFileName];
    [done|].
  destruct (firstPageFileName st) as [pinned|]; [|done].
  intros (Hne & f & rest & -> & Hf). split; [done|].
  rewrite filter_cons_True by congruence. by eexists _, _.
Qed.

Lemma handleSetFirstPage_pinnedFirst n st :
  n ≠ "" → (∃ f, f ∈ files st ∧ fileName f = n) →
  pinnedFirst (handleSetFirstPage localeCompare n st).
Proof.
  intros Hne (g & Hg & Hname). unfold pinnedFirst, handleSetFirstPage.
  case_bool_decide as Hn; cbn [files firstPageFileName setFiles setFirstPageFileName];
    [done|].
  split; [done|]. unfold JsArray.find.
  destruct (filter (λ f, fileName f = n) (files st)) as [|f more] eqn:Hf.
  - assert (g ∈ filter (λ f, fileName f = n) (files st)) as Hin
      by (by apply list_elem_of_filter).
    rewrite Hf in Hin. inversion Hin.
  - cbn [head]. eexists _, _. split; [done|].
    assert (f ∈ filter (λ f, fileName f = n) (files st)) as Hin by (rewrite Hf; left).
    by apply list_elem_of_filter in Hin as [? _].
Qed.

Lemma handleDragEnter_pinnedFirst index st st' :
  handleDragEnter index st = Some st' → pinnedFirst st → pinnedFirst st'.
Proof.
  unfold handleDragEnter. intros Hst' Hst.
  destruct (draggedIndex st) as [dragged|]; [|congruence].
  case_bool_decide; [congruence|].
  destruct (truthy (firstPageFileName st) && bool_decide (index = 0)) eqn:H0;
    [congruence|].
  destruct (files st !! dragged) as [file|] eqn:Hfile; [|done].
  destruct (truthy (firstPageFileName st)
            && bool_decide (Some (fileName file) = firstPageFileName st)) eqn:Hpin;
    [congruence|].
  destruct (JsArray.splice (Z.of_nat dragged) 1 [] (files st))
    as [removed newFiles] eqn:Hremove.
  destruct (removed !! 0) as [draggedItem|]; [|done].
  destruct (JsArray.splice (Z.of_nat index) 0 [draggedItem] newFiles)
    as [removed' newFiles'] eqn:Hinsert.
  injection Hst' as <-. revert Hst. unfold pinnedFirst.
  cbn [files firstPageFileName setFiles setDraggedIndex].
  destruct (firstPageFileName st) as [pinned|]; [|done].
  intros (Hne & f & rest & Hfs & Hf). split; [done|].
  cbn [truthy] in H0, Hpin. rewrite bool_decide_eq_true_2 in H0, Hpin by done.
  cbn [andb] in H0, Hpin.
  apply bool_decide_eq_false in H0, Hpin.
  assert (dragged ≠ 0) as Hd.
  { intros ->. rewrite Hfs in Hfile. cbn in Hfile. congruence. }
  rewrite Hfs in Hremove.
  destruct (splice_head dragged 1 [] f rest Hd) as [rest1 H1].
  rewrite Hremove in H1. cbn in H1. subst newFiles.
  destruct (splice_head index 0 [draggedItem] f rest1 H0) as [rest2 H2].
  rewrite Hinsert in H2. cbn in H2. subst newFiles'.
  by eexists _, _.
Qed.

(** Whatever the user does to the list (select, paste, sort, remove, pin,
    drag, reset), a pinned name is not empty and the first file of the list
    bears it. *)
Theorem pinned_file_stays_first st :
  reachable localeCompare st → pinnedFirst st.
Proof.
  induction 1 as [|action st st' _ IH Hoffered Hstep]; [done|].
  destruct action; cbn in Hstep, Hoffered; try injection Hstep as <-.
  - by apply handleFilesSelected_pinnedFirst.
  - by apply handlePaste_pinnedFirst.
  - by apply handleSortCriteriaChange_pinnedFirst.
  - by apply handleSortOrderChange_pinnedFirst.
  - by apply handleRemoveFile_pinnedFirst.
  - destruct Hoffered. by apply handleSetFirstPage_pinnedFirst.
  - done.
  - by eapply handleDragEnter_pinnedFirst.
  - done.
  - done.
  - done.
Qed.

End FileList.

(** The statements above on the small list. *)

Lemma sample_collation_consistent : App.consistent Sample.localeCompare.
Proof.
  intros a b. unfold Sample.localeCompare.
  rewrite (String.compare_antisym a b). by destruct (String.compare b a).
Qed.

Lemma sortFiles_Permutation_witness :
  length (filter (λ f, Some (App.fileName f) = Some "a.png") Sample.listed) ≤ 1 ∧
  App.sortFiles Sample.localeCompare App.ByName App.Asc Sample.listed (Some "a.png")
  ≡ₚ Sample.listed.
Proof.
  assert (length (filter (λ f, Some (App.fileName f) = Some "a.png") Sample.listed) ≤ 1)
    as Hone by (vm_compute; lia).
  split; [exact Hone|].
  exact (sortFiles_Permutation Sample.localeCompare _ _ _ _ Hone).
Defined.

Lemma sortFiles_drops_namesakes_witness :
  App.truthy (Some "a.png") = true ∧
  length (App.sortFiles Sample.localeCompare App.BySize App.Desc Sample.namesakes
            (Some "a.png")) = 4 - (2 - 1).
Proof.
  split; [reflexivity|].
  exact (sortFiles_drops_namesakes Sample.localeCompare App.BySize App.Desc
           Sample.namesakes (Some "a.png") eq_refl).
Defined.

Lemma sortFiles_sorted_witness :
  (App.ByName = App.ByName → App.consistent Sample.localeCompare) ∧
  ∃ rest,
    App.sortFiles Sample.localeCompare App.ByName App.Desc Sample.listed (Some "b.pdf")
    = App.pinnedPart (Some "b.pdf") Sample.listed ++ rest
    ∧ rest ≡ₚ App.sortedPart (Some "b.pdf") Sample.listed
    ∧ Sorted (JsArray.before (App.comparator Sample.localeCompare App.ByName App.Desc))
        rest.
Proof.
  split; [intros _; exact sample_collation_consistent|].
  apply sortFiles_sorted. intros _. exact sample_collation_consistent.
Defined.

Lemma sortFiles_idempotent_witness :
  (App.ByName = App.ByName → App.consistent Sample.localeCompare) ∧
  App.sortFiles Sample.localeCompare App.ByName App.Asc
    (App.sortFiles Sample.localeCompare App.ByName App.Asc Sample.namesakes (Some "a.png"))
    (Some "a.png")
  = App.sortFiles Sample.localeCompare App.ByName App.Asc Sample.namesakes (Some "a.png").
Proof.
  split; [intros _; exact sample_collation_consistent|].
  apply sortFiles_idempotent. intros _. exact sample_collation_consistent.
Defined.

Lemma handleSetFirstPage_keeps_files_iff_witness :
  Some "a.png" ≠ App.firstPageFileName Sample.selected ∧
  (App.files (App.handleSetFirstPage Sample.localeCompare "a.png" Sample.selected)
   ≡ₚ App.files Sample.selected
   ↔ length (filter (λ f, App.fileName f = "a.png") (App.files Sample.selected)) ≤ 1).
Proof.
  assert (Some "a.png" ≠ App.firstPageFileName Sample.selected) as Hnew
    by (vm_compute; discriminate).
  split; [exact Hnew|].
  exact (handleSetFirstPage_keeps_files_iff Sample.localeCompare _ _ Hnew).
Defined.

Lemma handleSetFirstPage_unpins_witness :
  App.firstPageFileName Sample.pinned = Some "a.png" ∧
  (App.sortCriteria Sample.pinned = App.ByName → App.consistent Sample.localeCompare) ∧
  let st' := App.handleSetFirstPage Sample.localeCompare "a.png" Sample.pinned in
  App.firstPageFileName st' = None
  ∧ App.files st' ≡ₚ App.files Sample.pinned
  ∧ Sorted (JsArray.before (App.comparator Sample.localeCompare
                              (App.sortCriteria Sample.pinned)
                              (App.sortOrder Sample.pinned)))
      (App.files st').
Proof.
  assert (App.firstPageFileName Sample.pinned = Some "a.png") as Hpinned
    by (vm_compute; reflexivity).
  split; [exact Hpinned|]. split; [intros _; exact sample_collation_consistent|].
  exact (handleSetFirstPage_unpins Sample.localeCompare _ _ Hpinned
           (λ _, sample_collation_consistent)).
Defined.

Lemma handleDragEnter_moves_witness :
  App.draggedIndex (App.handleDragStart 1 Sample.pinned) = Some 1 ∧
  1 ≠ 2 ∧
  App.files (App.handleDragStart 1 Sample.pinned) !! 1 = Some Sample.notes ∧
  2 < length (App.files (App.handleDragStart 1 Sample.pinned)) ∧
  (App.truthy (App.firstPageFileName (App.handleDragStart 1 Sample.pinned)) = true →
   2 ≠ 0 ∧ Some (App.fileName Sample.notes)
           ≠ App.firstPageFileName (App.handleDragStart 1 Sample.pinned)) ∧
  ∃ st',
    App.handleDragEnter 2 (App.handleDragStart 1 Sample.pinned) = Some st'
    ∧ App.files st' !! 2 = Some Sample.notes
    ∧ delete 2 (App.files st') = delete 1 (App.files (App.handleDragStart 1 Sample.pinned))
    ∧ App.files st' ≡ₚ App.files (App.handleDragStart 1 Sample.pinned)
    ∧ App.draggedIndex st' = Some 2
    ∧ App.firstPageFileName st' = App.firstPageFileName (App.handleDragStart 1 Sample.pinned).
Proof.
  assert (App.draggedIndex (App.handleDragStart 1 Sample.pinned) = Some 1) as Hd
    by reflexivity.
  assert (1 ≠ 2) as Hne by lia.
  assert (App.files (App.handleDragStart 1 Sample.pinned) !! 1 = Some Sample.notes) as Hx
    by (vm_compute; reflexivity).
  assert (2 < length (App.files (App.handleDragStart 1 Sample.pinned))) as Hi
    by (vm_compute; lia).
  assert (App.truthy (App.firstPageFileName (App.handleDragStart 1 Sample.pinned)) = true →
          2 ≠ 0 ∧ Some (App.fileName Sample.notes)
                  ≠ App.firstPageFileName (App.handleDragStart 1 Sample.pinned)) as Hpin
    by (intros _; split; [lia|vm_compute; discriminate]).
  do 5 (split; [assumption|]).
  exact (handleDragEnter_moves 2 1 Sample.notes _ Hd Hne Hx Hi Hpin).
Defined.

Lemma pinned_file_stays_first_witness :
  App.reachable Sample.localeCompare Sample.pasted ∧
  App.files Sample.pasted
  = [Sample.picture; Sample.notes; Sample.paper; Sample.retake] ∧
  App.pinnedFirst Sample.pasted.
Proof.
  assert (App.reachable Sample.localeCompare Sample.pinned) as Hpinned.
  { apply (App.reachable_step _ (App.SetFirstPage "a.png") Sample.selected).
    - by apply (App.reachable_step _ (App.FilesSelected Sample.listed) App.initial);
        [apply App.reachable_initial| |].
    - split; [done|]. exists Sample.picture. split; [|done].
      vm_compute. apply list_elem_of_further, list_elem_of_here.
    - reflexivity. }
  assert (App.reachable Sample.localeCompare Sample.pasted) as Hreach.
  { by apply (App.reachable_step _ (App.Paste (Some [Sample.retake])) Sample.pinned). }
  split; [exact Hreach|]. split; [vm_compute; reflexivity|].
  exact (pinned_file_stays_first Sample.localeCompare _ Hreach).
Defined.

(** * [handleMerge] *)

Section HandleMergeFacts.
Context (H : Host).
Variable createObjectURL : list (@PDFPage (appHost H)) → string.
Implicit Types (w : @World (appHost H)) (file : File).

Lemma handleMerge_run (w : @World (appHost H)) :
  handleMerge H createObjectURL w =
    match App.files (caller w) with
    | [] => (Ok tt, @with_caller (appHost H) (App.setError (Some noFileError)) w)
    | _ :: _ =>
        let settle :=
          @with_caller (appHost H)
            (λ st, App.setProcessingFileName None (App.setIsLoading false st)) in
        match @mergeFilesToPdf (appHost H) (App.blob <$> App.files (caller w))
                (Some (λ fileName, App.setProcessingFileName (Some fileName)))
                (@with_caller (appHost H)
                   (λ st, App.setPdfUrl None (App.setError None (App.setIsLoading true st)))
                   w) with
        | (Ok pdfBytes, w2) =>
            (Ok tt,
             settle (@with_caller (appHost H) (App.setPdfUrl (Some (createObjectURL pdfBytes)))
                       (@with_trace (appHost H) (λ t, t ++ [EvCall "URL.createObjectURL"]) w2)))
        | (Throw e, w2) =>
            (Ok tt,
             settle (@with_caller (appHost H) (App.setError (Some mergeError))
                       (@with_trace (appHost H) (λ t, t ++ [EvConsoleError "" e]) w2)))
        end
    end.
Proof.
  destruct w as [d ns nn b st t]. unfold handleMerge, setState. js_unfold.
  destruct (App.files st) as [|f fs] eqn:Hfiles; [done|].
  rewrite bool_decide_eq_false_2 by done.
  match goal with |- context [@mergeFilesToPdf ?h ?fs ?cb ?w0] =>
    destruct (@mergeFilesToPdf h fs cb w0) as [[pdfBytes|e] [d2 ns2 nn2 b2 st2 t2]]
  end; reflexivity.
Qed.


Lemma showProgress_foldl (reached : list File) (st : App.State) :
  ∃ v, foldl (@announce (appHost H)
                (Some (λ fileName, App.setProcessingFileName (Some fileName))))
         st reached
       = App.setProcessingFileName v st.
Proof.
  revert st. induction reached as [|file reached IH]; intros st; cbn [foldl].
  - exists (App.processingFileName st). by destruct st.
  - destruct (IH (App.setProcessingFileName (Some (name file)) st)) as [v Hv].
    exists v. etrans; [exact Hv|done].
Qed.

Lemma mergeFilesToPdf_caller (files : list File) w :
  ∃ v, caller (@mergeFilesToPdf (appHost H) files
                 (Some (λ fileName, App.setProcessingFileName (Some fileName))) w).2
       = App.setProcessingFileName v (caller w).
Proof.
  destruct (@PDFDocument_create (appHost H)) as [[]|e] eqn:Hcreate.
  - destruct (@mergeFilesToPdf_run (appHost H)
                (Some (λ fileName, App.setProcessingFileName (Some fileName)))
                files w Hcreate) as (_ & _ & -> & _).
    apply showProgress_foldl.
  - rewrite (@mergeFilesToPdf_fatal (appHost H) _ _ _ _ Hcreate).
    exists (App.processingFileName (caller w)). destruct w as [d ns nn b [] t]. done.
Qed.

Lemma contribution_decodes file :
  (@contribution (appHost H) file).2 = None → decodes H file.
Proof.
  intros Hc. unfold contribution, kindOf in Hc.
  split; intros Ht; rewrite Ht in Hc; cbn in Hc.
  - destruct (embedJpg (content file)) as [image|e]; [by exists image|done].
  - destruct (embedPng (content file)) as [image|e]; [by exists image|done].
Qed.

(** A call that returns has created the document and decoded every JPEG
    and PNG. *)
Lemma mergeFilesToPdf_decoded (files : list File) onProgress w w' merged :
  @mergeFilesToPdf (appHost H) files onProgress w = (Ok merged, w') →
  @PDFDocument_create (appHost H) = Ok tt ∧ Forall (decodes H) files
  ∧ merged = saved (pagesOf files).
Proof.
  intros Hmerge.
  apply (@mergeFilesToPdf_returned (appHost H)) in Hmerge as (Hcreate & Hnone & ->).
  split; [done|]. split; [|done]. apply (@completed_none (appHost H)) in Hnone.
  eapply Forall_impl; [exact Hnone|]. intros file. apply contribution_decodes.
Qed.

(** [handleMerge] never throws. On an empty list it sets the error and
    does nothing else; otherwise it ends with the busy flag and the progress
    name cleared and with either an object URL and no error, after
    [URL.createObjectURL], or the error and no URL, after [console.error];
    nothing else of the state of [App] has changed. *)
Theorem handleMerge_settles w :
  ∃ w', handleMerge H createObjectURL w = (Ok tt, w') ∧
    match App.files (caller w) with
    | [] => w' = @with_caller (appHost H) (App.setError (Some noFileError)) w
    | _ :: _ =>
        (∃ pdfBytes,
           caller w' = App.setProcessingFileName None (App.setIsLoading false
                         (App.setPdfUrl (Some (createObjectURL pdfBytes))
                            (App.setError None (caller w))))
           ∧ last (trace w') = Some (EvCall "URL.createObjectURL"))
        ∨ (∃ e,
             caller w' = App.setProcessingFileName None (App.setIsLoading false
                           (App.setPdfUrl None
                              (App.setError (Some mergeError) (caller w))))
             ∧ last (trace w') = Some (EvConsoleError "" e))
    end.
Proof.
  rewrite handleMerge_run.
  destruct (App.files (caller w)) as [|f fs]; [by eexists|]. cbv zeta.
  match goal with |- context [@mergeFilesToPdf ?h ?fs ?cb ?w0] =>
    destruct (mergeFilesToPdf_caller fs w0) as [v Hcaller];
    destruct (@mergeFilesToPdf h fs cb w0) as [[pdfBytes|e] [d2 ns2 nn2 b2 st2 t2]]
  end; destruct w as [d ns nn b st t]; cbn in Hcaller; subst st2;
    (eexists; split; [done|]).
  - left. exists pdfBytes. split; [done|]. cbn. apply last_snoc.
  - right. exists e. split; [done|]. cbn. apply last_snoc.
Qed.

(** With files listed, [handleMerge] offers a document only when the
    output document could be created and every file declared a JPEG or a
    PNG decoded, and what it offers then is the pages of the files in the
    order of the list (one blank page when the files have no page at all);
    in every other case the user gets the error and no document. *)
Theorem handleMerge_offers_merged_pages w :
  App.files (caller w) ≠ [] →
  let files := App.blob <$> App.files (caller w) in
  let st' := caller (handleMerge H createObjectURL w).2 in
  (@PDFDocument_create (appHost H) = Ok tt ∧ Forall (decodes H) files
   ∧ App.pdfUrl st' = Some (createObjectURL (saved (pagesOf files)))
   ∧ App.error st' = None)
  ∨ (App.pdfUrl st' = None ∧ App.error st' = Some mergeError).
Proof.
  intros Hfiles. cbv zeta. rewrite handleMerge_run.
  destruct (App.files (caller w)) as [|f fs]; [done|]. cbv zeta.
  match goal with |- context [@mergeFilesToPdf ?h ?fs ?cb ?w0] =>
    destruct (mergeFilesToPdf_caller fs w0) as [v Hcaller];
    destruct (@mergeFilesToPdf h fs cb w0)
      as [[pdfBytes|e] [d2 ns2 nn2 b2 st2 t2]] eqn:Hmerge
  end; destruct w as [d ns nn b st t]; cbn in Hcaller; subst st2.
  - left. by apply mergeFilesToPdf_decoded in Hmerge as (? & ? & ->).
  - by right.
Qed.

End HandleMergeFacts.

Lemma handleMerge_offers_merged_pages_witness :
  App.files (caller Sample.world) ≠ [] ∧
  let files := App.blob <$> App.files (caller Sample.world) in
  let st' := caller (handleMerge (Toy.host true) Sample.createObjectURL Sample.world).2 in
  (@PDFDocument_create (appHost (Toy.host true)) = Ok tt
   ∧ Forall (decodes (Toy.host true)) files
   ∧ App.pdfUrl st' = Some (Sample.createObjectURL (saved (pagesOf files)))
   ∧ App.error st' = None)
  ∨ (App.pdfUrl st' = None ∧ App.error st' = Some mergeError).
Proof.
  assert (App.files (caller Sample.world) ≠ []) as Hlisted by (vm_compute; discriminate).
  split; [exact Hlisted|].
  exact (handleMerge_offers_merged_pages (Toy.host true) Sample.createObjectURL
           Sample.world Hlisted).
Defined.

(** * What the list shows and lets in, against what the pipeline does *)

Section Card.
Context `{Host}.
Import FilePreviewCard.

(** The icon of a card tells the branch of the pipeline that will process
    the file: the card and the pipeline decide in the same way. *)
Theorem icon_tells_branch (file : File) :
  processFile file =
    match getFileIcon file with
    | ImageIcon => imageBranch file
    | PdfIcon => pdfBranch file
    | WordIcon => wordBranch file
    | ExcelIcon => excelBranch file
    | FileIcon => otherBranch file
    end.
Proof.
  unfold processFile, getFileIcon, docxType, xlsxType.
  destruct (startsWith (type file) "image/"); [done|].
  destruct (bool_decide (type file = "application/pdf")); [done|].
  destruct (_ || _); [done|]. by destruct (_ || _).
Qed.

(** The filter of [handlePaste] lets in every file that the pipeline
    dispatches on its media type. It refuses a file without a media type,
    which the pipeline dispatches on its name: a pasted [.docx] or [.xlsx]
    of that kind is dropped, a selected one is converted. *)
Theorem paste_filter_and_dispatch (f : App.Upload) :
  (startsWith (App.fileType f) "image/" = true
   ∨ App.fileType f = "application/pdf"
   ∨ App.fileType f = docxType ∨ App.fileType f = xlsxType →
   App.pasteAccepts f = true)
  ∧ (App.fileType f = "" →
     App.pasteAccepts f = false
     ∧ processFile (App.blob f) =
         if endsWith (toLowerCase (App.fileName f)) ".docx" then wordBranch (App.blob f)
         else if endsWith (toLowerCase (App.fileName f)) ".xlsx"
              then excelBranch (App.blob f)
              else otherBranch (App.blob f)).
Proof.
  unfold App.pasteAccepts, App.fileType, App.fileName, processFile. split.
  - intros [->|[->|[->| ->]]]; [done|done..].
  - by intros ->.
Qed.

End Card.

(** * The page organizer *)

(** ** More facts about arrays *)

Section ArrayIndices.
Context {A : Type}.

Lemma findIndexFrom_spec (P : A → Prop) `{∀ x, Decision (P x)} (i : Z) (a : list A) :
  (JsArray.findIndexFrom P i a = (-1)%Z ∧ Forall (λ x, ¬ P x) a)
  ∨ ∃ (d : nat) (x : A),
      JsArray.findIndexFrom P i a = (i + Z.of_nat d)%Z
      ∧ a !! d = Some x ∧ P x ∧ Forall (λ x, ¬ P x) (take d a).
Proof.
  revert i. induction a as [|y a IH]; intros i; cbn; [by left|].
  destruct (decide (P y)) as [Hy|Hy].
  - right. exists 0, y. rewrite Z.add_0_r. by repeat split.
  - destruct (IH (i + 1)%Z) as [[-> Hall]|(d & x & -> & Hx & HP & Hall)].
    + left. by split; [|constructor].
    + right. exists (S d), x. split; [lia|]. split; [done|]. split; [done|].
      by constructor.
Qed.

Lemma findIndex_range (P : A → Prop) `{∀ x, Decision (P x)} (a : list A) :
  (-1 ≤ JsArray.findIndex P a < Z.of_nat (length a))%Z.
Proof.
  unfold JsArray.findIndex.
  destruct (findIndexFrom_spec P 0 a) as [[-> _]|(d & x & -> & Hx & _)]; [lia|].
  apply lookup_lt_Some in Hx. lia.
Qed.

Lemma findIndex_NoDup {B} (f : A → B) `{EqDecision B} (a : list A) (d : nat) (x : A) :
  NoDup (f <$> a) → a !! d = Some x →
  JsArray.findIndex (λ y, f y = f x) a = Z.of_nat d.
Proof.
  intros Hnodup Hx. unfold JsArray.findIndex.
  destruct (findIndexFrom_spec (λ y, f y = f x) 0 a)
    as [[_ Hall]|(d' & x' & -> & Hx' & Heq & _)].
  - rewrite Forall_forall in Hall. destruct (Hall x); [|done].
    by eapply list_elem_of_lookup_2.
  - rewrite Z.add_0_l. f_equal. eapply NoDup_lookup; [exact Hnodup| |].
    + by rewrite list_lookup_fmap, Hx'.
    + by rewrite list_lookup_fmap, Hx, Heq.
Qed.

(** [a.splice(i, 1)] for an index or [-1] on an array that is not empty. *)
Lemma splice_remove (i : Z) (a : list A) :
  a ≠ [] → (-1 ≤ i < Z.of_nat (length a))%Z →
  ∃ d x, a !! d = Some x ∧ JsArray.splice i 1 [] a = ([x], delete d a)
         ∧ d = (if (i <? 0)%Z then length a - 1 else Z.to_nat i).
Proof.
  intros Ha Hi. assert (0 < length a) by (destruct a; [done|cbn; lia]).
  destruct (Z.ltb_spec i 0) as [Hneg|Hpos].
  - assert (i = (-1)%Z) as -> by lia.
    destruct (lookup_lt_is_Some_2 a (length a - 1)) as [x Hx]; [lia|].
    exists (length a - 1), x. split; [done|]. split; [|done].
    rewrite <-(splice_delete _ _ _ Hx).
    assert (JsArray.relativeStart (length a) (-1)
            = JsArray.relativeStart (length a) (Z.of_nat (length a - 1))) as Hstart.
    { unfold JsArray.relativeStart.
      destruct (Z.ltb_spec (Z.of_nat (length a - 1)) 0); [lia|].
      cbn [Z.ltb Z.compare]. lia. }
    unfold JsArray.splice. by rewrite Hstart.
  - destruct (lookup_lt_is_Some_2 a (Z.to_nat i)) as [x Hx]; [lia|].
    exists (Z.to_nat i), x. split; [done|]. split; [|done].
    rewrite <-(splice_delete _ _ _ Hx). by rewrite Z2Nat.id.
Qed.

(** [a.splice(i, 0, x)] puts [x] somewhere. *)
Lemma splice_put (i : Z) (x : A) (a : list A) :
  ∃ k, k ≤ length a
       ∧ JsArray.splice i 0 [x] a = ([], take k a ++ x :: drop k a)
       ∧ ((0 ≤ i)%Z → k = Nat.min (Z.to_nat i) (length a)).
Proof.
  exists (JsArray.relativeStart (length a) i).
  assert (JsArray.relativeStart (length a) i ≤ length a) as Hk.
  { unfold JsArray.relativeStart. destruct (Z.ltb_spec i 0); lia. }
  split; [done|]. split.
  - unfold JsArray.splice. cbn. by rewrite take_0, Nat.add_0_r.
  - intros Hi. unfold JsArray.relativeStart. by destruct (Z.ltb_spec i 0); [lia|].
Qed.

End ArrayIndices.

(** ** Quarter turns *)

Section Turns.
Import PdfOrganizer.
Context {Pdf : Type}.
Implicit Types (page : @PageInfo Pdf) (st : @State Pdf).

Lemma rotate_four page :
  (0 ≤ rotation page < 360)%Z → rotate (rotate (rotate (rotate page))) = page.
Proof.
  intros Hr. destruct page as [i p n r k]. unfold rotate. cbn in *. f_equal.
  Z.quot_rem_to_equations. lia.
Qed.

Lemma turn_four (id' : string) page :
  (0 ≤ rotation page < 360)%Z →
  let turn := λ page, if bool_decide (id page = id') then rotate page else page in
  turn (turn (turn (turn page))) = page.
Proof.
  intros Hr turn.
  assert (∀ q, id q = id' → turn q = rotate q) as Hturn.
  { intros q Hq. unfold turn. by rewrite bool_decide_eq_true_2. }
  destruct (decide (id page = id')) as [Hid|Hid].
  - rewrite (Hturn page Hid), (Hturn (rotate page) Hid), (Hturn (rotate (rotate page)) Hid), (Hturn (rotate (rotate (rotate page))) Hid). by apply rotate_four.
  - assert (turn page = page) as Hsame.
    { unfold turn. by rewrite bool_decide_eq_false_2. }
    by rewrite !Hsame.
Qed.

(** Four quarter turns of a page bring every page back: [handleRotatePage]
    four times is the identity on a component whose rotations lie between 0
    and 359. *)
Theorem four_rotations_restore (id' : string) st :
  Forall (λ page, (0 ≤ rotation page < 360)%Z) (pages st) →
  handleRotatePage id'
    (handleRotatePage id' (handleRotatePage id' (handleRotatePage id' st))) = st.
Proof.
  intros Hall. destruct st as [ps l s e u d]. unfold handleRotatePage, setPages.
  cbn in *. f_equal. rewrite <-!list_fmap_compose.
  induction Hall as [|page ps Hr _ IH]; [done|].
  rewrite fmap_cons, IH. f_equal. by apply turn_four.
Qed.

End Turns.

(** ** The handlers of the pages *)

Section Organizer.
Import PdfOrganizer.
Context `{Host} {Pdf : Type}.
Variable getDocument : Bytes → Result Pdf.
Variable numPages : Pdf → nat.
Variable getData : Pdf → Result Bytes.
Variable Date_now : nat → Z.
Variable createObjectURL : list (DonorPage * Z) → string.
Implicit Types (page p q : @PageInfo Pdf) (st : @State Pdf).
Implicit Types (ps acc : list (@PageInfo Pdf)).
Implicit Types (files : list File) (pdfs : list Pdf).
Implicit Types (m : gmap nat (list DonorPage)).

Lemma rotate_wellFormed page :
  wellFormed numPages page → wellFormed numPages (rotate page).
Proof.
  intros [Hr Hn]. split; [|done]. cbn [rotate rotation].
  rewrite !elem_of_cons, elem_of_nil in Hr.
  destruct Hr as [->|[->|[->|[->|[]]]]]; cbn; rewrite !elem_of_cons; auto.
Qed.

Lemma handleDragEnter_pages (id' : string) st :
  pages st ≠ [] →
  ∃ ps, handleDragEnter id' st = Some (setPages ps st) ∧ ps ≡ₚ pages st.
Proof.
  intros Hpages. unfold handleDragEnter.
  assert (setPages (pages st) st = st) as Hst by (by destruct st).
  destruct (draggedId st) as [dragged|]; [|exists (pages st); by rewrite Hst].
  case_bool_decide; [exists (pages st); by rewrite Hst|].
  destruct (splice_remove (JsArray.findIndex (λ p, id p = dragged) (pages st))
              (pages st) Hpages (findIndex_range _ _)) as (d & x & Hx & -> & _).
  cbn [lookup list_lookup].
  destruct (splice_put (JsArray.findIndex (λ p, id p = id') (pages st)) x
              (delete d (pages st))) as (k & Hk & -> & _).
  eexists. split; [done|].
  destruct (insert_at k x _ Hk) as (_ & _ & ->). symmetry. by apply delete_Permutation.
Qed.

Lemma pushPages_shown (file : File) (fileIndex : nat) (pdf0 : Pdf) (i count : nat) ps :
  ∃ made,
    pushPages Date_now file fileIndex pdf0 i count ps = ps ++ made
    ∧ shown <$> made = (λ i, (pdf0, fileIndex, Z.of_nat i, 0%Z)) <$> seq i count.
Proof.
  revert i ps. induction count as [|count IH]; intros i ps; cbn [pushPages].
  - exists []. by rewrite app_nil_r.
  - edestruct (IH (S i)) as (made & -> & Hmade).
    eexists (_ :: made). split; [by rewrite <-app_assoc|].
    cbn [seq]. by rewrite !fmap_cons, Hmade.
Qed.

Lemma allPages_cons (fileIndex : nat) (pdf0 : Pdf) pdfs :
  allPages numPages fileIndex (pdf0 :: pdfs)
  = ((λ i, (pdf0, fileIndex, Z.of_nat i, 0%Z)) <$> seq 1 (numPages pdf0))
    ++ allPages numPages (S fileIndex) pdfs.
Proof.
  unfold allPages. rewrite imap_cons. cbn [concat]. rewrite Nat.add_0_r. do 2 f_equal.
  apply imap_ext. intros j pdf1 _. cbn. by replace (fileIndex + S j) with (S (fileIndex + j)) by lia.
Qed.

Lemma loadFiles_loaded (fileIndex : nat) files pdfs ps :
  Forall2 (λ file pdf0, getDocument (content file) = Ok pdf0) files pdfs →
  ∃ made,
    loadFiles getDocument numPages Date_now fileIndex files ps = Ok (ps ++ made)
    ∧ shown <$> made = allPages numPages fileIndex pdfs.
Proof.
  intros Hloads. revert fileIndex ps.
  induction Hloads as [|file pdf0 files pdfs Hload _ IH]; intros fileIndex ps.
  - exists []. by rewrite app_nil_r.
  - cbn [loadFiles]. rewrite Hload.
    destruct (pushPages_shown file fileIndex pdf0 1 (numPages pdf0) ps)
      as (first & -> & Hfirst).
    destruct (IH (S fileIndex) (ps ++ first)) as (rest & -> & Hrest).
    exists (first ++ rest). split; [by rewrite app_assoc|].
    by rewrite fmap_app, Hfirst, Hrest, allPages_cons.
Qed.

Lemma loadFiles_failed (fileIndex : nat) files ps :
  Exists (λ file, ∃ e, getDocument (content file) = Throw e) files →
  ∃ e, loadFiles getDocument numPages Date_now fileIndex files ps = Throw e.
Proof.
  intros Hfails. revert fileIndex ps.
  induction Hfails as [file files [e He]|file files _ IH]; intros fileIndex ps;
    cbn [loadFiles].
  - rewrite He. by exists e.
  - destruct (getDocument (content file)) as [pdf0|e]; [apply IH|by exists e].
Qed.

Lemma loadFiles_Ok_inv (fileIndex : nat) files ps ps' :
  loadFiles getDocument numPages Date_now fileIndex files ps = Ok ps' →
  ∃ pdfs, Forall2 (λ file pdf0, getDocument (content file) = Ok pdf0) files pdfs.
Proof.
  revert fileIndex ps. induction files as [|file files IH]; intros fileIndex ps;
    cbn [loadFiles].
  - intros _. by exists [].
  - destruct (getDocument (content file)) as [pdf0|e] eqn:Hload; [|done].
    intros [pdfs Hpdfs]%IH. exists (pdf0 :: pdfs). by constructor.
Qed.

(** A page of the listing is a page of one of the documents. *)
Lemma allPages_elem (fileIndex : nat) pdfs (pdf0 : Pdf) (k : nat) (n r : Z) :
  (pdf0, k, n, r) ∈ allPages numPages fileIndex pdfs →
  ∃ j, pdfs !! j = Some pdf0 ∧ k = fileIndex + j
       ∧ (1 ≤ n ≤ Z.of_nat (numPages pdf0))%Z ∧ r = 0%Z.
Proof.
  revert fileIndex. induction pdfs as [|pdf1 pdfs IH]; intros fileIndex.
  - unfold allPages. cbn. by intros ?%elem_of_nil.
  - rewrite allPages_cons. intros [Hin|Hin]%elem_of_app.
    + apply list_elem_of_fmap in Hin as (i & [= -> -> -> ->] & Hi).
      apply elem_of_seq in Hi. exists 0. split; [done|]. split; [lia|]. split; [lia|done].
    + destruct (IH _ Hin) as (j & Hj & -> & Hn & ->).
      exists (S j). split; [done|]. split; [lia|done].
Qed.

Lemma loaded_wellFormed pdfs ps :
  shown <$> ps = allPages numPages 0 pdfs →
  Forall (wellFormed numPages) ps ∧ coherent ps.
Proof.
  intros Hshown.
  assert (∀ p, p ∈ ps → ∃ j, pdfs !! j = Some (pdf p) ∧ originalFileIndex p = j
            ∧ (1 ≤ pageNumber p ≤ Z.of_nat (numPages (pdf p)))%Z ∧ rotation p = 0%Z)
    as Hpage.
  { intros p Hp. apply (list_elem_of_fmap_2 shown) in Hp. rewrite Hshown in Hp.
    by apply allPages_elem in Hp. }
  split.
  - apply Forall_forall. intros p (j & _ & _ & Hn & Hr)%Hpage. split; [|done].
    rewrite Hr. apply list_elem_of_here.
  - intros p q (j & Hj & Hpj & _)%Hpage (j' & Hj' & Hqj & _)%Hpage Hsame.
    congruence.
Qed.

(** When every selected file loads, the component lists every page of
    every document, file after file and page after page, each with its
    document, the place of its file, its number and no rotation; nothing is
    left of an earlier error or result. *)
Theorem organizer_lists_every_page files pdfs st :
  Forall2 (λ file pdf0, getDocument (content file) = Ok pdf0) files pdfs →
  let st' := handleFilesSelected getDocument numPages Date_now files st in
  shown <$> pages st' = allPages numPages 0 pdfs
  ∧ error st' = None ∧ pdfUrl st' = None ∧ isLoading st' = false.
Proof.
  intros Hloads. cbv zeta. unfold handleFilesSelected.
  destruct (loadFiles_loaded 0 files pdfs [] Hloads)
    as (made & -> & Hmade).
  done.
Qed.

(** When one selected file does not load, no page is listed, neither of
    the files that loaded nor of those that were listed before, and the
    error is shown. *)
Theorem organizer_load_is_all_or_nothing files st :
  Exists (λ file, ∃ e, getDocument (content file) = Throw e) files →
  let st' := handleFilesSelected getDocument numPages Date_now files st in
  pages st' = [] ∧ error st' = Some loadError ∧ isLoading st' = false.
Proof.
  intros Hfails. cbv zeta. unfold handleFilesSelected.
  by destruct (loadFiles_failed 0 files [] Hfails) as [e ->].
Qed.

(** With distinct ids, dragging a page over another moves it to the
    place of the other: afterwards it stands there and the other pages keep
    their order. *)
Theorem organizer_drag_moves (id' dragged : string) (d i : nat) (x y : @PageInfo Pdf) st :
  draggedId st = Some dragged → dragged ≠ id' →
  NoDup (id <$> pages st) →
  pages st !! d = Some x → id x = dragged →
  pages st !! i = Some y → id y = id' →
  ∃ st',
    handleDragEnter id' st = Some st'
    ∧ pages st' !! i = Some x
    ∧ delete i (pages st') = delete d (pages st)
    ∧ pages st' ≡ₚ pages st
    ∧ draggedId st' = Some dragged.
Proof.
  intros Hdragged Hne Hnodup Hx Hidx Hy Hidy. unfold handleDragEnter.
  rewrite Hdragged, bool_decide_eq_false_2 by done.
  rewrite <-Hidx, <-Hidy.
  rewrite (findIndex_NoDup id (pages st) d x Hnodup Hx).
  rewrite (findIndex_NoDup id (pages st) i y Hnodup Hy).
  rewrite (splice_delete _ _ _ Hx). cbn [lookup list_lookup].
  assert (i ≤ length (delete d (pages st))) as Hi.
  { apply lookup_lt_Some in Hy. rewrite length_delete by (by eexists). lia. }
  rewrite splice_insert by done.
  destruct (insert_at i x _ Hi) as (Hat & Hdel & Hperm).
  eexists. split; [done|]. cbn [pages setPages draggedId].
  split; [exact Hat|]. split; [exact Hdel|]. split; [|by rewrite Hidx].
  rewrite Hperm. symmetry. by apply delete_Permutation.
Qed.

(** Dragging never loses or doubles a page, whatever the ids are, also
    when the id that is dragged is none of the pages (the last page is then
    the one that moves): the pages afterwards are a rearrangement. *)
Theorem organizer_drag_keeps_pages (id' : string) st :
  pages st ≠ [] →
  ∃ st', handleDragEnter id' st = Some st' ∧ pages st' ≡ₚ pages st.
Proof.
  intros Hpages. destruct (handleDragEnter_pages id' st Hpages) as (ps & -> & Hps).
  by eexists.
Qed.

Lemma wellFormed_Permutation ps ps' :
  ps' ≡ₚ ps →
  Forall (wellFormed numPages) ps ∧ coherent ps →
  Forall (wellFormed numPages) ps' ∧ coherent ps'.
Proof.
  intros Hperm [Hwf Hco]. split; [by rewrite Hperm|].
  intros p q Hp Hq. rewrite Hperm in Hp, Hq. by apply Hco.
Qed.

Lemma handleDragEnter_Some (id' : string) st st' :
  handleDragEnter id' st = Some st' → pages st' ≡ₚ pages st.
Proof.
  destruct (decide (pages st = [])) as [Hnil|Hpages].
  - unfold handleDragEnter. destruct (draggedId st); [|by intros [= <-]].
    case_bool_decide; [by intros [= <-]|]. rewrite Hnil.
    by destruct (JsArray.findIndex _ _) as [|?|[]].
  - destruct (handleDragEnter_pages id' st Hpages) as (ps & -> & Hps).
    by intros [= <-].
Qed.

(** Whatever the user does, every page of the component has a rotation
    of 0, 90, 180 or 270 and a page number of its document (from 1 to the
    page count), and pages of one source file show one document. *)
Theorem organizer_pages_wellFormed st :
  reachable getDocument numPages getData Date_now createObjectURL st →
  Forall (wellFormed numPages) (pages st) ∧ coherent (pages st).
Proof.
  induction 1 as [|action st st' _ IH Hstep].
  { split; [constructor|]. by intros p q ?%elem_of_nil. }
  destruct action; cbn in Hstep; try injection Hstep as <-.
  - unfold handleFilesSelected.
    destruct (loadFiles _ _ _ 0 selectedFiles []) as [ps|e] eqn:Hload; cbn.
    + destruct (loadFiles_Ok_inv _ _ _ _ Hload) as [pdfs Hpdfs].
      destruct (loadFiles_loaded 0 _ _ [] Hpdfs)
        as (made & Hmade & Hshown).
      rewrite Hload in Hmade. injection Hmade as ->.
      by eapply loaded_wellFormed.
    + split; [constructor|]. by intros p q ?%elem_of_nil.
  - unfold handleSave. by case_bool_decide; [|destruct (organize _ _)].
  - split; [constructor|]. by intros p q ?%elem_of_nil.
  - done.
  - eapply wellFormed_Permutation; [|exact IH]. by eapply handleDragEnter_Some.
  - done.
  - destruct IH as [Hwf Hco]. split.
    + rewrite Forall_forall in Hwf. apply Forall_forall.
      intros p [_ Hp]%list_elem_of_filter. by apply Hwf.
    + intros p q [_ Hp]%list_elem_of_filter [_ Hq]%list_elem_of_filter. by apply Hco.
  - destruct IH as [Hwf Hco]. cbn. split.
    + apply Forall_fmap. eapply Forall_impl; [exact Hwf|]. intros p Hp. cbn.
      case_bool_decide; [by apply rotate_wellFormed|done].
    + intros p q (p0 & -> & Hp)%list_elem_of_fmap (q0 & -> & Hq)%list_elem_of_fmap.
      specialize (Hco p0 q0 Hp Hq). by repeat case_bool_decide.
Qed.

(** The [reduce] of [handleSave]. *)
Lemma representatives ps acc :
  NoDup (originalFileIndex <$> acc) →
  let reps :=
    foldl (λ acc page,
             if JsArray.some (λ p, originalFileIndex p = originalFileIndex page) acc
             then acc else acc ++ [page]) acc ps in
  NoDup (originalFileIndex <$> reps)
  ∧ (∀ q, q ∈ reps → q ∈ acc ∨ q ∈ ps)
  ∧ (∀ p, p ∈ acc ∨ p ∈ ps →
          originalFileIndex p ∈ originalFileIndex <$> reps).
Proof.
  revert acc. induction ps as [|page ps IH]; intros acc Hacc; cbn [foldl].
  { split; [done|]. split; [by left|].
    intros p [Hp|Hp%elem_of_nil]; [|done]. by apply list_elem_of_fmap_2. }
  destruct (JsArray.some (λ p, originalFileIndex p = originalFileIndex page) acc)
    eqn:Hseen; unfold JsArray.some in Hseen;
    [apply bool_decide_eq_true in Hseen|apply bool_decide_eq_false in Hseen].
  - destruct (IH acc Hacc) as (Hnodup & Hfrom & Hall).
    split; [done|]. split.
    + intros q [Hq|Hq]%Hfrom; [by left|right; by right].
    + intros p [Hp|[->|Hp]%elem_of_cons]; [apply Hall; by left| |apply Hall; by right].
      rewrite Exists_exists in Hseen. destruct Hseen as (q & Hq & Heq).
      rewrite <-Heq. apply Hall. by left.
  - assert (NoDup (originalFileIndex <$> acc ++ [page])) as Hacc'.
    { rewrite fmap_app. apply NoDup_app. split; [done|]. split; [|apply NoDup_singleton].
      intros k (q & -> & Hq)%list_elem_of_fmap Heq%list_elem_of_singleton.
      apply Hseen, Exists_exists. by exists q. }
    destruct (IH _ Hacc') as (Hnodup & Hfrom & Hall).
    split; [done|]. split.
    + intros q Hq. destruct (Hfrom q Hq) as [Hq'|Hq']; [|right; by right].
      apply elem_of_app in Hq' as [Hq'|Hq']; [by left|].
      apply list_elem_of_singleton in Hq' as ->. right. by left.
    + intros p [Hp|[->|Hp]%elem_of_cons]; apply Hall.
      * left. apply elem_of_app. by left.
      * left. apply elem_of_app. right. by apply list_elem_of_singleton.
      * by right.
Qed.

Lemma originalFiles_representatives ps :
  NoDup (originalFileIndex <$> originalFiles ps)
  ∧ (∀ q, q ∈ originalFiles ps → q ∈ ps)
  ∧ (∀ p, p ∈ ps → originalFileIndex p ∈ originalFileIndex <$> originalFiles ps).
Proof.
  destruct (representatives ps [] (NoDup_nil_2)) as (Hnodup & Hfrom & Hall).
  unfold originalFiles. rewrite sort_Permutation. split; [done|]. split.
  - intros q Hq. rewrite sort_Permutation in Hq.
    by destruct (Hfrom q Hq) as [?%elem_of_nil|].
  - intros p Hp. rewrite sort_Permutation. apply Hall. by right.
Qed.

Lemma Sorted_weaken {A} (R R' : relation A) (l : list A) :
  (∀ a b, R a b → R' a b) → Sorted R l → Sorted R' l.
Proof.
  intros Himpl. induction 1 as [|x l _ IH Hhd]; constructor; [done|].
  destruct Hhd; constructor. by apply Himpl.
Qed.

Lemma ascending_NoDup {A} (f : A → nat) (l : list A) :
  Sorted (λ a b, f a ≤ f b) l → NoDup (f <$> l) → StronglySorted lt (f <$> l).
Proof.
  intros Hsorted Hnodup.
  assert (Transitive (λ a b : A, f a ≤ f b)) by (intros a b c; lia).
  apply Sorted_StronglySorted in Hsorted; [|done].
  induction Hsorted as [|x l _ IH Hx]; [constructor|].
  rewrite fmap_cons in *. apply NoDup_cons in Hnodup as [Hnew Hnodup].
  constructor; [by apply IH|].
  apply Forall_fmap, Forall_forall. intros y Hy. rewrite Forall_forall in Hx.
  specialize (Hx y Hy). cbn.
  assert (f x ≠ f y); [|lia]. intros Heq. apply Hnew. rewrite Heq.
  by apply list_elem_of_fmap_2.
Qed.

(** [handleSave] loads the source files by ascending index, each once,
    and among them the source of every page: the second loop never reads a
    document that was not loaded. *)
Theorem sources_loaded_once_in_order ps :
  StronglySorted lt (originalFileIndex <$> originalFiles ps)
  ∧ (∀ q, q ∈ originalFiles ps → q ∈ ps)
  ∧ (∀ p, p ∈ ps → originalFileIndex p ∈ originalFileIndex <$> originalFiles ps).
Proof.
  destruct (originalFiles_representatives ps) as (Hnodup & Hfrom & Hall).
  split; [|done]. apply ascending_NoDup; [|done].
  eapply Sorted_weaken; [|apply sort_Sorted].
  - intros a b. unfold JsArray.before. lia.
  - intros a b. lia.
Qed.

Lemma loadOriginals_Ok (reps : list (@PageInfo Pdf)) m0 m :
  loadOriginals getData reps m0 = Ok m →
  NoDup (originalFileIndex <$> reps) →
  (∀ q, q ∈ reps →
        ∃ bytes doc, getData (pdf q) = Ok bytes ∧ PDFDocument_load bytes = Ok doc
                     ∧ m !! originalFileIndex q = Some doc)
  ∧ (∀ k, k ∉ originalFileIndex <$> reps → m !! k = m0 !! k).
Proof.
  revert m0. induction reps as [|q reps IH]; intros m0; cbn [loadOriginals].
  { intros [= ->] _. split; [by intros q ?%elem_of_nil|done]. }
  destruct (getData (pdf q)) as [bytes|e] eqn:Hdata; [|done].
  destruct (PDFDocument_load bytes) as [doc|e] eqn:Hdoc; [|done].
  intros Hrest [Hnew Hnodup]%NoDup_cons.
  destruct (IH _ Hrest Hnodup) as [Hin Hout]. split.
  - intros q' [->|Hq']%elem_of_cons; [|by apply Hin].
    exists bytes, doc. split; [done|]. split; [done|].
    by rewrite Hout, lookup_insert_eq.
  - intros k Hk. rewrite fmap_cons, not_elem_of_cons in Hk. destruct Hk as [Hne Hk].
    by rewrite Hout, lookup_insert_ne.
Qed.

Lemma loadOriginals_succeeds (reps : list (@PageInfo Pdf)) m0 :
  (∀ q, q ∈ reps →
        ∃ bytes doc, getData (pdf q) = Ok bytes ∧ PDFDocument_load bytes = Ok doc) →
  ∃ m, loadOriginals getData reps m0 = Ok m.
Proof.
  revert m0. induction reps as [|q reps IH]; intros m0 Hall; cbn [loadOriginals].
  { by exists m0. }
  destruct (Hall q) as (bytes & doc & -> & ->); [left|].
  apply IH. intros q' Hq'. apply Hall. by right.
Qed.

Lemma copyAll_Ok ps m (out0 out : list (DonorPage * Z)) :
  copyAll ps m out0 = Ok out →
  ∃ made,
    out = out0 ++ made
    ∧ Forall2 (λ p o,
        ∃ doc, m !! originalFileIndex p = Some doc
               ∧ (1 ≤ pageNumber p)%Z
               ∧ doc !! Z.to_nat (pageNumber p - 1) = Some o.1
               ∧ o.2 = rotation p) ps made.
Proof.
  revert out0. induction ps as [|p ps IH]; intros out0; cbn [copyAll].
  { intros [= ->]. exists []. by rewrite app_nil_r. }
  unfold copyPage.
  destruct (m !! originalFileIndex p) as [doc|] eqn:Hdoc; [|done].
  destruct (Z.ltb_spec (pageNumber p - 1) 0) as [|Hn]; [done|].
  destruct (doc !! Z.to_nat (pageNumber p - 1)) as [copied|] eqn:Hcopied; [|done].
  intros (made & -> & Hmade)%IH. eexists (_ :: made).
  split; [by rewrite <-app_assoc|]. constructor; [|done].
  exists doc. cbn. repeat split; [done|lia|done].
Qed.

Lemma copyAll_succeeds ps m (out0 : list (DonorPage * Z)) :
  (∀ p, p ∈ ps → ∃ doc, m !! originalFileIndex p = Some doc
                        ∧ (1 ≤ pageNumber p ≤ Z.of_nat (length doc))%Z) →
  ∃ out, copyAll ps m out0 = Ok out.
Proof.
  revert out0. induction ps as [|p ps IH]; intros out0 Hall; cbn [copyAll].
  { by exists out0. }
  destruct (Hall p) as (doc & Hdoc & Hn); [left|]. rewrite Hdoc. unfold copyPage.
  destruct (Z.ltb_spec (pageNumber p - 1) 0) as [|_]; [lia|].
  destruct (lookup_lt_is_Some_2 doc (Z.to_nat (pageNumber p - 1))) as [copied ->]; [lia|].
  apply IH. intros p' Hp'. apply Hall. by right.
Qed.

Lemma Forall2_with_elem {A B} (P : A → B → Prop) (l : list A) (k : list B) :
  Forall2 P l k → Forall2 (λ a b, a ∈ l ∧ P a b) l k.
Proof.
  induction 1 as [|a b l k Hab _ IH]; constructor.
  - split; [left|done].
  - eapply Forall2_impl; [exact IH|]. intros a' b' [Ha' ?]. split; [by right|done].
Qed.

(** The document that [handleSave] saves has, for every page of the
    component and in that order, the page of that number of the document
    that pdf-lib loads from the page's PDF, with the page's rotation. *)
Theorem saved_pages_match_organizer ps (out : list (DonorPage * Z)) :
  coherent ps →
  organize getData ps = Ok out →
  Forall2 (λ p o, sourceOf getData p o.1 ∧ o.2 = rotation p) ps out.
Proof.
  intros Hco. unfold organize.
  destruct PDFDocument_create as [_|e]; [|done].
  destruct (loadOriginals getData (originalFiles ps) ∅) as [m|e] eqn:Hload; [|done].
  intros (made & -> & Hmade)%copyAll_Ok. rewrite app_nil_l.
  destruct (originalFiles_representatives ps) as (Hnodup & Hfrom & Hall).
  destruct (loadOriginals_Ok _ _ _ Hload Hnodup) as [Hin _].
  eapply Forall2_impl; [apply Forall2_with_elem, Hmade|].
  intros p o (Hp & doc & Hdoc & Hn & Hcopied & Hr). split; [|done].
  destruct (proj1 (list_elem_of_fmap _ _ _) (Hall p Hp)) as (q & Hidx & Hq).
  destruct (Hin q Hq) as (bytes & doc' & Hdata & Hloaded & Hdoc').
  rewrite <-Hidx, Hdoc in Hdoc'. injection Hdoc' as <-.
  exists bytes, doc. rewrite (Hco p q Hp (Hfrom q Hq) Hidx). done.
Qed.

(** [handleSave] saves and offers the document, with as many pages as the
    component shows, whenever the output document can be created and
    pdf-lib loads every source with at least the pages that pdf.js
    counted. *)
Theorem handleSave_saves st :
  pages st ≠ [] →
  Forall (wellFormed numPages) (pages st) → coherent (pages st) →
  PDFDocument_create = Ok tt →
  (∀ p, p ∈ pages st →
        ∃ bytes doc, getData (pdf p) = Ok bytes ∧ PDFDocument_load bytes = Ok doc
                     ∧ numPages (pdf p) ≤ length doc) →
  ∃ out,
    organize getData (pages st) = Ok out
    ∧ length out = length (pages st)
    ∧ handleSave getData createObjectURL st
      = setIsSaving false (setPdfUrl (Some (createObjectURL out)) (setError None st)).
Proof.
  intros Hpages Hwf Hco Hcreate Hdocs.
  destruct (originalFiles_representatives (pages st)) as (Hnodup & Hfrom & Hall).
  destruct (loadOriginals_succeeds (originalFiles (pages st)) ∅) as [m Hload].
  { intros q Hq%Hfrom. destruct (Hdocs q Hq) as (bytes & doc & ? & ? & _). by eauto. }
  destruct (loadOriginals_Ok _ _ _ Hload Hnodup) as [Hin _].
  destruct (copyAll_succeeds (pages st) m []) as [out Hout].
  { intros p Hp.
    destruct (proj1 (list_elem_of_fmap _ _ _) (Hall p Hp)) as (q & Hidx & Hq).
    destruct (Hin q Hq) as (bytes & doc & Hdata & Hloaded & Hdoc).
    destruct (Hdocs p Hp) as (bytes' & doc' & Hdata' & Hloaded' & Hcount).
    rewrite (Hco p q Hp (Hfrom q Hq) Hidx) in Hdata', Hcount.
    assert (doc' = doc) as -> by congruence.
    exists doc. rewrite Hidx. split; [done|].
    rewrite Forall_forall in Hwf. destruct (Hwf p Hp) as [_ Hn].
    rewrite (Hco p q Hp (Hfrom q Hq) Hidx) in Hn. lia. }
  assert (organize getData (pages st) = Ok out) as Horg.
  { unfold organize. by rewrite Hcreate, Hload. }
  exists out. split; [done|]. split.
  - apply copyAll_Ok in Hout as (made & -> & Hmade).
    by rewrite app_nil_l, <-(Forall2_length _ _ _ Hmade).
  - unfold handleSave. rewrite bool_decide_eq_false_2.
    + cbn [pages setError setIsSaving]. by rewrite Horg.
    + by destruct (pages st).
Qed.

End Organizer.

(** The statements above on the two small documents. *)

Lemma organized_loads :
  Forall2 (λ file pdf0, Organized.getDocument (content file) = Ok pdf0)
    [Toy.pdf2; Toy.formXlsx] [content Toy.pdf2; content Toy.formXlsx].
Proof. by repeat constructor. Qed.

Lemma organized_listed :
  PdfOrganizer.pages Organized.loaded = Organized.listed.
Proof. vm_compute. reflexivity. Qed.

Lemma organized_wellFormed :
  Forall (PdfOrganizer.wellFormed Organized.numPages) Organized.listed
  ∧ PdfOrganizer.coherent Organized.listed.
Proof.
  apply (loaded_wellFormed Organized.numPages [content Toy.pdf2; content Toy.formXlsx]).
  vm_compute. reflexivity.
Qed.

Lemma organized_sources (p : @PdfOrganizer.PageInfo Bytes) :
  p ∈ Organized.listed →
  ∃ (bytes : Bytes) (doc : list (@DonorPage (Toy.host true))),
    Organized.getData (PdfOrganizer.pdf p) = Ok bytes
    ∧ @PDFDocument_load (Toy.host true) bytes = Ok doc
    ∧ Organized.numPages (PdfOrganizer.pdf p) ≤ length doc.
Proof.
  unfold Organized.listed. rewrite !elem_of_cons, elem_of_nil.
  intros [->|[->|[->|[]]]]; eexists _, _; (split; [reflexivity|]);
    (split; [vm_compute; reflexivity|vm_compute; lia]).
Qed.

Lemma organized_saved :
  @PdfOrganizer.organize (Toy.host true) Bytes Organized.getData Organized.listed
  = Ok [(Byte.x01, 0%Z); (Byte.x02, 0%Z); (Byte.x01, 0%Z)].
Proof. vm_compute. reflexivity. Qed.

Lemma four_rotations_restore_witness :
  Forall (λ page, (0 ≤ PdfOrganizer.rotation page < 360)%Z)
    (PdfOrganizer.pages Organized.dragging)
  ∧ PdfOrganizer.handleRotatePage "b.pdf-1-1700000000000"
      (PdfOrganizer.handleRotatePage "b.pdf-1-1700000000000"
         (PdfOrganizer.handleRotatePage "b.pdf-1-1700000000000"
            (PdfOrganizer.handleRotatePage "b.pdf-1-1700000000000" Organized.dragging)))
    = Organized.dragging.
Proof.
  assert (Forall (λ page, (0 ≤ PdfOrganizer.rotation page < 360)%Z)
            (PdfOrganizer.pages Organized.dragging)) as Hturns.
  { change (PdfOrganizer.pages Organized.dragging)
      with ((λ page, if bool_decide (PdfOrganizer.id page = "b.pdf-1-1700000000000")
                     then PdfOrganizer.rotate page else page)
            <$> PdfOrganizer.pages Organized.loaded).
    rewrite organized_listed. unfold Organized.listed. rewrite !fmap_cons, fmap_nil.
    repeat (apply List.Forall_cons; [vm_compute; split; [discriminate|reflexivity]|]).
    apply List.Forall_nil. }
  split; [exact Hturns|].
  exact (four_rotations_restore _ _ Hturns).
Defined.

Lemma organizer_pages_wellFormed_witness :
  PdfOrganizer.reachable Organized.getDocument Organized.numPages Organized.getData
    Organized.Date_now Organized.createObjectURL Organized.dragging
  ∧ Forall (PdfOrganizer.wellFormed Organized.numPages)
      (PdfOrganizer.pages Organized.dragging)
  ∧ PdfOrganizer.coherent (PdfOrganizer.pages Organized.dragging).
Proof.
  assert (PdfOrganizer.reachable (H := Toy.host true) Organized.getDocument
            Organized.numPages Organized.getData Organized.Date_now
            Organized.createObjectURL Organized.dragging) as Hreach.
  { eapply (PdfOrganizer.reachable_step _ _ _ _ _
              (PdfOrganizer.RotatePage "b.pdf-1-1700000000000")); [|reflexivity].
    eapply (PdfOrganizer.reachable_step _ _ _ _ _
              (PdfOrganizer.DragStart "b.pdf-1-1700000000000")); [|reflexivity].
    eapply (PdfOrganizer.reachable_step _ _ _ _ _
              (PdfOrganizer.FilesSelected [Toy.pdf2; Toy.formXlsx])); [|reflexivity].
    apply PdfOrganizer.reachable_initial. }
  split; [exact Hreach|].
  exact (organizer_pages_wellFormed _ _ _ _ _ _ Hreach).
Defined.

Lemma organizer_drag_moves_witness :
  PdfOrganizer.draggedId Organized.dragging = Some "b.pdf-1-1700000000000" ∧
  "b.pdf-1-1700000000000" ≠ "form.xlsx-1-1700000000002" ∧
  NoDup (PdfOrganizer.id <$> PdfOrganizer.pages Organized.dragging) ∧
  (∃ x y,
     PdfOrganizer.pages Organized.dragging !! 0 = Some x
     ∧ PdfOrganizer.id x = "b.pdf-1-1700000000000"
     ∧ PdfOrganizer.pages Organized.dragging !! 2 = Some y
     ∧ PdfOrganizer.id y = "form.xlsx-1-1700000000002"
     ∧ ∃ st',
         PdfOrganizer.handleDragEnter "form.xlsx-1-1700000000002" Organized.dragging
         = Some st'
         ∧ PdfOrganizer.pages st' !! 2 = Some x
         ∧ delete 2 (PdfOrganizer.pages st')
           = delete 0 (PdfOrganizer.pages Organized.dragging)
         ∧ PdfOrganizer.pages st' ≡ₚ PdfOrganizer.pages Organized.dragging
         ∧ PdfOrganizer.draggedId st' = Some "b.pdf-1-1700000000000").
Proof.
  assert (PdfOrganizer.draggedId Organized.dragging = Some "b.pdf-1-1700000000000")
    as Hdragged by reflexivity.
  assert ("b.pdf-1-1700000000000" ≠ "form.xlsx-1-1700000000002") as Hne by discriminate.
  assert (NoDup (PdfOrganizer.id <$> PdfOrganizer.pages Organized.dragging)) as Hnodup.
  { refine (bool_decide_unpack _ _). vm_compute. exact I. }
  destruct (PdfOrganizer.pages Organized.dragging !! 0) as [x|] eqn:Hx;
    [|vm_compute in Hx; discriminate].
  destruct (PdfOrganizer.pages Organized.dragging !! 2) as [y|] eqn:Hy;
    [|vm_compute in Hy; discriminate].
  assert (PdfOrganizer.id x = "b.pdf-1-1700000000000") as Hidx.
  { vm_compute in Hx. by injection Hx as <-. }
  assert (PdfOrganizer.id y = "form.xlsx-1-1700000000002") as Hidy.
  { vm_compute in Hy. by injection Hy as <-. }
  do 3 (split; [assumption|]). exists x, y. do 4 (split; [done|]).
  exact (organizer_drag_moves _ _ 0 2 x y _ Hdragged Hne Hnodup Hx Hidx Hy Hidy).
Defined.

Lemma organizer_drag_keeps_pages_witness :
  PdfOrganizer.pages Organized.dragging ≠ [] ∧
  ∃ st',
    PdfOrganizer.handleDragEnter "form.xlsx-1-1700000000002" Organized.dragging = Some st'
    ∧ PdfOrganizer.pages st' ≡ₚ PdfOrganizer.pages Organized.dragging.
Proof.
  assert (PdfOrganizer.pages Organized.dragging ≠ []) as Hpages
    by (vm_compute; discriminate).
  split; [exact Hpages|].
  exact (organizer_drag_keeps_pages _ _ Hpages).
Defined.

Lemma organizer_lists_every_page_witness :
  Forall2 (λ file pdf0, Organized.getDocument (content file) = Ok pdf0)
    [Toy.pdf2; Toy.formXlsx] [content Toy.pdf2; content Toy.formXlsx] ∧
  let st' :=
    PdfOrganizer.handleFilesSelected Organized.getDocument Organized.numPages
      Organized.Date_now [Toy.pdf2; Toy.formXlsx] Organized.dragging in
  PdfOrganizer.shown <$> PdfOrganizer.pages st'
  = PdfOrganizer.allPages Organized.numPages 0 [content Toy.pdf2; content Toy.formXlsx]
  ∧ PdfOrganizer.error st' = None ∧ PdfOrganizer.pdfUrl st' = None
  ∧ PdfOrganizer.isLoading st' = false.
Proof.
  split; [exact organized_loads|].
  exact (organizer_lists_every_page _ _ _ _ _ _ organized_loads).
Defined.

Lemma organizer_load_is_all_or_nothing_witness :
  Exists (λ file, ∃ e, Organized.getDocument (content file) = Throw e)
    [Toy.pdf2; Toy.badPdf] ∧
  let st' :=
    PdfOrganizer.handleFilesSelected Organized.getDocument Organized.numPages
      Organized.Date_now [Toy.pdf2; Toy.badPdf] Organized.dragging in
  PdfOrganizer.pages st' = [] ∧ PdfOrganizer.error st' = Some PdfOrganizer.loadError
  ∧ PdfOrganizer.isLoading st' = false.
Proof.
  assert (Exists (λ file, ∃ e, Organized.getDocument (content file) = Throw e)
            [Toy.pdf2; Toy.badPdf]) as Hfails.
  { apply Exists_cons_tl, Exists_cons_hd. eexists. vm_compute. reflexivity. }
  split; [exact Hfails|].
  exact (organizer_load_is_all_or_nothing _ _ _ _ _ Hfails).
Defined.

Lemma saved_pages_match_organizer_witness :
  PdfOrganizer.coherent Organized.listed ∧
  @PdfOrganizer.organize (Toy.host true) Bytes Organized.getData Organized.listed
  = Ok [(Byte.x01, 0%Z); (Byte.x02, 0%Z); (Byte.x01, 0%Z)] ∧
  Forall2 (λ p (o : @DonorPage (Toy.host true) * Z),
             @PdfOrganizer.sourceOf (Toy.host true) Bytes Organized.getData p o.1
             ∧ o.2 = PdfOrganizer.rotation p)
    Organized.listed [(Byte.x01, 0%Z); (Byte.x02, 0%Z); (Byte.x01, 0%Z)].
Proof.
  split; [exact (proj2 organized_wellFormed)|]. split; [exact organized_saved|].
  exact (@saved_pages_match_organizer (Toy.host true) Bytes Organized.getData _ _
           (proj2 organized_wellFormed) organized_saved).
Defined.

Lemma handleSave_saves_witness :
  PdfOrganizer.pages Organized.loaded ≠ [] ∧
  Forall (PdfOrganizer.wellFormed Organized.numPages) (PdfOrganizer.pages Organized.loaded) ∧
  PdfOrganizer.coherent (PdfOrganizer.pages Organized.loaded) ∧
  @PDFDocument_create (Toy.host true) = Ok tt ∧
  (∀ p, p ∈ PdfOrganizer.pages Organized.loaded →
        ∃ (bytes : Bytes) (doc : list (@DonorPage (Toy.host true))),
          Organized.getData (PdfOrganizer.pdf p) = Ok bytes
          ∧ @PDFDocument_load (Toy.host true) bytes = Ok doc
          ∧ Organized.numPages (PdfOrganizer.pdf p) ≤ length doc) ∧
  ∃ out,
    @PdfOrganizer.organize (Toy.host true) Bytes Organized.getData
      (PdfOrganizer.pages Organized.loaded) = Ok out
    ∧ length out = length (PdfOrganizer.pages Organized.loaded)
    ∧ @PdfOrganizer.handleSave (Toy.host true) Bytes Organized.getData
        Organized.createObjectURL Organized.loaded
      = PdfOrganizer.setIsSaving false
          (PdfOrganizer.setPdfUrl (Some (Organized.createObjectURL out))
             (PdfOrganizer.setError None Organized.loaded)).
Proof.
  assert (PdfOrganizer.pages Organized.loaded ≠ []) as Hpages
    by (rewrite organized_listed; discriminate).
  pose proof organized_wellFormed as [Hwf Hco]. rewrite <-organized_listed in Hwf, Hco.
  assert (@PDFDocument_create (Toy.host true) = Ok tt) as Hcreate by reflexivity.
  assert (∀ p, p ∈ PdfOrganizer.pages Organized.loaded →
            ∃ (bytes : Bytes) (doc : list (@DonorPage (Toy.host true))),
              Organized.getData (PdfOrganizer.pdf p) = Ok bytes
              ∧ @PDFDocument_load (Toy.host true) bytes = Ok doc
              ∧ Organized.numPages (PdfOrganizer.pdf p) ≤ length doc) as Hdocs.
  { intros p Hp. rewrite organized_listed in Hp. by apply organized_sources. }
  do 5 (split; [assumption|]).
  exact (@handleSave_saves (Toy.host true) Bytes Organized.numPages Organized.getData
           Organized.createObjectURL Organized.loaded Hpages Hwf Hco Hcreate Hdocs).
Defined.

(** * The page after a merge *)

Section Dom.
Context `{Host}.
Implicit Types (onProgress : option (string → AppState → AppState)).
Implicit Types (w : World) (file : File).

Lemma embedHtmlAsImage_dom (htmlContent : string) w :
  nextNode (embedHtmlAsImage htmlContent w).2 = S (S (nextNode w))
  ∧ body (embedHtmlAsImage htmlContent w).2 = filter (λ c, c ≠ nextNode w) (body w).
Proof.
  destruct w as [d ns nn b a t].
  unfold embedHtmlAsImage. js_run.
  destruct (html2canvas _ _) as [canvas|e]; js_run;
    [destruct (canvas_toDataURL _ _ _) as [url|e]; js_run;
      [destruct (fetch_arrayBuffer _) as [bytes|e]; js_run;
        [destruct (embedJpg _) as [image|e]; js_run|]|]|].
  all: done.
Qed.

Lemma processFile_dom file w :
  nextNode w ≤ nextNode (processFile file w).2
  ∧ (body (processFile file w).2 = body w
     ∨ body (processFile file w).2 = filter (λ c, c ≠ nextNode w) (body w)).
Proof.
  assert (∀ html w0, nextNode w0 = nextNode w → body w0 = body w →
            nextNode w ≤ nextNode (embedHtmlAsImage html w0).2
            ∧ (body (embedHtmlAsImage html w0).2 = body w
               ∨ body (embedHtmlAsImage html w0).2
                 = filter (λ c, c ≠ nextNode w) (body w))) as Hembed.
  { intros html w0 Hn Hb. destruct (embedHtmlAsImage_dom html w0) as [-> ->].
    rewrite Hn, Hb. split; [lia|by right]. }
  destruct w as [d ns nn b a t].
  unfold processFile.
  destruct (startsWith (type file) "image/").
  { unfold imageBranch. js_run.
    destruct (bool_decide (type file = "image/jpeg")); js_run.
    { destruct (embedJpg _); js_run; cbn; auto. }
    destruct (bool_decide (type file = "image/png")); js_run.
    { destruct (embedPng _); js_run; cbn; auto. }
    destruct (encodeText _); js_run; cbn; auto. }
  destruct (bool_decide (type file = "application/pdf")).
  { unfold pdfBranch. js_run.
    destruct (PDFDocument_load _) as [donor|e]; js_run;
      [|destruct (encodeText _); js_run; cbn; auto].
    rewrite copyPages_run. js_unfold. rewrite forOf_addPageOf. js_unfold.
    cbn; auto. }
  destruct (bool_decide (type file = docxType) || _).
  { unfold wordBranch. js_run.
    destruct (mammoth_convertToHtml _) as [html|e]; js_run;
      [|destruct (encodeText _); js_run; cbn; auto].
    match goal with |- context [embedHtmlAsImage ?h ?w0] =>
      destruct (Hembed h w0 eq_refl eq_refl) as [Hn Hb];
      destruct (embedHtmlAsImage_run h w0) as (w' & Hrun & _);
      rewrite Hrun in Hn, Hb |- *
    end. done. }
  destruct (bool_decide (type file = xlsxType) || _).
  { unfold excelBranch. js_run.
    destruct (XLSX_read _) as [workbook|e]; js_run;
      [|destruct (encodeText _); js_run; cbn; auto].
    destruct (XLSX_sheet_to_html _) as [html|e]; js_run;
      [|destruct (encodeText _); js_run; cbn; auto].
    match goal with |- context [embedHtmlAsImage ?h ?w0] =>
      destruct (Hembed h w0 eq_refl eq_refl) as [Hn Hb];
      destruct (embedHtmlAsImage_run h w0) as (w' & Hrun & _);
      rewrite Hrun in Hn, Hb |- *
    end. done. }
  unfold otherBranch. js_run. destruct (encodeText _); js_run; cbn; auto.
Qed.


Lemma attached_kept w w' :
  attached w → nextNode w ≤ nextNode w' →
  body w' = body w ∨ body w' = filter (λ c, c ≠ nextNode w) (body w) →
  body w' = body w ∧ attached w'.
Proof.
  unfold attached. intros Hfresh Hnext Hbody.
  assert (body w' = body w) as Hsame.
  { destruct Hbody as [->| ->]; [done|]. apply filter_all.
    eapply Forall_impl; [exact Hfresh|]. intros c Hc. cbn in *. lia. }
  split; [done|]. rewrite Hsame.
  eapply Forall_impl; [exact Hfresh|]. intros c Hc. cbn in *. lia.
Qed.

Lemma body_dom onProgress file w :
  attached w →
  let w' := ((notify onProgress (name file);;; processFile file) w).2 in
  body w' = body w ∧ attached w'.
Proof.
  intros Hfresh. cbv zeta. unfold bind. rewrite notify_run.
  match goal with |- context [processFile file ?w0] =>
    destruct (processFile_dom file w0) as [Hnext Hbody];
    destruct (processFile file w0) as [r w1]
  end.
  destruct w as [d ns nn b a t]. cbn [fst snd] in *.
  by apply (attached_kept (Build_World d ns nn b a t)).
Qed.

Lemma forOf_dom onProgress (files : list File) w :
  attached w →
  let w' := (forOf files (λ file, notify onProgress (name file);;; processFile file) w).2 in
  body w' = body w ∧ attached w'.
Proof.
  revert w. induction files as [|file rest IH]; intros w Hfresh; [done|].
  cbv zeta. rewrite forOf_cons.
  destruct (body_dom onProgress file w Hfresh) as [Hbody Hfresh'].
  destruct ((notify onProgress (name file);;; processFile file) w) as [[[]|e] w1];
    cbn [fst snd] in *; [|done].
  destruct (IH w1 Hfresh') as [Hbody' Hfresh'']. by rewrite Hbody', Hbody.
Qed.

(** Whatever the files are and however the call ends, [mergeFilesToPdf]
    leaves [document.body] with the children it had, in their order: every
    container that was attached for rendering is removed again. *)
Theorem merge_leaves_body_as_it_was onProgress (files : list File) w :
  attached w →
  body (mergeFilesToPdf files onProgress w).2 = body w
  ∧ attached (mergeFilesToPdf files onProgress w).2.
Proof.
  intros Hfresh. unfold mergeFilesToPdf.
  rewrite bind_run, create_run.
  destruct PDFDocument_create as [[]|e]; [|by destruct w].
  rewrite bind_run.
  match goal with |- context [forOf files ?b ?w0] =>
    destruct (forOf_dom onProgress files w0) as [Hbody Hfresh'];
      [by destruct w|];
    destruct (forOf files b w0) as [[[]|e] w1]
  end; cbn [fst snd] in *.
  - rewrite save_run. destruct w, w1. done.
  - by destruct w.
Qed.

End Dom.

Lemma merge_leaves_body_as_it_was_witness :
  attached Sample.page ∧
  body (@mergeFilesToPdf (Toy.host true) Toy.batch (Some Toy.remember)
          Sample.page).2 = body Sample.page
  ∧ attached (@mergeFilesToPdf (Toy.host true) Toy.batch (Some Toy.remember)
                Sample.page).2.
Proof.
  assert (attached Sample.page) as Hattached.
  { unfold attached. cbn. repeat (apply List.Forall_cons; [lia|]). apply List.Forall_nil. }
  split; [exact Hattached|].
  exact (@merge_leaves_body_as_it_was (Toy.host true) (Some Toy.remember) Toy.batch
           Sample.page Hattached).
Defined.

(** * The conversation *)

Section Splitting.

Lemma includes_comma (c : ascii) (s : string) :
  includes (String c s) "," = false → c ≠ ","%char ∧ includes s "," = false.
Proof.
  intros Hs. cbn [includes String.prefix] in Hs.
  destruct (ascii_dec "," c) as [<-|Hc]; cbn [String.prefix orb] in Hs;
    [by destruct s|].
  split; [congruence|done].
Qed.

Lemma split_whole (s : string) :
  includes s "," = false → AiChat.split "," s = [s].
Proof.
  induction s as [|c s IH]; [done|].
  intros [Hc Hs]%includes_comma. cbn [AiChat.split].
  destruct (Ascii.eqb_spec c ","); [done|]. by rewrite IH.
Qed.

Lemma split_first (a b : string) :
  includes a "," = false →
  AiChat.split "," (a +:+ String "," b) = a :: AiChat.split "," b.
Proof.
  induction a as [|c a IH]; [done|].
  intros [Hc Ha]%includes_comma. simpl.
  destruct (Ascii.eqb_spec c ","); [done|]. by rewrite IH.
Qed.

End Splitting.

Section ChatFacts.
Import AiChat.
Context {Chat : Type}.
Variable chats_create : option string → Result Chat.
Variable sendMessage : Chat → string → Result (option string) * Chat.
Variable readAsDataURL : File → Result string.
Variable trim : string → string.
Variable hasSelectedApiKey : option (Result bool).
Variable openSelectKey : option (Result unit).
Implicit Types (st : @State Chat).

(** [convertFileToBase64] yields the payload of the data URL that the
    reader made: what follows the comma, when neither the header before it
    nor the payload has a comma. *)
Theorem convertFileToBase64_payload (file : File) (header data : string) :
  readAsDataURL file = Ok (header +:+ "," +:+ data) →
  includes header "," = false → includes data "," = false →
  convertFileToBase64 readAsDataURL file = Ok (Some data).
Proof.
  intros Hread Hheader Hdata. unfold convertFileToBase64.
  rewrite Hread. change ("," +:+ data) with (String "," data).
  by rewrite split_first, split_whole.
Qed.

Lemma handleSendMessage_cases st :
  handleSendMessage sendMessage trim st = st
  ∨ ∃ chat,
      chatSession st = Some chat ∧ trim (input st) ≠ "" ∧ isLoading st = false
      ∧ handleSendMessage sendMessage trim st
        = setIsLoading false
            (setMessages
               (messages st ++ {| role := User; text := trim (input st) |}
                  :: replyTo (sendMessage chat (trim (input st))).1)
               (setChatSession (Some (sendMessage chat (trim (input st))).2)
                  (setInput "" st))).
Proof.
  unfold handleSendMessage. destruct (chatSession st) as [chat|] eqn:Hchat; [|by left].
  case_bool_decide as Htrim; [by left|].
  destruct (isLoading st) eqn:Hidle; [by left|]. cbn [orb]. right.
  exists chat. do 3 (split; [done|]).
  destruct (sendMessage chat (trim (input st))) as [[[reply|]|err] chat'];
    cbn [fst snd replyTo App.truthy].
  - case_bool_decide as Hreply.
    + rewrite bool_decide_eq_false_2 by done. cbn. by rewrite <-app_assoc.
    + by rewrite bool_decide_eq_true_2.
  - done.
  - cbn. by rewrite <-app_assoc.
Qed.

Lemma replyTo_model (result : Result (option string)) :
  length (replyTo result) ≤ 1 ∧ Forall (λ m, role m = Model) (replyTo result).
Proof.
  destruct result as [[reply|]|err]; cbn; [case_bool_decide|..]; cbn;
    (split; [lia|by repeat constructor]).
Qed.

(** [handleSendMessage] with a session, an input that is not blank and
    no reply pending: the message, trimmed, is sent to the session once;
    the transcript grows by that message of the user and by what the model
    says to it: its reply when the reply has text, nothing when the reply
    has no text or is empty, the apology when the call throws. The input is
    cleared, no reply is pending afterwards, and the file, the error and
    the earlier messages are untouched. In every other case nothing
    changes. *)
Theorem handleSendMessage_appends st :
  let st' := handleSendMessage sendMessage trim st in
  (∀ chat,
     chatSession st = Some chat → trim (input st) ≠ "" → isLoading st = false →
     let userMessage := trim (input st) in
     let said := {| role := User; text := userMessage |} in
     let answer := sendMessage chat userMessage in
     match answer.1 with
     | Ok (Some reply) =>
         if bool_decide (reply = "")
         then messages st' = messages st ++ [said]
         else messages st' = messages st ++ [said; {| role := Model; text := reply |}]
     | Ok None => messages st' = messages st ++ [said]
     | Throw _ =>
         messages st' = messages st ++ [said; {| role := Model; text := apology |}]
     end
     ∧ chatSession st' = Some answer.2
     ∧ input st' = "" ∧ isLoading st' = false
     ∧ file st' = file st ∧ error st' = error st
     ∧ isInitializing st' = isInitializing st ∧ hasApiKey st' = hasApiKey st)
  ∧ (chatSession st = None ∨ trim (input st) = "" ∨ isLoading st = true → st' = st).
Proof.
  cbv zeta. split.
  - intros chat Hchat Htrim Hidle.
    destruct (handleSendMessage_cases st) as [Hsame|(chat0 & Hchat0 & _ & _ & ->)].
    + exfalso. revert Hsame. unfold handleSendMessage.
      rewrite Hchat, Hidle, bool_decide_eq_false_2 by done. cbn [orb].
      intros Hsame. apply (f_equal (λ st, length (messages st))) in Hsame. revert Hsame.
      destruct (sendMessage chat (trim (input st))) as [[responseText|err] chat'];
        [destruct (App.truthy responseText)|]; cbn; rewrite ?length_app; cbn; lia.
    + rewrite Hchat in Hchat0. injection Hchat0 as <-. cbn.
      split; [|done].
      destruct (sendMessage chat (trim (input st))).1 as [[reply|]|err]; cbn;
        [case_bool_decide|..]; done.
  - intros Hnot.
    destruct (handleSendMessage_cases st) as [Hsame|(chat & Hchat & Htrim & Hidle & _)];
      [done|].
    destruct Hnot as [Hnone|[Hblank|Hbusy]]; congruence.
Qed.

(** The two parts of [handleSendMessage] make the whole, but for the
    history of the session. *)
Lemma handleSendMessage_parts st chat :
  chatSession st = Some chat → trim (input st) ≠ "" → isLoading st = false →
  let answer := sendMessage chat (trim (input st)) in
  let sent := handleSendMessage_begin trim st in
  sent.2 = Some (chat, trim (input st))
  ∧ handleSendMessage sendMessage trim st
    = setChatSession (Some answer.2) (handleSendMessage_end answer.1 sent.1).
Proof.
  intros Hchat Htrim Hidle. cbv zeta. unfold handleSendMessage_begin, handleSendMessage.
  rewrite Hchat, Hidle, bool_decide_eq_false_2 by done. cbn [orb fst].
  split; [done|].
  destruct (sendMessage chat (trim (input st))) as [[responseText|err] chat'];
    unfold handleSendMessage_end; cbn [fst snd];
    [destruct (App.truthy responseText)|]; done.
Qed.

Lemma greeted_more st st' (more : list Message) :
  messages st' = messages st ++ more → greeted st → greeted st'.
Proof.
  intros Hmore (first & rest & Hmessages & Hfirst). unfold greeted.
  rewrite Hmore, Hmessages. by eexists _, _.
Qed.

Lemma handleSendMessage_begin_inSync (c : @Component Chat) :
  inSync c →
  inSync {| rendered := (handleSendMessage_begin trim (rendered c)).1;
            initializing := initializing c;
            replying :=
              replying c
              || bool_decide (is_Some (handleSendMessage_begin trim (rendered c)).2) |}.
Proof.
  intros Hc. pose proof Hc as (Hinit & Hload & Hshown). unfold handleSendMessage_begin.
  assert (inSync {| rendered := rendered c; initializing := initializing c;
                    replying :=
                      replying c || bool_decide (is_Some (@None (Chat * string))) |})
    as Hsame.
  { rewrite bool_decide_eq_false_2, orb_false_r by (by intros [? [=]]). by destruct c. }
  destruct (chatSession (rendered c)) as [chat|] eqn:Hchat; [|exact Hsame].
  destruct (bool_decide (trim (input (rendered c)) = "")); [exact Hsame|].
  destruct (isLoading (rendered c)) eqn:Hidle; [exact Hsame|]. clear Hsame.
  cbn [orb fst snd]. rewrite bool_decide_eq_true_2, orb_true_r by (by eexists).
  split; [done|]. split; [done|]. cbn [rendered initializing].
  destruct (initializing c) as [[selectedFile|chat0]|];
    [done|cbn; rewrite Hchat; exact Hshown|].
  intros Hfile. destruct (Hshown Hfile) as [_ Hgreeted].
  split; [cbn; rewrite Hchat; by eexists|].
  eapply greeted_more; [|exact Hgreeted]. reflexivity.
Qed.

Lemma handleSendMessage_end_inSync (c : @Component Chat)
    (result : Result (option string)) :
  inSync c →
  inSync {| rendered := handleSendMessage_end result (rendered c);
            initializing := initializing c; replying := false |}.
Proof.
  intros (Hinit & Hload & Hshown).
  assert (∀ more,
            let st' := setIsLoading false
                         (setMessages (messages (rendered c) ++ more) (rendered c)) in
            inSync {| rendered := st'; initializing := initializing c;
                      replying := false |}) as Hmore.
  { intros more. split; [done|]. split; [done|]. cbn [rendered initializing].
    destruct (initializing c) as [[selectedFile|chat0]|]; [done|exact Hshown|].
    intros Hfile. destruct (Hshown Hfile) as [Hsession Hgreeted].
    split; [done|]. eapply (greeted_more _ _ more); [|exact Hgreeted]. reflexivity. }
  unfold handleSendMessage_end. destruct result as [responseText|err]; [|apply Hmore].
  destruct (App.truthy responseText); [apply Hmore|].
  specialize (Hmore []). cbn in Hmore. rewrite app_nil_r in Hmore.
  destruct c as [[] ? ?]. exact Hmore.
Qed.

Lemma step_inSync action (c c' : @Component Chat) :
  step chats_create readAsDataURL trim hasSelectedApiKey openSelectKey action c
  = Some c' →
  inSync c → inSync c'.
Proof.
  intros Hstep Hc. destruct action; cbn [step] in Hstep.
  - injection Hstep as <-. destruct Hc as (Hinit & Hload & Hshown).
    unfold checkApiKey. by destruct hasSelectedApiKey as [[]|].
  - injection Hstep as <-. destruct Hc as (Hinit & Hload & Hshown).
    unfold handleConnectApiKey. by destruct openSelectKey as [[]|].
  - destruct (file (rendered c)) eqn:Hfile; [done|].
    destruct (isInitializing (rendered c)) eqn:Hbusy; [done|].
    destruct Hc as (Hinit & Hload & Hshown).
    assert (initializing c = None) as Hnone.
    { destruct (initializing c); [|done].
      rewrite Hbusy, bool_decide_eq_true_2 in Hinit; done. }
    unfold handleFileSelected_begin in Hstep. destruct files as [|selectedFile files].
    { injection Hstep as <-. rewrite Hnone in *. split; [done|]. split; [done|].
      cbn. rewrite Hfile. by intros [? [=]]. }
    destruct (bool_decide (type selectedFile ≠ "application/pdf"));
      injection Hstep as <-; rewrite ?Hnone in *.
    + split; [done|]. split; [done|]. cbn. rewrite Hfile. by intros [? [=]].
    + done.
  - destruct Hc as (Hinit & Hload & Hshown).
    destruct (initializing c) as [[selectedFile|chat0]|]; [|done..].
    unfold handleFileSelected_created in Hstep. destruct (createChat _ _ _) as [chat|err];
      injection Hstep as <-; [done|].
    split; [done|]. split; [done|]. cbn. by intros [? [=]].
  - destruct Hc as (Hinit & Hload & Hshown).
    destruct (initializing c) as [[selectedFile|chat0]|]; [done| |done].
    injection Hstep as <-. unfold handleFileSelected_end.
    destruct result as [result_text|err].
    + split; [done|]. split; [done|]. cbn. intros Hfile.
      rewrite (Hshown Hfile). split; [by eexists|]. by eexists _, _.
    + split; [done|]. split; [done|]. cbn. by intros [? [=]].
  - injection Hstep as <-. exact Hc.
  - destruct (handleSendMessage_begin trim (rendered c)) as [st' sent] eqn:Hsubmit.
    injection Hstep as <-. pose proof (handleSendMessage_begin_inSync c Hc) as Hsync.
    by rewrite Hsubmit in Hsync.
  - destruct (replying c); [|done]. injection Hstep as <-.
    by apply handleSendMessage_end_inSync.
  - injection Hstep as <-. destruct Hc as (Hinit & Hload & Hshown).
    split; [done|]. split; [done|]. cbn.
    destruct (initializing c) as [[selectedFile|chat0]|]; [done|..]; by intros [? [=]].
Qed.

(** With every [await] a step of its own and other events in between:
    whatever happens to the component, [isInitializing] is set exactly
    while an initialisation is awaited and [isLoading] exactly while a
    reply is; a conversation that is shown (a file is set) when no
    initialisation is awaited has a session and begins with words of the
    model; and while the summary is awaited, the session of a file that is
    still set is the one that was made for that file. *)
Theorem chat_shown_has_session (c : @Component Chat) :
  reachable chats_create readAsDataURL trim hasSelectedApiKey openSelectKey c →
  let st := rendered c in
  (isInitializing st = true ↔ is_Some (initializing c))
  ∧ isLoading st = replying c
  ∧ (initializing c = None → is_Some (file st) →
     is_Some (chatSession st) ∧ greeted st)
  ∧ (∀ chat, initializing c = Some (Summarizing chat) → is_Some (file st) →
     chatSession st = Some chat).
Proof.
  intros Hreach. cbv zeta.
  assert (inSync c) as (Hinit & Hload & Hshown).
  { induction Hreach as [|action c c' _ IH Hstep]; [|by eapply step_inSync].
    split; [done|]. split; [done|]. by intros [? [=]]. }
  split; [by rewrite Hinit, bool_decide_eq_true|]. split; [done|].
  split; [intros Hnone|intros chat Hsome]; by rewrite ?Hnone, ?Hsome in Hshown.
Qed.

End ChatFacts.

Lemma convertFileToBase64_payload_witness :
  Conversation.readAsDataURL Toy.pdf2
  = Ok ("data:application/pdf;base64" +:+ "," +:+ "JVBERg==") ∧
  includes "data:application/pdf;base64" "," = false ∧
  includes "JVBERg==" "," = false ∧
  AiChat.convertFileToBase64 Conversation.readAsDataURL Toy.pdf2 = Ok (Some "JVBERg==").
Proof.
  assert (Conversation.readAsDataURL Toy.pdf2
          = Ok ("data:application/pdf;base64" +:+ "," +:+ "JVBERg==")) as Hread
    by reflexivity.
  assert (includes "data:application/pdf;base64" "," = false) as Hheader
    by (vm_compute; reflexivity).
  assert (includes "JVBERg==" "," = false) as Hdata by (vm_compute; reflexivity).
  do 3 (split; [assumption|]).
  exact (convertFileToBase64_payload Conversation.readAsDataURL Toy.pdf2 _ _
           Hread Hheader Hdata).
Defined.

(** The question is sent and answered. *)
Lemma handleSendMessage_appends_witness :
  let st' := AiChat.handleSendMessage Conversation.sendMessage Conversation.trim
               Conversation.typed in
  AiChat.messages st'
  = [{| AiChat.role := AiChat.Model; AiChat.text := "A PDF." |};
     {| AiChat.role := AiChat.User; AiChat.text := "pages?" |};
     {| AiChat.role := AiChat.Model; AiChat.text := "ok" |}]
  ∧ AiChat.chatSession st' = Some ["pages?"]
  ∧ AiChat.input st' = "".
Proof.
  destruct (handleSendMessage_appends Conversation.sendMessage Conversation.trim
              Conversation.typed) as [Hsend _].
  destruct (Hsend [] eq_refl ltac:(discriminate) eq_refl)
    as (Hmessages & Hchat & Hinput & _).
  split; [exact Hmessages|]. split; [exact Hchat|exact Hinput].
Defined.

(** While the file is read the conversation is shown for it, and there is
    no session: what is typed cannot be sent. *)
Lemma conversation_shown_before_session :
  ∃ c, Conversation.reading = Some c
       ∧ AiChat.reachable Conversation.chats_create Conversation.readAsDataURL
           Conversation.trim None None c
       ∧ AiChat.file (AiChat.rendered c) = Some Toy.pdf2
       ∧ AiChat.chatSession (AiChat.rendered c) = None
       ∧ AiChat.initializing c = Some (AiChat.Reading Toy.pdf2).
Proof.
  eexists. split; [reflexivity|]. split; [|by repeat split].
  eapply AiChat.reachable_step; [apply AiChat.reachable_mounted|].
  instantiate (1 := AiChat.FileSelected [Toy.pdf2]). reflexivity.
Qed.

Lemma after_reachable (actions : list AiChat.Action) c :
  Conversation.after actions = Some c →
  AiChat.reachable Conversation.chats_create Conversation.readAsDataURL
    Conversation.trim None None c.
Proof.
  unfold Conversation.after. revert c.
  induction actions as [|action actions IH] using rev_ind; intros c.
  { intros [= <-]. apply AiChat.reachable_mounted. }
  rewrite foldl_app. cbn [foldl].
  destruct (foldl _ _ actions) as [c0|]; [|done]. cbn.
  intros Hstep. eapply AiChat.reachable_step; [by apply IH|exact Hstep].
Qed.

Lemma chat_shown_has_session_witness :
  ∃ c, Conversation.asked = Some c
       ∧ AiChat.reachable Conversation.chats_create Conversation.readAsDataURL
           Conversation.trim None None c
       ∧ AiChat.initializing c = None
       ∧ AiChat.file (AiChat.rendered c) = Some Toy.pdf2
       ∧ AiChat.isInitializing (AiChat.rendered c) = false
       ∧ AiChat.isLoading (AiChat.rendered c) = false
       ∧ is_Some (AiChat.chatSession (AiChat.rendered c))
       ∧ AiChat.greeted (AiChat.rendered c).
Proof.
  destruct Conversation.asked as [c|] eqn:Hasked; [|by vm_compute in Hasked].
  pose proof (after_reachable _ c Hasked) as Hreach.
  assert (AiChat.initializing c = None ∧ AiChat.file (AiChat.rendered c) = Some Toy.pdf2
          ∧ AiChat.isInitializing (AiChat.rendered c) = false) as (Hnone & Hfile & Hinit).
  { vm_compute in Hasked. injection Hasked as <-. by repeat split. }
  destruct (chat_shown_has_session _ _ _ _ _ c Hreach) as (_ & Hload & Hshown & _).
  destruct (Hshown Hnone) as [Hsession Hgreeted]; [by rewrite Hfile|].
  exists c. split; [done|]. split; [exact Hreach|]. split; [exact Hnone|].
  split; [exact Hfile|]. split; [exact Hinit|]. split; [|by split].
  rewrite Hload. vm_compute in Hasked. by injection Hasked as <-.
Defined.
